(** * Control-law engine of op5: PID core, lateral PID controller,
      longitudinal controller and its state machine.

    Shallow embedding of
      - selfdrive/controls/lib/pid.py
      - selfdrive/controls/lib/latcontrol_pid.py
      - selfdrive/controls/lib/longcontrol.py

    Conventions.
    - Python floats are idealised as exact rationals [Q]: rounding, overflow
      and NaN are not modelled.  Equalities between computed numbers are
      therefore stated with [==] (equality of rationals), and only values the
      code stores literally are compared with [=].
    - A Python exception aborts the tick; a computation is a value of
      [res A], either [Ok a] or [Raise e].
    - Objects are records; a method takes the object and returns the updated
      object next to its result. *)

From Stdlib Require Import QArith Qabs Qround ZArith List String Bool Lia Lqa.
Import ListNotations.

Local Open Scope Q_scope.

(* ===================================================================== *)
(** ** Python runtime: exceptions, names, indexing, calls *)
(* ===================================================================== *)

Inductive exn : Type :=
| NameError (name : string)
| AttributeError (name : string)
| TypeError (msg : string)
| IndexError
| ZeroDivisionError.

Inductive res (A : Type) : Type :=
| Ok (a : A)
| Raise (e : exn).
Arguments Ok {A} a.
Arguments Raise {A} e.

Definition bind {A B : Type} (m : res A) (k : A -> res B) : res B :=
  match m with
  | Ok a => k a
  | Raise e => Raise e
  end.

Definition raises {A : Type} (m : res A) : bool :=
  match m with
  | Ok _ => false
  | Raise _ => true
  end.

Module Py.

(** Names every module can see without importing them: the built-in
    functions and constants of Python 3 (the built-in exception classes are
    left out; all of them are spelled [...Error], [...Warning],
    [...Exception], [...Exit], [...Interrupt] or [StopIteration] and alike). *)
Definition builtins : list string :=
  [ "abs"; "all"; "any"; "ascii"; "bin"; "bool"; "breakpoint"; "bytearray";
    "bytes"; "callable"; "chr"; "classmethod"; "compile"; "complex";
    "delattr"; "dict"; "dir"; "divmod"; "enumerate"; "eval"; "exec";
    "filter"; "float"; "format"; "frozenset"; "getattr"; "globals";
    "hasattr"; "hash"; "help"; "hex"; "id"; "input"; "int"; "isinstance";
    "issubclass"; "iter"; "len"; "list"; "locals"; "map"; "max";
    "memoryview"; "min"; "next"; "object"; "oct"; "open"; "ord"; "pow";
    "print"; "property"; "range"; "repr"; "reversed"; "round"; "set";
    "setattr"; "slice"; "sorted"; "staticmethod"; "str"; "sum"; "super";
    "tuple"; "type"; "vars"; "zip"; "__import__";
    "True"; "False"; "None"; "Ellipsis"; "NotImplemented"; "__debug__";
    "__name__"; "__doc__"; "__file__"; "__package__"; "__loader__";
    "__spec__"; "__builtins__" ]%string.

(** Python values, as far as the code passes them around dynamically.
    [VObject n] stands for an object the model never looks inside (a module,
    a class, a function, a message), named [n]. *)
Inductive value : Type :=
| VFloat (q : Q)
| VInt (z : Z)
| VBool (b : bool)
| VNone
| VObject (n : string).

Definition as_float (v : value) : res Q :=
  match v with
  | VFloat q => Ok q
  | VInt z => Ok (inject_Z z)
  | VBool b => Ok (if b then 1 else 0)
  | VNone => Raise (TypeError "unsupported operand type(s): 'NoneType'")
  | VObject _ => Raise (TypeError "unsupported operand type(s): 'object'")
  end.

(** [a == b] on values: numbers compare by value, anything else by
    identity. *)
Definition eqv (a b : value) : bool :=
  match a, b with
  | VNone, VNone => true
  | VObject n, VObject m => String.eqb n m
  | (VNone | VObject _), _ | _, (VNone | VObject _) => false
  | _, _ =>
      match as_float a, as_float b with
      | Ok x, Ok y => Qeq_bool x y
      | _, _ => false
      end
  end.

Fixpoint assoc {A : Type} (n : string) (l : list (string * A)) : option A :=
  match l with
  | [] => None
  | (k, v) :: rest => if String.eqb n k then Some v else assoc n rest
  end.

(** The names a function body can resolve: its own locals, then the globals
    of the module it is defined in, then the builtins. *)
Record scope : Type := {
  locals : list (string * value);
  globals : list (string * value)
}.

Definition load_name (sc : scope) (n : string) : res value :=
  match assoc n (locals sc) with
  | Some v => Ok v
  | None =>
      match assoc n (globals sc) with
      | Some v => Ok v
      | None =>
          if existsb (String.eqb n) builtins then Ok (VObject n)
          else Raise (NameError n)
      end
  end.

(** A scope entry for a name bound to an object the model does not open. *)
Definition opaque (n : string) : string * value := (n, VObject n).

(** [l[i]] with Python's negative indices. *)
Definition index {A : Type} (l : list A) (i : Z) : res A :=
  let n := Z.of_nat (List.length l) in
  let j := (if i <? 0 then n + i else i)%Z in
  if (j <? 0)%Z || (n <=? j)%Z then Raise IndexError
  else match nth_error l (Z.to_nat j) with
       | Some a => Ok a
       | None => Raise IndexError
       end.

(** [a / b] on floats. *)
Definition div (a b : Q) : res Q :=
  if Qeq_bool b 0 then Raise ZeroDivisionError else Ok (a / b).

(** Comparisons. *)
Definition lt (a b : Q) : bool := negb (Qle_bool b a).
Definition gt (a b : Q) : bool := lt b a.
Definition ge (a b : Q) : bool := Qle_bool b a.

(** [min(a, b)] and [max(a, b)]: the first argument is kept unless the
    second is strictly better. *)
Definition min (a b : Q) : Q := if lt b a then b else a.
Definition max (a b : Q) : Q := if gt b a then b else a.

(** [round(x)]: nearest integer, ties to the even one. *)
Definition round (x : Q) : Z :=
  let fl := Qfloor x in
  let r := x - inject_Z fl in
  if lt r (1#2) then fl
  else if lt (1#2) r then (fl + 1)%Z
  else if Z.even fl then fl else (fl + 1)%Z.

(** A function signature: the parameters after [self], each with its
    default when it has one. *)
Definition signature : Type := list (string * option value).

(** Positional arguments fill the parameters from the left. *)
Fixpoint bind_positional (sig : signature) (pos : list value)
  : list (string * value) * list value :=
  match sig, pos with
  | (n, _) :: sig', v :: pos' =>
      let '(env, extra) := bind_positional sig' pos' in ((n, v) :: env, extra)
  | _, _ => ([], pos)
  end.

(** Keyword arguments: each must name a parameter not yet filled. *)
Fixpoint bind_keywords (sig : signature) (env : list (string * value))
  (kw : list (string * value)) : res (list (string * value)) :=
  match kw with
  | [] => Ok env
  | (n, v) :: kw' =>
      match assoc n sig with
      | None => Raise (TypeError ("got an unexpected keyword argument '" ++ n ++ "'")%string)
      | Some _ =>
          match assoc n env with
          | Some _ => Raise (TypeError ("got multiple values for argument '" ++ n ++ "'")%string)
          | None => bind_keywords sig (env ++ [(n, v)])%list kw'
          end
      end
  end.

(** Parameters still empty take their default; one without a default is a
    missing argument. *)
Fixpoint bind_defaults (sig : signature) (env : list (string * value))
  : res (list (string * value)) :=
  match sig with
  | [] => Ok []
  | (n, d) :: sig' =>
      bind
        (match assoc n env, d with
         | Some v, _ => Ok v
         | None, Some v => Ok v
         | None, None =>
             Raise (TypeError ("missing required positional argument: '" ++ n ++ "'")%string)
         end)
        (fun v => bind (bind_defaults sig' env) (fun rest => Ok ((n, v) :: rest)))
  end.

Definition bind_args (sig : signature) (pos : list value)
  (kw : list (string * value)) : res (list (string * value)) :=
  let '(env, extra) := bind_positional sig pos in
  bind (bind_keywords sig env kw) (fun env =>
  match extra with
  | _ :: _ => Raise (TypeError "takes too many positional arguments")
  | [] => bind_defaults sig env
  end).

Definition arg (env : list (string * value)) (n : string) : res value :=
  match assoc n env with
  | Some v => Ok v
  | None => Raise (NameError n)
  end.

End Py.

Declare Scope py_scope.
Notation "x <- m ;; k" := (bind m (fun x => k))
  (at level 61, m at next level, right associativity) : py_scope.
Notation "' pat <- m ;; k" := (bind m (fun x => match x with pat => k end))
  (at level 61, pat pattern, m at next level, right associativity) : py_scope.
Local Open Scope py_scope.

(* ===================================================================== *)
(** ** common/numpy_fast.py *)
(* ===================================================================== *)

Module numpy_fast.

(** Modelled from the spec: [common/numpy_fast.py] is not part of the
    sources at hand.  [clip(x, lo, hi)] is the clamp of the PID core's step 7
    ("control = clamp(raw, neg_limit, pos_limit)"), written with Python's
    [max(lo, min(hi, x))]. *)
Definition clip (x lo hi : Q) : Q := Py.max lo (Py.min hi x).

(** A limit that was never set is [None]; ordering a float against it is a
    [TypeError]. *)
Definition clip_opt (x : Q) (lo hi : option Q) : res Q :=
  match lo, hi with
  | Some l, Some h => Ok (clip x l h)
  | _, _ => Raise (TypeError "'<' not supported between 'float' and 'NoneType'")
  end.

(** The scan of [interp]: [hi] moves right while it is inside the table and
    the breakpoint under it lies strictly below [xv].  [xp] is the part of
    the table from [hi] on. *)
Fixpoint interp_hi (xv : Q) (xp : list Q) (hi : nat) : nat :=
  match xp with
  | [] => hi
  | x :: rest => if Py.gt xv x then interp_hi xv rest (S hi) else hi
  end.

(** Modelled from the spec: [interp(x, xp, fp)] is "linear interpolation
    over [the] breakpoint table at [speed], clamped to table endpoints
    outside range": the last value right of the table, the first value left
    of it, and in between the line through the two neighbouring
    breakpoints. *)
Definition interp (xv : Q) (xp fp : list Q) : res Q :=
  let N := List.length xp in
  let hi := interp_hi xv xp 0 in
  let low := (Z.of_nat hi - 1)%Z in
  at_end <- (if Nat.eqb hi N
             then (xl <- Py.index xp low ;; Ok (Py.gt xv xl))
             else Ok false) ;;
  if at_end then Py.index fp (-1)
  else if Nat.eqb hi 0 then Py.index fp 0
  else
    xl <- Py.index xp low ;;
    fh <- Py.index fp (Z.of_nat hi) ;;
    fl <- Py.index fp low ;;
    xh <- Py.index xp (Z.of_nat hi) ;;
    q <- Py.div ((xv - xl) * (fh - fl)) (xh - xl) ;;
    Ok (q + fl).

End numpy_fast.

(* ===================================================================== *)
(** ** selfdrive/controls/lib/pid.py *)
(* ===================================================================== *)

Module pid.

(** What the module binds at top level: its imports and its two
    definitions. *)
Definition module_globals : list (string * Py.value) :=
  map Py.opaque [ "Number"; "clip"; "interp"; "apply_deadzone"; "PIDController" ]%string.

Definition apply_deadzone (error deadzone : Q) : Q :=
  if Py.gt error deadzone then error - deadzone
  else if Py.lt error (- deadzone) then error + deadzone
  else 0.

(** A gain is given as a number or as a pair (breakpoints, values). *)
Inductive gain : Type :=
| Number (k : Q)
| Table (bp v : list Q).

(** The attributes of a [PIDController] object.  [speed] exists only once
    [update] has run. *)
Record PIDController : Type := {
  _k_p : list Q * list Q;
  _k_i : list Q * list Q;
  _k_d : list Q * list Q;
  k_f : Q;
  i_decay_factor : Q;
  pos_limit : option Q;
  neg_limit : option Q;
  i_unwind_rate : Q;
  i_rate : Q;
  _d_period : Z;
  speed : option Q;
  p : Q;
  i : Q;
  f : Q;
  control : Q;
  errors : list Q
}.

Definition set_speed (self : PIDController) (v : Q) : PIDController :=
  {| _k_p := _k_p self; _k_i := _k_i self; _k_d := _k_d self; k_f := k_f self;
     i_decay_factor := i_decay_factor self;
     pos_limit := pos_limit self; neg_limit := neg_limit self;
     i_unwind_rate := i_unwind_rate self; i_rate := i_rate self;
     _d_period := _d_period self; speed := Some v;
     p := p self; i := i self; f := f self; control := control self;
     errors := errors self |}.

Definition set_p (self : PIDController) (v : Q) : PIDController :=
  {| _k_p := _k_p self; _k_i := _k_i self; _k_d := _k_d self; k_f := k_f self;
     i_decay_factor := i_decay_factor self;
     pos_limit := pos_limit self; neg_limit := neg_limit self;
     i_unwind_rate := i_unwind_rate self; i_rate := i_rate self;
     _d_period := _d_period self; speed := speed self;
     p := v; i := i self; f := f self; control := control self;
     errors := errors self |}.

Definition set_i (self : PIDController) (v : Q) : PIDController :=
  {| _k_p := _k_p self; _k_i := _k_i self; _k_d := _k_d self; k_f := k_f self;
     i_decay_factor := i_decay_factor self;
     pos_limit := pos_limit self; neg_limit := neg_limit self;
     i_unwind_rate := i_unwind_rate self; i_rate := i_rate self;
     _d_period := _d_period self; speed := speed self;
     p := p self; i := v; f := f self; control := control self;
     errors := errors self |}.

Definition set_f (self : PIDController) (v : Q) : PIDController :=
  {| _k_p := _k_p self; _k_i := _k_i self; _k_d := _k_d self; k_f := k_f self;
     i_decay_factor := i_decay_factor self;
     pos_limit := pos_limit self; neg_limit := neg_limit self;
     i_unwind_rate := i_unwind_rate self; i_rate := i_rate self;
     _d_period := _d_period self; speed := speed self;
     p := p self; i := i self; f := v; control := control self;
     errors := errors self |}.

Definition set_control (self : PIDController) (v : Q) : PIDController :=
  {| _k_p := _k_p self; _k_i := _k_i self; _k_d := _k_d self; k_f := k_f self;
     i_decay_factor := i_decay_factor self;
     pos_limit := pos_limit self; neg_limit := neg_limit self;
     i_unwind_rate := i_unwind_rate self; i_rate := i_rate self;
     _d_period := _d_period self; speed := speed self;
     p := p self; i := i self; f := f self; control := v;
     errors := errors self |}.

Definition set_errors (self : PIDController) (v : list Q) : PIDController :=
  {| _k_p := _k_p self; _k_i := _k_i self; _k_d := _k_d self; k_f := k_f self;
     i_decay_factor := i_decay_factor self;
     pos_limit := pos_limit self; neg_limit := neg_limit self;
     i_unwind_rate := i_unwind_rate self; i_rate := i_rate self;
     _d_period := _d_period self; speed := speed self;
     p := p self; i := i self; f := f self; control := control self;
     errors := v |}.

Definition set_pos_limit (self : PIDController) (v : option Q) : PIDController :=
  {| _k_p := _k_p self; _k_i := _k_i self; _k_d := _k_d self; k_f := k_f self;
     i_decay_factor := i_decay_factor self;
     pos_limit := v; neg_limit := neg_limit self;
     i_unwind_rate := i_unwind_rate self; i_rate := i_rate self;
     _d_period := _d_period self; speed := speed self;
     p := p self; i := i self; f := f self; control := control self;
     errors := errors self |}.

Definition set_neg_limit (self : PIDController) (v : option Q) : PIDController :=
  {| _k_p := _k_p self; _k_i := _k_i self; _k_d := _k_d self; k_f := k_f self;
     i_decay_factor := i_decay_factor self;
     pos_limit := pos_limit self; neg_limit := v;
     i_unwind_rate := i_unwind_rate self; i_rate := i_rate self;
     _d_period := _d_period self; speed := speed self;
     p := p self; i := i self; f := f self; control := control self;
     errors := errors self |}.

(** [reset]: lines 49-54. *)
Definition reset (self : PIDController) : PIDController :=
  let self := set_p self 0 in
  let self := set_i self 0 in
  let self := set_f self 0 in
  let self := set_control self 0 in
  set_errors self [].

(** A gain given as a number becomes the one-point table [[0], [k]]
    (lines 21-26). *)
Definition as_table (k : gain) : list Q * list Q :=
  match k with
  | Number k => ([0], [k])
  | Table bp v => (bp, v)
  end.

Section Init.

(** What [np.exp] would compute were [np] bound to numpy. *)
Variable exp : Q -> Q.

(** Lines 21-35 of [__init__]: all of it but the decay factor. *)
Definition init_rest (k_p k_i k_d : gain) (k_f : Q) (pos_limit neg_limit : option Q)
  (rate derivative_period : Q) (i_decay_factor : Q) : res PIDController :=
  i_unwind_rate <- Py.div 1 rate ;;
  i_rate <- Py.div 1 rate ;;
  Ok (reset
        {| _k_p := as_table k_p; _k_i := as_table k_i; _k_d := as_table k_d;
           k_f := k_f; i_decay_factor := i_decay_factor;
           pos_limit := pos_limit; neg_limit := neg_limit;
           i_unwind_rate := i_unwind_rate; i_rate := i_rate;
           _d_period := Py.round (derivative_period * rate);
           speed := None;
           p := 0; i := 0; f := 0; control := 0; errors := [] |}).

Definition init_scope (k_f rate i_decay_tau derivative_period : Q) : Py.scope :=
  {| Py.locals :=
       [ Py.opaque "self"; Py.opaque "k_p"; Py.opaque "k_i"; Py.opaque "k_d";
         ("k_f", Py.VFloat k_f); Py.opaque "pos_limit"; Py.opaque "neg_limit";
         ("rate", Py.VFloat rate); ("i_decay_tau", Py.VFloat i_decay_tau);
         ("derivative_period", Py.VFloat derivative_period) ]%string;
     Py.globals := module_globals |}.

(** [__init__]: line 20 looks up [float] and then [np] before anything of
    the exponent is computed. *)
Definition __init__ (k_p k_i k_d : gain) (k_f : Q) (pos_limit neg_limit : option Q)
  (rate i_decay_tau derivative_period : Q) : res PIDController :=
  let sc := init_scope k_f rate i_decay_tau derivative_period in
  _ <- Py.load_name sc "float" ;;
  _ <- Py.load_name sc "np" ;;
  q <- Py.div (-1) (rate * i_decay_tau + (1 # 1000000)) ;;
  init_rest k_p k_i k_d k_f pos_limit neg_limit rate derivative_period (exp q).

End Init.

(** The scheduled gains (properties [k_p], [k_i], [k_d]). *)
Definition get_speed (self : PIDController) : res Q :=
  match speed self with
  | Some v => Ok v
  | None => Raise (AttributeError "speed")
  end.

Definition k_p (self : PIDController) : res Q :=
  v <- get_speed self ;; numpy_fast.interp v (fst (_k_p self)) (snd (_k_p self)).

Definition k_i (self : PIDController) : res Q :=
  v <- get_speed self ;; numpy_fast.interp v (fst (_k_i self)) (snd (_k_i self)).

Definition k_d (self : PIDController) : res Q :=
  v <- get_speed self ;; numpy_fast.interp v (fst (_k_d self)) (snd (_k_d self)).

(** Lines 66-69: the derivative term [d] for the current [error]. *)
Definition derivative (self : PIDController) (error : Q) : res Q :=
  if (Z.of_nat (List.length (errors self)) >=? _d_period self)%Z then
    e_old <- Py.index (errors self) (- _d_period self) ;;
    d <- Py.div (error - e_old) (inject_Z (_d_period self)) ;;
    kd <- k_d self ;;
    Ok (d * kd)
  else Ok 0.

(** Lines 77-78: [while len(self.errors) > self._d_period: self.errors.pop(0)]. *)
Fixpoint trim (d_period : Z) (errs : list Q) : res (list Q) :=
  match errs with
  | [] => if (0 >? d_period)%Z then Raise IndexError else Ok []
  | e :: rest =>
      if (Z.of_nat (List.length (e :: rest)) >? d_period)%Z
      then trim d_period rest
      else Ok (e :: rest)
  end.

(** [update]: lines 56-81.  The result carries the object after the call and
    the returned command. *)
Definition update (self : PIDController)
  (setpoint measurement last_output speed feedforward deadzone : Q)
  : res (PIDController * Q) :=
  let self := set_speed self speed in
  let i_bf := i_unwind_rate self * (p self + i self + f self - last_output) in
  let error := apply_deadzone (setpoint - measurement) deadzone in
  kp <- k_p self ;;
  let self := set_p self (error * kp) in
  ki <- k_i self ;;
  let self := set_i self (i self + error * ki * i_rate self - i_bf) in
  let self := set_f self (feedforward * k_f self) in
  d <- derivative self error ;;
  fc <- numpy_fast.clip_opt (f self) (neg_limit self) (pos_limit self) ;;
  let self := set_f self fc in
  let control := p self + i self + f self + d in
  let self := set_i self (i_decay_factor self * i self) in
  let self := set_errors self (errors self ++ [error]) in
  errs <- trim (_d_period self) (errors self) ;;
  let self := set_errors self errs in
  c <- numpy_fast.clip_opt control (neg_limit self) (pos_limit self) ;;
  let self := set_control self c in
  Ok (self, c).

(** The signature of [update] after [self]. *)
Definition update_signature : Py.signature :=
  [ ("setpoint", None); ("measurement", None); ("last_output", None);
    ("speed", Some (Py.VFloat 0)); ("feedforward", Some (Py.VFloat 0));
    ("deadzone", Some (Py.VFloat 0)) ]%string.

(** A call of [update] with positional arguments [pos] and keyword
    arguments [kw]: they are bound to the signature, then the body runs. *)
Definition call_update (self : PIDController) (pos : list Py.value)
  (kw : list (string * Py.value)) : res (PIDController * Q) :=
  env <- Py.bind_args update_signature pos kw ;;
  setpoint <- (v <- Py.arg env "setpoint" ;; Py.as_float v) ;;
  measurement <- (v <- Py.arg env "measurement" ;; Py.as_float v) ;;
  last_output <- (v <- Py.arg env "last_output" ;; Py.as_float v) ;;
  speed <- (v <- Py.arg env "speed" ;; Py.as_float v) ;;
  feedforward <- (v <- Py.arg env "feedforward" ;; Py.as_float v) ;;
  deadzone <- (v <- Py.arg env "deadzone" ;; Py.as_float v) ;;
  update self setpoint measurement last_output speed feedforward deadzone.

End pid.

(* ===================================================================== *)
(** ** Messages read by the controllers (cereal) *)
(* ===================================================================== *)

Module car.

Record CruiseState : Type := {
  cruise_standstill : bool          (* CS.cruiseState.standstill *)
}.

Record CarState : Type := {
  vEgo : Q;
  steeringAngleDeg : Q;
  steeringRateDeg : Q;
  brakePressed : bool;
  gasPressed : bool;
  standstill : bool;
  cruiseState : CruiseState
}.

Record LateralPIDTuning : Type := {
  lat_kpBP : list Q; lat_kpV : list Q;
  lat_kiBP : list Q; lat_kiV : list Q;
  lat_kdBP : list Q; lat_kdV : list Q;
  kf : Q;
  newKfTuned : bool
}.

Record LongitudinalPIDTuning : Type := {
  kpBP : list Q; kpV : list Q;
  kiBP : list Q; kiV : list Q;
  kdBP : list Q; kdV : list Q;
  deadzoneBP : list Q; deadzoneV : list Q
}.

Record CarParams : Type := {
  lateralTuning_pid : LateralPIDTuning;        (* CP.lateralTuning.pid *)
  longitudinalTuning : LongitudinalPIDTuning;
  vEgoStopping : Q;
  vEgoStarting : Q;
  startAccel : Q;
  stopAccel : Q;
  stoppingDecelRate : Q;
  startingAccelRate : Q;
  stoppingControl : bool
}.

Record LeadData : Type := {
  status : bool;
  vLead : Q
}.

(** [radarState] may be [None], and so may its [leadOne]. *)
Record RadarState : Type := {
  leadOne : option LeadData
}.

End car.

(* ===================================================================== *)
(** ** selfdrive/controls/lib/latcontrol_pid.py *)
(* ===================================================================== *)

Module latcontrol_pid.

(** The diagnostic record [log.ControlsState.LateralPIDState]; a new message
    holds zeros and [False]. *)
Record LateralPIDState : Type := {
  log_steeringAngleDeg : Q;
  log_steeringRateDeg : Q;
  log_steeringAngleDesiredDeg : Q;
  log_angleError : Q;
  log_active : bool;
  log_p : Q;
  log_i : Q;
  log_f : Q;
  log_output : Q;
  log_saturated : bool
}.

(** The car interface [CI], the vehicle model [VM] and the live parameters
    [params], as far as [update] calls into them. *)
Record CarInterface : Type := {
  get_steer_feedforward_function : Q -> Q -> Q;
  calc_last_outputs : Q -> Q
}.

Record VehicleModel : Type := {
  get_steer_from_curvature : Q -> Q -> Q -> Q
}.

Record LiveParameters : Type := {
  angleOffsetDeg : Q
}.

Section LatControlPID.

(** The base class [LatControl] of [latcontrol.py], [get_steer_max] of
    [drive_helpers.py] and [math.degrees] are outside the sources at hand:
    the base part of the object, its three methods and the two helpers are
    taken as they come. *)
Variable LatControl : Type.
Variable LatControl_init : car.CarParams -> CarInterface -> LatControl.
Variable LatControl_reset : LatControl -> LatControl.
Variable LatControl_check_saturation :
  LatControl -> bool -> car.CarState -> LatControl * bool.
Variable MIN_STEER_SPEED : Q.
Variable get_steer_max : car.CarParams -> Q -> Q.
Variable degrees : Q -> Q.
Variable exp : Q -> Q.

(** The attributes of a [LatControlPID] object.  [output_steer_last] is the
    attribute [__init__] creates and [update] reads; [ouptut_steer_last] is
    the attribute the last line of [update] writes, absent before the first
    [update]. *)
Record LatControlPID : Type := {
  base : LatControl;
  pid : pid.PIDController;
  new_kf_tuned : bool;
  get_steer_feedforward : Q -> Q -> Q;
  output_steer_last : Q;
  ouptut_steer_last : option Q
}.

(** [__init__]: lines 10-19. *)
Definition __init__ (CP : car.CarParams) (CI : CarInterface) : res LatControlPID :=
  let base := LatControl_init CP CI in
  let t := car.lateralTuning_pid CP in
  pid <- pid.__init__ exp
           (pid.Table (car.lat_kpBP t) (car.lat_kpV t))
           (pid.Table (car.lat_kiBP t) (car.lat_kiV t))
           (pid.Table (car.lat_kdBP t) (car.lat_kdV t))
           (car.kf t) (Some 1) (Some (-1)) 100 100 (1 # 10) ;;
  Ok {| base := base; pid := pid;
        new_kf_tuned := car.newKfTuned t;
        get_steer_feedforward := get_steer_feedforward_function CI;
        output_steer_last := 0;
        ouptut_steer_last := None |}.

(** [reset]: lines 21-23. *)
Definition reset (self : LatControlPID) : LatControlPID :=
  {| base := LatControl_reset (base self);
     pid := pid.reset (pid self);
     new_kf_tuned := new_kf_tuned self;
     get_steer_feedforward := get_steer_feedforward self;
     output_steer_last := output_steer_last self;
     ouptut_steer_last := ouptut_steer_last self |}.

Definition set_pid (self : LatControlPID) (c : pid.PIDController) : LatControlPID :=
  {| base := base self; pid := c;
     new_kf_tuned := new_kf_tuned self;
     get_steer_feedforward := get_steer_feedforward self;
     output_steer_last := output_steer_last self;
     ouptut_steer_last := ouptut_steer_last self |}.

Definition set_base (self : LatControlPID) (b : LatControl) : LatControlPID :=
  {| base := b; pid := pid self;
     new_kf_tuned := new_kf_tuned self;
     get_steer_feedforward := get_steer_feedforward self;
     output_steer_last := output_steer_last self;
     ouptut_steer_last := ouptut_steer_last self |}.

(** Line 58, [self.ouptut_steer_last = output_steer]. *)
Definition set_ouptut_steer_last (self : LatControlPID) (v : Q) : LatControlPID :=
  {| base := base self; pid := pid self;
     new_kf_tuned := new_kf_tuned self;
     get_steer_feedforward := get_steer_feedforward self;
     output_steer_last := output_steer_last self;
     ouptut_steer_last := Some v |}.

(** The third positional argument of the call on line 49: what the PID core
    receives as [last_output]. *)
Definition last_output_fed (self : LatControlPID) (CI : CarInterface) : Q :=
  calc_last_outputs CI (output_steer_last self).

(** [update]: lines 25-59.  The result is the object after the call and the
    returned triple (command, desired angle, diagnostic record). *)
Definition update (self : LatControlPID) (active : bool) (CS : car.CarState)
  (CP : car.CarParams) (CI : CarInterface) (VM : VehicleModel)
  (params : LiveParameters) (desired_curvature desired_curvature_rate roll : Q)
  : res (LatControlPID * (Q * Q * LateralPIDState)) :=
  let angle_steers_des_no_offset :=
    degrees (get_steer_from_curvature VM (- desired_curvature) (car.vEgo CS) roll) in
  let angle_steers_des := angle_steers_des_no_offset + angleOffsetDeg params in
  let angleError := angle_steers_des - car.steeringAngleDeg CS in
  '(self, output_steer, pid_log) <-
    (if Py.lt (car.vEgo CS) MIN_STEER_SPEED || negb active then
       let output_steer := 0 in
       Ok (reset self, output_steer,
           {| log_steeringAngleDeg := car.steeringAngleDeg CS;
              log_steeringRateDeg := car.steeringRateDeg CS;
              log_steeringAngleDesiredDeg := angle_steers_des;
              log_angleError := angleError;
              log_active := false;
              log_p := 0; log_i := 0; log_f := 0; log_output := 0;
              log_saturated := false |})
     else
       let steers_max := get_steer_max CP (car.vEgo CS) in
       let self := set_pid self (pid.set_pos_limit (pid self) (Some steers_max)) in
       let self := set_pid self (pid.set_neg_limit (pid self) (Some (- steers_max))) in
       let steer_feedforward :=
         get_steer_feedforward self angle_steers_des_no_offset (car.vEgo CS) in
       let deadzone := 0 in
       '(c, output_steer) <-
         pid.call_update (pid self)
           [ Py.VFloat angle_steers_des; Py.VFloat (car.steeringAngleDeg CS);
             Py.VFloat (last_output_fed self CI) ]
           [ ("feedforward", Py.VFloat steer_feedforward);
             ("speed", Py.VFloat (car.vEgo CS));
             ("deadzone", Py.VFloat deadzone) ]%string ;;
       let self := set_pid self c in
       let '(b, saturated) :=
         LatControl_check_saturation (base self)
           (Py.lt (steers_max - Qabs output_steer) (1 # 1000)) CS in
       let self := set_base self b in
       Ok (self, output_steer,
           {| log_steeringAngleDeg := car.steeringAngleDeg CS;
              log_steeringRateDeg := car.steeringRateDeg CS;
              log_steeringAngleDesiredDeg := angle_steers_des;
              log_angleError := angleError;
              log_active := true;
              log_p := pid.p (pid self);
              log_i := pid.i (pid self);
              log_f := pid.f (pid self);
              log_output := output_steer;
              log_saturated := saturated |})) ;;
  let self := set_ouptut_steer_last self output_steer in
  Ok (self, (output_steer, angle_steers_des, pid_log)).

End LatControlPID.

End latcontrol_pid.

(* ===================================================================== *)
(** ** selfdrive/controls/lib/longcontrol.py *)
(* ===================================================================== *)

Module longcontrol.

(** [LongCtrlState = car.CarControl.Actuators.LongControlState]: the four
    members of the enumeration, and the value each is at run time (their
    ordinals). *)
Module LongCtrlState.

Inductive t : Type := off | pid | stopping | starting.

Definition value (s : t) : Py.value :=
  match s with
  | off => Py.VInt 0
  | pid => Py.VInt 1
  | stopping => Py.VInt 2
  | starting => Py.VInt 3
  end.

End LongCtrlState.

(** As per ISO 15622:2018 for all speeds (lines 11-13). *)
Definition ACCEL_MIN_ISO : Q := - (35 # 10).
Definition ACCEL_MAX_ISO : Q := 2.

(** What the module binds at top level. *)
Definition module_globals : list (string * Py.value) :=
  map Py.opaque
    [ "car"; "clip"; "interp"; "DT_CTRL"; "PIDController"; "CONTROL_N";
      "T_IDXS"; "ntune_scc_get"; "LongCtrlState" ]%string
  ++ [ ("ACCEL_MIN_ISO", Py.VFloat ACCEL_MIN_ISO);
       ("ACCEL_MAX_ISO", Py.VFloat ACCEL_MAX_ISO) ]%string
  ++ map Py.opaque [ "long_control_state_trans"; "LongControl" ]%string.

(** Lines 19-28: the three conditions of the state machine. *)
Definition accelerating (v_target_future v_target : Q) : bool :=
  Py.gt v_target_future v_target.

Definition stopping_condition (CP : car.CarParams) (v_ego v_target_future v_target : Q)
  (brake_pressed cruise_standstill : bool) : bool :=
  (Py.lt v_ego 2 && cruise_standstill)
  || (Py.lt v_ego (car.vEgoStopping CP)
      && ((Py.lt v_target_future (car.vEgoStopping CP)
           && negb (accelerating v_target_future v_target))
          || brake_pressed)).

Definition starting_condition (CP : car.CarParams) (v_target_future v_target : Q)
  (cruise_standstill : bool) (radarState : option car.RadarState) : bool :=
  let starting_condition :=
    Py.gt v_target_future (car.vEgoStarting CP)
    && accelerating v_target_future v_target
    && negb cruise_standstill in
  match radarState with
  | Some rs =>
      match car.leadOne rs with
      | Some lead =>
          if car.status lead
          then starting_condition && Py.gt (car.vLead lead) (car.vEgoStarting CP)
          else starting_condition
      | None => starting_condition
      end
  | None => starting_condition
  end.

(** Lines 30-50: the value of the local [long_control_state] when the
    [return] on line 52 is reached. *)
Definition next_state (CP : car.CarParams) (active : bool)
  (long_control_state : Py.value) (v_ego v_target_future v_target output_accel : Q)
  (brake_pressed cruise_standstill : bool) (radarState : option car.RadarState)
  : Py.value :=
  let stopping_condition :=
    stopping_condition CP v_ego v_target_future v_target brake_pressed cruise_standstill in
  let starting_condition :=
    starting_condition CP v_target_future v_target cruise_standstill radarState in
  if negb active then LongCtrlState.value LongCtrlState.off
  else if Py.eqv long_control_state (LongCtrlState.value LongCtrlState.off) then
    if active then LongCtrlState.value LongCtrlState.pid else long_control_state
  else if Py.eqv long_control_state (LongCtrlState.value LongCtrlState.pid) then
    if stopping_condition then LongCtrlState.value LongCtrlState.stopping
    else long_control_state
  else if Py.eqv long_control_state (LongCtrlState.value LongCtrlState.stopping) then
    if starting_condition then LongCtrlState.value LongCtrlState.starting
    else long_control_state
  else if Py.eqv long_control_state (LongCtrlState.value LongCtrlState.starting) then
    if stopping_condition then LongCtrlState.value LongCtrlState.stopping
    else if Py.ge output_accel (car.startAccel CP)
         then LongCtrlState.value LongCtrlState.pid
         else long_control_state
  else long_control_state.

(** The names bound inside [long_control_state_trans] when line 52 runs:
    its ten parameters and the three conditions. *)
Definition trans_scope (CP : car.CarParams) (active : bool)
  (long_control_state : Py.value) (v_ego v_target_future v_target output_accel : Q)
  (brake_pressed cruise_standstill : bool) (radarState : option car.RadarState)
  : Py.scope :=
  {| Py.locals :=
       [ Py.opaque "CP";
         ("active", Py.VBool active);
         ("long_control_state",
           next_state CP active long_control_state v_ego v_target_future v_target
             output_accel brake_pressed cruise_standstill radarState);
         ("v_ego", Py.VFloat v_ego);
         ("v_target_future", Py.VFloat v_target_future);
         ("v_target", Py.VFloat v_target);
         ("output_accel", Py.VFloat output_accel);
         ("brake_pressed", Py.VBool brake_pressed);
         ("cruise_standstill", Py.VBool cruise_standstill);
         ("radarState",
           match radarState with Some _ => Py.VObject "radarState" | None => Py.VNone end);
         ("accelerating", Py.VBool (accelerating v_target_future v_target));
         ("stopping_condition",
           Py.VBool (stopping_condition CP v_ego v_target_future v_target
                       brake_pressed cruise_standstill));
         ("starting_condition",
           Py.VBool (starting_condition CP v_target_future v_target
                       cruise_standstill radarState)) ]%string;
     Py.globals := module_globals |}.

(** [long_control_state_trans]: lines 16-52.  Line 52 returns whatever the
    name [long_control_stat] is bound to. *)
Definition long_control_state_trans (CP : car.CarParams) (active : bool)
  (long_control_state : Py.value) (v_ego v_target_future v_target output_accel : Q)
  (brake_pressed cruise_standstill : bool) (radarState : option car.RadarState)
  : res Py.value :=
  Py.load_name
    (trans_scope CP active long_control_state v_ego v_target_future v_target
       output_accel brake_pressed cruise_standstill radarState)
    "long_control_stat".

Record LongitudinalPlan : Type := {
  speeds : list Q;
  accels : list Q
}.

Section LongControl.

(** [DT_CTRL] of [common/realtime.py], [CONTROL_N] of [drive_helpers.py],
    [T_IDXS] of [modeld/constants.py] and [ntune_scc_get] of [ntune.py] are
    outside the sources at hand and are taken as they come. *)
Variable DT_CTRL : Q.
Variable CONTROL_N : nat.
Variable T_IDXS : list Q.
Variable ntune_scc_get : string -> Q.
Variable exp : Q -> Q.

Record LongControl : Type := {
  long_control_state : Py.value;
  pid : pid.PIDController;
  v_pid : Q;
  last_output_accel : Q
}.

(** [__init__]: lines 56-64. *)
Definition __init__ (CP : car.CarParams) : res LongControl :=
  let t := car.longitudinalTuning CP in
  rate <- Py.div 1 DT_CTRL ;;
  c <- pid.__init__ exp
         (pid.Table (car.kpBP t) (car.kpV t))
         (pid.Table (car.kiBP t) (car.kiV t))
         (pid.Table (car.kdBP t) (car.kdV t))
         1 None None rate 100 (1 # 2) ;;
  Ok {| long_control_state := LongCtrlState.value LongCtrlState.off;
        pid := c; v_pid := 0; last_output_accel := 0 |}.

(** [reset]: lines 66-69. *)
Definition reset (self : LongControl) (v_pid : Q) : LongControl :=
  {| long_control_state := long_control_state self;
     pid := pid.reset (pid self);
     v_pid := v_pid;
     last_output_accel := last_output_accel self |}.

(** One of the two finite-difference estimates (lines 80-81 and 83-84) at
    the actuator delay [delay]. *)
Definition a_target_at (long_plan : LongitudinalPlan) (delay : Q) : res Q :=
  v_target_d <- numpy_fast.interp delay (firstn CONTROL_N T_IDXS) (speeds long_plan) ;;
  s0 <- Py.index (speeds long_plan) 0 ;;
  q <- Py.div (2 * (v_target_d - s0)) delay ;;
  a0 <- Py.index (accels long_plan) 0 ;;
  Ok (q - a0).

(** Lines 75-92: (v_target, v_target_future, a_target) from the plan. *)
Definition plan_targets (long_plan : LongitudinalPlan) : res (Q * Q * Q) :=
  if Nat.eqb (List.length (speeds long_plan)) CONTROL_N then
    let longitudinalActuatorDelayLowerBound :=
      ntune_scc_get "longitudinalActuatorDelayLowerBound" in
    let longitudinalActuatorDelayUpperBound :=
      ntune_scc_get "longitudinalActuatorDelayUpperBound" in
    a_target_lower <- a_target_at long_plan longitudinalActuatorDelayLowerBound ;;
    a_target_upper <- a_target_at long_plan longitudinalActuatorDelayUpperBound ;;
    v_target <- Py.index (speeds long_plan) 0 ;;
    v_target_future <- Py.index (speeds long_plan) (-1) ;;
    Ok (v_target, v_target_future, Py.min a_target_lower a_target_upper)
  else
    Ok (0, 0, 0).

(** Lines 94-98: the low-speed boost and the ISO clamp of the feedforward. *)
Definition feedforward (CS : car.CarState) (a_target : Q) : res Q :=
  a_target <-
    (if Py.gt a_target 0 then
       k <- numpy_fast.interp (car.vEgo CS) [0; 3] [12 # 10; 1] ;;
       Ok (a_target * k)
     else Ok a_target) ;;
  Ok (numpy_fast.clip a_target ACCEL_MIN_ISO ACCEL_MAX_ISO).

Definition set_limits (self : LongControl) (accel_limits : Q * Q) : LongControl :=
  {| long_control_state := long_control_state self;
     pid := pid.set_pos_limit
              (pid.set_neg_limit (pid self) (Some (fst accel_limits)))
              (Some (snd accel_limits));
     v_pid := v_pid self;
     last_output_accel := last_output_accel self |}.

Definition set_state (self : LongControl) (s : Py.value) : LongControl :=
  {| long_control_state := s; pid := pid self; v_pid := v_pid self;
     last_output_accel := last_output_accel self |}.

Definition set_v_pid (self : LongControl) (v : Q) : LongControl :=
  {| long_control_state := long_control_state self; pid := pid self; v_pid := v;
     last_output_accel := last_output_accel self |}.

Definition set_pid (self : LongControl) (c : pid.PIDController) : LongControl :=
  {| long_control_state := long_control_state self; pid := c; v_pid := v_pid self;
     last_output_accel := last_output_accel self |}.

Definition set_last_output_accel (self : LongControl) (v : Q) : LongControl :=
  {| long_control_state := long_control_state self; pid := pid self;
     v_pid := v_pid self; last_output_accel := v |}.

(** What [self.pid.update] is to its caller: a method given the object, the
    positional arguments and the keywords of a call. *)
Definition pid_method : Type :=
  pid.PIDController -> list Py.value -> list (string * Py.value)
  -> res (pid.PIDController * Q).

(** What [long_control_state_trans] is to its caller. *)
Definition trans_function : Type :=
  car.CarParams -> bool -> Py.value -> Q -> Q -> Q -> Q -> bool -> bool
  -> option car.RadarState -> res Py.value.

(** Lines 113-126: the tracking branch.  The call on line 123 passes two
    positional arguments and four keywords to [self.pid.update], here
    [call], so that what the branch hands to it can be told from what the
    method makes of it. *)
Definition track_with (call : pid_method)
  (self : LongControl) (CS : car.CarState) (CP : car.CarParams)
  (v_target v_target_future a_target : Q) : res (LongControl * Q) :=
  let self := set_v_pid self v_target in
  let prevent_overshoot :=
    negb (car.stoppingControl CP) && Py.lt (car.vEgo CS) (15 # 10)
    && Py.lt v_target_future (7 # 10) && Py.lt v_target_future (v_pid self) in
  deadzone <- numpy_fast.interp (car.vEgo CS)
                (car.deadzoneBP (car.longitudinalTuning CP))
                (car.deadzoneV (car.longitudinalTuning CP)) ;;
  let freeze_integrator := prevent_overshoot in
  '(c, output_accel) <-
    call (pid self)
      [ Py.VFloat (v_pid self); Py.VFloat (car.vEgo CS) ]
      [ ("speed", Py.VFloat (car.vEgo CS));
        ("deadzone", Py.VFloat deadzone);
        ("feedforward", Py.VFloat a_target);
        ("freeze_integrator", Py.VBool freeze_integrator) ]%string ;;
  let self := set_pid self c in
  Ok (self, if prevent_overshoot then Py.min output_accel 0 else output_accel).

(** The tracking branch as it runs: the method is [PIDController.update]. *)
Definition track : LongControl -> car.CarState -> car.CarParams -> Q -> Q -> Q
                   -> res (LongControl * Q) :=
  track_with pid.call_update.

(** [update]: lines 71-147, with its two callees, the state machine [trans]
    and the method [call] of the PID core, as parameters. *)
Definition update_with (trans : trans_function) (call : pid_method)
  (self : LongControl) (active : bool) (CS : car.CarState)
  (CP : car.CarParams) (long_plan : LongitudinalPlan) (accel_limits : Q * Q)
  (radarState : option car.RadarState) : res (LongControl * Q) :=
  '(v_target, v_target_future, a_target) <- plan_targets long_plan ;;
  a_target <- feedforward CS a_target ;;
  let self := set_limits self accel_limits in
  let output_accel := last_output_accel self in
  s <- trans CP active (long_control_state self) (car.vEgo CS)
         v_target_future v_target output_accel
         (car.brakePressed CS) (car.cruise_standstill (car.cruiseState CS))
         radarState ;;
  let self := set_state self s in
  '(self, output_accel) <-
    (if Py.eqv (long_control_state self) (LongCtrlState.value LongCtrlState.off)
        || car.gasPressed CS then
       Ok (reset self (car.vEgo CS), 0)
     else if Py.eqv (long_control_state self) (LongCtrlState.value LongCtrlState.pid) then
       track_with call self CS CP v_target v_target_future a_target
     else if Py.eqv (long_control_state self)
               (LongCtrlState.value LongCtrlState.stopping) then
       output_accel <-
         (if negb (car.standstill CS) || Py.gt output_accel (car.stopAccel CP) then
            k <- numpy_fast.interp output_accel
                   [car.stopAccel CP; car.stopAccel CP / 2; 0]
                   [3 # 10; 65 # 100; 12 # 10] ;;
            Ok (output_accel - car.stoppingDecelRate CP * DT_CTRL * k)
          else Ok output_accel) ;;
       let output_accel :=
         numpy_fast.clip output_accel (fst accel_limits) (snd accel_limits) in
       Ok (reset self (car.vEgo CS), output_accel)
     else if Py.eqv (long_control_state self)
               (LongCtrlState.value LongCtrlState.starting) then
       let output_accel :=
         if Py.lt output_accel (car.startAccel CP)
         then output_accel + car.startingAccelRate CP * DT_CTRL
         else output_accel in
       Ok (reset self (car.vEgo CS), output_accel)
     else Ok (self, output_accel)) ;;
  let self := set_last_output_accel self output_accel in
  let final_accel :=
    numpy_fast.clip output_accel (fst accel_limits) (snd accel_limits) in
  Ok (self, final_accel).

(** [update] as it runs: the state machine is [long_control_state_trans] and
    the method is [PIDController.update]. *)
Definition update : LongControl -> bool -> car.CarState -> car.CarParams
                    -> LongitudinalPlan -> Q * Q -> option car.RadarState
                    -> res (LongControl * Q) :=
  update_with long_control_state_trans pid.call_update.

End LongControl.

End longcontrol.

(* ===================================================================== *)
(** ** Basic facts about the runtime *)
(* ===================================================================== *)

Lemma lt_true (a b : Q) : Py.lt a b = true <-> a < b.
Proof.
  unfold Py.lt. rewrite negb_true_iff, <- not_true_iff_false, Qle_bool_iff.
  split; [apply Qnot_le_lt | apply Qlt_not_le].
Qed.

Lemma lt_false (a b : Q) : Py.lt a b = false <-> b <= a.
Proof.
  unfold Py.lt. rewrite negb_false_iff. apply Qle_bool_iff.
Qed.

Lemma gt_true (a b : Q) : Py.gt a b = true <-> b < a.
Proof. unfold Py.gt. apply lt_true. Qed.

Lemma gt_false (a b : Q) : Py.gt a b = false <-> a <= b.
Proof. unfold Py.gt. apply lt_false. Qed.

Lemma ge_true (a b : Q) : Py.ge a b = true <-> b <= a.
Proof. unfold Py.ge. apply Qle_bool_iff. Qed.

(** Case analysis on a comparison, with the order fact in the context. *)
Lemma lt_cases (a b : Q) :
  (Py.lt a b = true /\ a < b) \/ (Py.lt a b = false /\ b <= a).
Proof.
  destruct (Py.lt a b) eqn:E; [left | right]; split; trivial.
  - now apply lt_true.
  - now apply lt_false.
Qed.

Ltac case_lt a b :=
  let E := fresh "E" in
  let H := fresh "H" in
  destruct (lt_cases a b) as [[E H] | [E H]];
  unfold Py.gt in *; rewrite ?E in *.

Lemma min_cases (a b : Q) :
  (Py.min a b = b /\ b < a) \/ (Py.min a b = a /\ a <= b).
Proof. unfold Py.min. case_lt b a; auto. Qed.

Lemma max_cases (a b : Q) :
  (Py.max a b = b /\ a < b) \/ (Py.max a b = a /\ b <= a).
Proof. unfold Py.max, Py.gt. case_lt a b; auto. Qed.

(** The clamp stays between its bounds as soon as they are ordered, and
    leaves alone what is already between them. *)
Lemma clip_range (x lo hi : Q) :
  lo <= hi -> lo <= numpy_fast.clip x lo hi <= hi.
Proof.
  intros Hle. unfold numpy_fast.clip.
  destruct (min_cases hi x) as [[-> H1] | [-> H1]];
    destruct (max_cases lo x) as [[E2 H2] | [E2 H2]];
    destruct (max_cases lo hi) as [[E3 H3] | [E3 H3]];
    rewrite ?E2, ?E3; lra.
Qed.

Lemma clip_inside (x lo hi : Q) :
  lo < x -> x < hi -> numpy_fast.clip x lo hi = x.
Proof.
  intros H1 H2. unfold numpy_fast.clip.
  destruct (min_cases hi x) as [[-> H3] | [-> H3]]; [| lra].
  destruct (max_cases lo x) as [[-> H4] | [-> H4]]; [reflexivity | lra].
Qed.

Lemma clip_above (x lo hi : Q) :
  lo < hi -> hi <= x -> numpy_fast.clip x lo hi = hi.
Proof.
  intros H1 H2. unfold numpy_fast.clip.
  destruct (min_cases hi x) as [[-> H3] | [-> H3]]; [lra |].
  destruct (max_cases lo hi) as [[-> H4] | [-> H4]]; [reflexivity | lra].
Qed.

Lemma clip_abs (x lo hi : Q) :
  lo <= hi -> Qabs (numpy_fast.clip x lo hi) <= Qabs lo + Qabs hi.
Proof.
  intros Hle. pose proof (clip_range x lo hi Hle) as [H1 H2].
  apply Qabs_Qle_condition. split.
  - pose proof (Qle_Qabs (- lo)). rewrite Qabs_opp in H.
    pose proof (Qabs_nonneg hi). lra.
  - pose proof (Qle_Qabs hi). pose proof (Qabs_nonneg lo). lra.
Qed.

(** A name that no scope binds raises [NameError]. *)
Lemma load_unbound (sc : Py.scope) (n : string) :
  Py.assoc n (Py.locals sc) = None ->
  Py.assoc n (Py.globals sc) = None ->
  existsb (String.eqb n) Py.builtins = false ->
  Py.load_name sc n = Raise (NameError n).
Proof.
  intros H1 H2 H3. unfold Py.load_name. now rewrite H1, H2, H3.
Qed.

(* ===================================================================== *)
(** ** Construction of the controllers *)
(* ===================================================================== *)

Lemma pid_init_NameError (exp : Q -> Q) (k_p k_i k_d : pid.gain) (k_f : Q)
  (pos_limit neg_limit : option Q) (rate i_decay_tau derivative_period : Q) :
  pid.__init__ exp k_p k_i k_d k_f pos_limit neg_limit rate i_decay_tau
    derivative_period = Raise (NameError "np").
Proof. reflexivity. Qed.

(** C2.  [PIDController.__init__] raises [NameError] on the name [np] for
    every argument list: neither the function, nor [pid.py], nor the
    builtins bind it.  Hence [LatControlPID.__init__] raises the same error
    whatever the base class did before, and [LongControl.__init__] raises
    too: the same [NameError], or [ZeroDivisionError] from [1 / DT_CTRL]
    when [DT_CTRL] is zero. *)
Theorem C2_constructors_raise :
  (forall (exp : Q -> Q) (k_p k_i k_d : pid.gain) (k_f : Q)
          (pos_limit neg_limit : option Q) (rate i_decay_tau derivative_period : Q),
      pid.__init__ exp k_p k_i k_d k_f pos_limit neg_limit rate i_decay_tau
        derivative_period = Raise (NameError "np"))
  /\ (forall (LatControl : Type)
             (LatControl_init : car.CarParams -> latcontrol_pid.CarInterface -> LatControl)
             (exp : Q -> Q) (CP : car.CarParams) (CI : latcontrol_pid.CarInterface),
         latcontrol_pid.__init__ LatControl LatControl_init exp CP CI
         = Raise (NameError "np"))
  /\ (forall (DT_CTRL : Q) (exp : Q -> Q) (CP : car.CarParams),
         longcontrol.__init__ DT_CTRL exp CP
         = Raise (if Qeq_bool DT_CTRL 0 then ZeroDivisionError else NameError "np")
         /\ raises (longcontrol.__init__ DT_CTRL exp CP) = true).
Proof.
  split; [| split].
  - intros. apply pid_init_NameError.
  - intros. unfold latcontrol_pid.__init__. now rewrite pid_init_NameError.
  - intros. unfold longcontrol.__init__, Py.div.
    destruct (Qeq_bool DT_CTRL 0); simpl; auto.
Qed.

(* ===================================================================== *)
(** ** The longitudinal state machine *)
(* ===================================================================== *)

(** The transition table, written from its description: not active gives
    Off; Off gives Tracking when active; Tracking gives Stopping on the
    stopping condition; Stopping gives Starting on the starting condition;
    Starting gives Stopping on the stopping condition, else Tracking when
    the last commanded accel has reached [startAccel]; otherwise the state
    stays. *)
Definition transition_table (active : bool) (s : longcontrol.LongCtrlState.t)
  (stopping starting : bool) (accel_reached : bool) : longcontrol.LongCtrlState.t :=
  match active, s with
  | false, _ => longcontrol.LongCtrlState.off
  | true, longcontrol.LongCtrlState.off => longcontrol.LongCtrlState.pid
  | true, longcontrol.LongCtrlState.pid =>
      if stopping then longcontrol.LongCtrlState.stopping else s
  | true, longcontrol.LongCtrlState.stopping =>
      if starting then longcontrol.LongCtrlState.starting else s
  | true, longcontrol.LongCtrlState.starting =>
      if stopping then longcontrol.LongCtrlState.stopping
      else if accel_reached then longcontrol.LongCtrlState.pid else s
  end.

(** The local [long_control_state] that lines 30-50 compute is the entry of
    the transition table. *)
Lemma next_state_is_table (CP : car.CarParams) (active : bool)
  (s : longcontrol.LongCtrlState.t) (v_ego v_target_future v_target output_accel : Q)
  (brake_pressed cruise_standstill : bool) (radarState : option car.RadarState) :
  longcontrol.next_state CP active (longcontrol.LongCtrlState.value s) v_ego
    v_target_future v_target output_accel brake_pressed cruise_standstill radarState
  = longcontrol.LongCtrlState.value
      (transition_table active s
         (longcontrol.stopping_condition CP v_ego v_target_future v_target
            brake_pressed cruise_standstill)
         (longcontrol.starting_condition CP v_target_future v_target
            cruise_standstill radarState)
         (Py.ge output_accel (car.startAccel CP))).
Proof.
  unfold longcontrol.next_state.
  destruct active, s; simpl;
    repeat match goal with |- context [if ?b then _ else _] => destruct b end;
    reflexivity.
Qed.

(** From Off with [active] set, the state that lines 30-50 compute is
    Tracking, whatever the trajectory. *)
Lemma next_state_from_off (CP : car.CarParams)
  (v_ego v_target_future v_target output_accel : Q)
  (brake_pressed cruise_standstill : bool) (radarState : option car.RadarState) :
  longcontrol.next_state CP true
    (longcontrol.LongCtrlState.value longcontrol.LongCtrlState.off) v_ego
    v_target_future v_target output_accel brake_pressed cruise_standstill radarState
  = longcontrol.LongCtrlState.value longcontrol.LongCtrlState.pid.
Proof. reflexivity. Qed.

(** C3 (what the code does).  [long_control_state_trans] returns nothing:
    its last line reads the name [long_control_stat], which is bound neither
    in the function (the computed state is called [long_control_state]) nor
    in [longcontrol.py] nor among the builtins, so every call raises
    [NameError]. *)
Theorem C3_trans_raises_NameError :
  forall (CP : car.CarParams) (active : bool) (long_control_state : Py.value)
         (v_ego v_target_future v_target output_accel : Q)
         (brake_pressed cruise_standstill : bool) (radarState : option car.RadarState),
    longcontrol.long_control_state_trans CP active long_control_state v_ego
      v_target_future v_target output_accel brake_pressed cruise_standstill radarState
    = Raise (NameError "long_control_stat").
Proof.
  intros. unfold longcontrol.long_control_state_trans.
  apply load_unbound; reflexivity.
Qed.

Lemma trans_NameError (CP : car.CarParams) (active : bool) (s : Py.value)
  (v_ego v_target_future v_target output_accel : Q)
  (brake_pressed cruise_standstill : bool) (radarState : option car.RadarState) :
  longcontrol.long_control_state_trans CP active s v_ego v_target_future v_target
    output_accel brake_pressed cruise_standstill radarState
  = Raise (NameError "long_control_stat").
Proof. unfold longcontrol.long_control_state_trans. apply load_unbound; reflexivity. Qed.

(** No tick of the longitudinal controller completes: whenever the
    trajectory preprocessing gets through, the state machine raises. *)
Lemma longcontrol_update_raises (DT_CTRL : Q) (CONTROL_N : nat) (T_IDXS : list Q)
  (ntune_scc_get : string -> Q) (self : longcontrol.LongControl) (active : bool)
  (CS : car.CarState) (CP : car.CarParams) (long_plan : longcontrol.LongitudinalPlan)
  (accel_limits : Q * Q) (radarState : option car.RadarState) :
  raises (longcontrol.update DT_CTRL CONTROL_N T_IDXS ntune_scc_get self active CS CP
            long_plan accel_limits radarState) = true.
Proof.
  unfold longcontrol.update, longcontrol.update_with.
  destruct (longcontrol.plan_targets _ _ _ _) as [[[vt vtf] a] | e];
    [| reflexivity].
  cbv beta iota delta [bind].
  destruct (longcontrol.feedforward CS a) as [a' | e]; [| reflexivity].
  now rewrite trans_NameError.
Qed.

(* ===================================================================== *)
(** ** Calls of [PIDController.update] *)
(* ===================================================================== *)

Lemma bind_Ok {A B : Type} (m : res A) (k : A -> res B) (b : B) :
  bind m k = Ok b -> exists a, m = Ok a /\ k a = Ok b.
Proof. destruct m as [a | e]; simpl; intros H; [eauto | discriminate]. Qed.

Ltac bind_inv H :=
  let a := fresh "a" in
  let Ha := fresh "Ha" in
  apply bind_Ok in H; destruct H as (a & Ha & H).

(** A call with the three positional arguments and the keywords of
    [LatControlPID.update] runs the body on them. *)
Lemma call_update_lat (self : pid.PIDController)
  (setpoint measurement last_output feedforward speed deadzone : Q) :
  pid.call_update self
    [ Py.VFloat setpoint; Py.VFloat measurement; Py.VFloat last_output ]
    [ ("feedforward", Py.VFloat feedforward); ("speed", Py.VFloat speed);
      ("deadzone", Py.VFloat deadzone) ]%string
  = pid.update self setpoint measurement last_output speed feedforward deadzone.
Proof. reflexivity. Qed.

(** C5 (what the code does).  [PIDController.update] has no parameter
    [freeze_integrator]: the call that [LongControl.update] issues in the
    tracking state, two positional arguments and the keywords [speed],
    [deadzone], [feedforward] and [freeze_integrator], raises [TypeError]
    before the body runs, whatever the flag is. *)
Theorem C5_freeze_integrator_call_raises :
  forall (self : pid.PIDController) (v_pid v_ego deadzone a_target : Q)
         (freeze_integrator : bool),
    pid.call_update self
      [ Py.VFloat v_pid; Py.VFloat v_ego ]
      [ ("speed", Py.VFloat v_ego); ("deadzone", Py.VFloat deadzone);
        ("feedforward", Py.VFloat a_target);
        ("freeze_integrator", Py.VBool freeze_integrator) ]%string
    = Raise (TypeError "got an unexpected keyword argument 'freeze_integrator'").
Proof. reflexivity. Qed.

(** The tracking branch never produces a command. *)
Lemma track_raises (self : longcontrol.LongControl) (CS : car.CarState)
  (CP : car.CarParams) (v_target v_target_future a_target : Q) :
  raises (longcontrol.track self CS CP v_target v_target_future a_target) = true.
Proof.
  unfold longcontrol.track, longcontrol.track_with.
  destruct (numpy_fast.interp _ _ _); reflexivity.
Qed.

(** What a completed [update] has computed, step by step. *)
Lemma update_Ok_inv (self self' : pid.PIDController)
  (setpoint measurement last_output speed feedforward deadzone c : Q) :
  pid.update self setpoint measurement last_output speed feedforward deadzone
  = Ok (self', c) ->
  let error := pid.apply_deadzone (setpoint - measurement) deadzone in
  let i_bf := pid.i_unwind_rate self
              * (pid.p self + pid.i self + pid.f self - last_output) in
  exists kp ki d fc errs lo hi,
    numpy_fast.interp speed (fst (pid._k_p self)) (snd (pid._k_p self)) = Ok kp
    /\ numpy_fast.interp speed (fst (pid._k_i self)) (snd (pid._k_i self)) = Ok ki
    /\ pid.derivative (pid.set_speed self speed) error = Ok d
    /\ pid.neg_limit self = Some lo /\ pid.pos_limit self = Some hi
    /\ fc = numpy_fast.clip (feedforward * pid.k_f self) lo hi
    /\ pid.trim (pid._d_period self) (pid.errors self ++ [error]) = Ok errs
    /\ c = numpy_fast.clip
             (error * kp + (pid.i self + error * ki * pid.i_rate self - i_bf) + fc + d)
             lo hi
    /\ self' =
       {| pid._k_p := pid._k_p self; pid._k_i := pid._k_i self;
          pid._k_d := pid._k_d self; pid.k_f := pid.k_f self;
          pid.i_decay_factor := pid.i_decay_factor self;
          pid.pos_limit := pid.pos_limit self; pid.neg_limit := pid.neg_limit self;
          pid.i_unwind_rate := pid.i_unwind_rate self; pid.i_rate := pid.i_rate self;
          pid._d_period := pid._d_period self; pid.speed := Some speed;
          pid.p := error * kp;
          pid.i := pid.i_decay_factor self
                   * (pid.i self + error * ki * pid.i_rate self - i_bf);
          pid.f := fc; pid.control := c; pid.errors := errs |}.
Proof.
  intros H error i_bf. unfold pid.update in H.
  bind_inv H. rename a into kp, Ha into Hkp.
  bind_inv H. rename a into ki, Ha into Hki.
  bind_inv H. rename a into d, Ha into Hd.
  bind_inv H. rename a into fc, Ha into Hfc.
  bind_inv H. rename a into errs, Ha into Herrs.
  bind_inv H. rename a into c', Ha into Hc.
  injection H as <- <-.
  cbn in Hkp, Hki, Hfc, Herrs, Hc.
  unfold numpy_fast.clip_opt in Hfc, Hc.
  destruct (pid.neg_limit self) as [lo |] eqn:Elo; [| discriminate].
  destruct (pid.pos_limit self) as [hi |] eqn:Ehi; [| discriminate].
  injection Hfc as <-. injection Hc as <-.
  exists kp, ki, d, (numpy_fast.clip (feedforward * pid.k_f self) lo hi), errs, lo, hi.
  repeat split; try assumption; try reflexivity.
  rewrite <- Elo, <- Ehi. reflexivity.
Qed.

(* ===================================================================== *)
(** ** Indexing and interpolation *)
(* ===================================================================== *)

Lemma index_of_nat {A : Type} (l : list A) (k : nat) (x : A) :
  nth_error l k = Some x -> Py.index l (Z.of_nat k) = Ok x.
Proof.
  intros H. unfold Py.index.
  assert (Hk : (k < List.length l)%nat) by (apply nth_error_Some; congruence).
  assert (E1 : (Z.of_nat k <? 0)%Z = false) by (apply Z.ltb_ge; lia).
  assert (E2 : (Z.of_nat (List.length l) <=? Z.of_nat k)%Z = false)
    by (apply Z.leb_gt; lia).
  cbv zeta. rewrite E1. cbv iota. rewrite E1, E2. simpl.
  now rewrite Nat2Z.id, H.
Qed.

Lemma index_from_end {A : Type} (l : list A) (k : Z) :
  (1 <= k <= Z.of_nat (List.length l))%Z ->
  exists x, nth_error l (List.length l - Z.to_nat k) = Some x
            /\ Py.index l (- k) = Ok x.
Proof.
  intros Hk. unfold Py.index.
  assert (E1 : (- k <? 0)%Z = true) by (apply Z.ltb_lt; lia).
  assert (E2 : (Z.of_nat (List.length l) + - k <? 0)%Z = false)
    by (apply Z.ltb_ge; lia).
  assert (E3 : (Z.of_nat (List.length l) <=? Z.of_nat (List.length l) + - k)%Z = false)
    by (apply Z.leb_gt; lia).
  cbv zeta. rewrite E1. cbv iota. rewrite E2, E3. simpl.
  replace (Z.to_nat (Z.of_nat (List.length l) + - k))
    with (List.length l - Z.to_nat k)%nat by lia.
  destruct (nth_error l (List.length l - Z.to_nat k)) as [x |] eqn:E.
  - eauto.
  - apply nth_error_None in E. lia.
Qed.

Lemma nth_error_exists {A : Type} (l : list A) (k : nat) :
  (k < List.length l)%nat -> exists x, nth_error l k = Some x.
Proof.
  intros H. destruct (nth_error l k) eqn:E; [eauto |].
  apply nth_error_None in E. lia.
Qed.

(** Where the scan of [interp] stops: every breakpoint passed lies strictly
    below [xv], and the one it stops at, when there is one, does not. *)
Lemma interp_hi_spec (xv : Q) (xp : list Q) (k : nat) :
  exists j,
    numpy_fast.interp_hi xv xp k = (k + j)%nat
    /\ (j <= List.length xp)%nat
    /\ (forall m x, (m < j)%nat -> nth_error xp m = Some x -> x < xv)
    /\ (forall x, nth_error xp j = Some x -> xv <= x).
Proof.
  revert k. induction xp as [| x0 rest IH]; intros k; simpl.
  - exists 0%nat. split; [lia | split; [lia | split]].
    + intros m x Hm. lia.
    + intros x Hx. discriminate.
  - destruct (Py.gt xv x0) eqn:E.
    + destruct (IH (S k)) as (j & Hj & Hlen & Hlt & Hge).
      exists (S j). split; [lia | split; [lia | split]].
      * intros [| m] x Hm Hx; simpl in Hx.
        -- injection Hx as <-. now apply gt_true.
        -- apply (Hlt m); [lia | assumption].
      * intros x Hx. simpl in Hx. now apply Hge.
    + exists 0%nat. split; [lia | split; [lia | split]].
      * intros m x Hm. lia.
      * intros x Hx. simpl in Hx. injection Hx as <-. now apply gt_false.
Qed.

(** A table is usable when it has a breakpoint and a value for each
    breakpoint. *)
Definition table_ok (t : list Q * list Q) : Prop :=
  fst t <> [] /\ (List.length (fst t) <= List.length (snd t))%nat.

(** On a usable table [interp] returns, and what it returns is a value of
    the table or lies on the segment between two of them. *)
Lemma interp_total (xv : Q) (xp fp : list Q) :
  table_ok (xp, fp) ->
  exists r,
    numpy_fast.interp xv xp fp = Ok r
    /\ (In r fp
        \/ exists xl xh fl fh,
             In fl fp /\ In fh fp /\ xl < xv /\ xv <= xh
             /\ r = (xv - xl) * (fh - fl) / (xh - xl) + fl).
Proof.
  intros [Hne Hlen]. simpl in Hne, Hlen.
  assert (HN : (1 <= List.length xp)%nat)
    by (destruct xp; [congruence | simpl; lia]).
  unfold numpy_fast.interp.
  destruct (interp_hi_spec xv xp 0) as (j & -> & Hj & Hlt & Hge). simpl.
  destruct (Nat.eqb j (List.length xp)) eqn:EN.
  - apply Nat.eqb_eq in EN. subst j.
    destruct (nth_error_exists xp (List.length xp - 1)) as (xl & Hxl); [lia |].
    replace (Z.of_nat (List.length xp) - 1)%Z
      with (Z.of_nat (List.length xp - 1)) by lia.
    rewrite (index_of_nat _ _ _ Hxl). simpl.
    assert (Hgt : Py.gt xv xl = true)
      by (apply gt_true, (Hlt (List.length xp - 1)%nat); [lia | assumption]).
    rewrite Hgt.
    destruct (index_from_end fp 1) as (x & Hx & Hi); [lia |].
    change (Py.index fp (-1) = Ok x) in Hi. rewrite Hi.
    exists x. split; [reflexivity | left]. eapply nth_error_In, Hx.
  - apply Nat.eqb_neq in EN. simpl.
    destruct j as [| j'].
    + simpl. destruct (nth_error_exists fp 0) as (x & Hx); [lia |].
      pose proof (index_of_nat fp 0 x Hx) as Hi.
      change (Py.index fp 0 = Ok x) in Hi. rewrite Hi.
      exists x. split; [reflexivity | left]. eapply nth_error_In, Hx.
    + replace (Nat.eqb (S j') 0) with false by reflexivity.
      destruct (nth_error_exists xp j') as (xl & Hxl); [lia |].
      destruct (nth_error_exists xp (S j')) as (xh & Hxh); [lia |].
      destruct (nth_error_exists fp j') as (fl & Hfl); [lia |].
      destruct (nth_error_exists fp (S j')) as (fh & Hfh); [lia |].
      replace (Z.of_nat (S j') - 1)%Z with (Z.of_nat j') by lia.
      rewrite (index_of_nat _ _ _ Hxl), (index_of_nat _ _ _ Hfh),
        (index_of_nat _ _ _ Hfl), (index_of_nat _ _ _ Hxh).
      cbv beta iota delta [bind].
      assert (H1 : xl < xv) by (apply (Hlt j'); [lia | assumption]).
      assert (H2 : xv <= xh) by (apply Hge; assumption).
      unfold Py.div.
      destruct (Qeq_bool (xh - xl) 0) eqn:E0.
      * apply Qeq_bool_iff in E0. lra.
      * eexists. split; [reflexivity | right].
        exists xl, xh, fl, fh. repeat split; try assumption.
        -- eapply nth_error_In, Hfl.
        -- eapply nth_error_In, Hfh.
Qed.

(* ===================================================================== *)
(** ** Well-formed PID objects; [update] returns on them *)
(* ===================================================================== *)

(** The last [k] elements of a list. *)
Definition lastn {A : Type} (k : nat) (l : list A) : list A :=
  skipn (List.length l - k) l.

(** A PID object is well formed when its three gain tables are usable and
    its derivative period is at least one frame. *)
Definition well_formed (self : pid.PIDController) : Prop :=
  table_ok (pid._k_p self) /\ table_ok (pid._k_i self)
  /\ table_ok (pid._k_d self) /\ (1 <= pid._d_period self)%Z.

Lemma trim_spec (d_period : Z) (errs : list Q) :
  (0 <= d_period)%Z -> pid.trim d_period errs = Ok (lastn (Z.to_nat d_period) errs).
Proof.
  intros HD. unfold lastn. induction errs as [| e rest IH].
  - simpl. destruct (Z.gtb_spec 0 d_period); [lia | reflexivity].
  - cbn [pid.trim].
    destruct (Z.gtb_spec (Z.of_nat (List.length (e :: rest))) d_period) as [Hgt | Hle].
    + rewrite IH. f_equal. simpl List.length in *.
      replace (S (List.length rest) - Z.to_nat d_period)%nat
        with (S (List.length rest - Z.to_nat d_period)) by lia.
      reflexivity.
    + f_equal. simpl List.length in *.
      replace (S (List.length rest) - Z.to_nat d_period)%nat with 0%nat by lia.
      reflexivity.
Qed.

Lemma lastn_length {A : Type} (k : nat) (l : list A) :
  List.length (lastn k l) = Nat.min k (List.length l).
Proof. unfold lastn. rewrite length_skipn. lia. Qed.

Lemma gain_total (speed : Q) (t : list Q * list Q) :
  table_ok t -> exists k, numpy_fast.interp speed (fst t) (snd t) = Ok k.
Proof.
  intros H. destruct (interp_total speed (fst t) (snd t) H) as (k & Hk & _). eauto.
Qed.

(** The derivative term (lines 66-69) on a well-formed object whose speed
    is set: with fewer than [_d_period] errors in [self.errors] it is [0];
    otherwise it is the difference between [error] and the entry
    [_d_period] places from the end, over [_d_period], times the scheduled
    [k_d]. *)
Lemma derivative_spec (self : pid.PIDController) (v error : Q) :
  well_formed self -> pid.speed self = Some v ->
  let D := pid._d_period self in
  ((Z.of_nat (List.length (pid.errors self)) < D)%Z ->
     pid.derivative self error = Ok 0)
  /\ ((D <= Z.of_nat (List.length (pid.errors self)))%Z ->
      exists e_old kd,
        nth_error (pid.errors self) (List.length (pid.errors self) - Z.to_nat D)
        = Some e_old
        /\ numpy_fast.interp v (fst (pid._k_d self)) (snd (pid._k_d self)) = Ok kd
        /\ pid.derivative self error = Ok ((error - e_old) / inject_Z D * kd)).
Proof.
  intros (_ & _ & Hkd & HD) Hv D. unfold pid.derivative. fold D. split.
  - intros Hlt. destruct (Z.geb_spec (Z.of_nat (List.length (pid.errors self))) D);
      [lia | reflexivity].
  - intros Hge. destruct (Z.geb_spec (Z.of_nat (List.length (pid.errors self))) D);
      [| lia].
    destruct (index_from_end (pid.errors self) D) as (e_old & Hn & Hi); [lia |].
    destruct (gain_total v _ Hkd) as (kd & Hk).
    exists e_old, kd. split; [assumption | split; [assumption |]].
    rewrite Hi. cbv beta iota delta [bind]. unfold Py.div.
    destruct (Qeq_bool (inject_Z D) 0) eqn:E0.
    + apply Qeq_bool_iff in E0. unfold Qeq in E0. simpl in E0. lia.
    + unfold pid.k_d, pid.get_speed. rewrite Hv. cbv beta iota delta [bind].
      rewrite Hk. reflexivity.
Qed.

Lemma derivative_total (self : pid.PIDController) (v error : Q) :
  well_formed self -> pid.speed self = Some v ->
  exists d, pid.derivative self error = Ok d.
Proof.
  intros Hwf Hv. destruct (derivative_spec self v error Hwf Hv) as [H1 H2].
  destruct (Z.lt_ge_cases (Z.of_nat (List.length (pid.errors self)))
              (pid._d_period self)) as [Hlt | Hge].
  - rewrite (H1 Hlt). eauto.
  - destruct (H2 Hge) as (e_old & kd & _ & _ & ->). eauto.
Qed.

(** On a well-formed object with both limits set, [update] returns. *)
Lemma update_total (self : pid.PIDController)
  (setpoint measurement last_output speed feedforward deadzone : Q) :
  well_formed self ->
  (exists lo, pid.neg_limit self = Some lo) ->
  (exists hi, pid.pos_limit self = Some hi) ->
  exists self' c,
    pid.update self setpoint measurement last_output speed feedforward deadzone
    = Ok (self', c).
Proof.
  intros Hwf [lo Hlo] [hi Hhi].
  pose proof Hwf as (Hkp & Hki & Hkd & HD).
  destruct (gain_total speed _ Hkp) as (kp & Ekp).
  destruct (gain_total speed _ Hki) as (ki & Eki).
  destruct (derivative_total (pid.set_speed self speed) speed
              (pid.apply_deadzone (setpoint - measurement) deadzone))
    as (d & Ed); [exact Hwf | reflexivity |].
  unfold pid.update.
  unfold pid.k_p at 1. cbn [pid.get_speed pid.set_speed pid.speed pid._k_p bind].
  rewrite Ekp. cbv beta iota delta [bind].
  unfold pid.k_i at 1.
  cbn [pid.get_speed pid.set_speed pid.set_p pid.speed pid._k_i bind].
  rewrite Eki. cbv beta iota delta [bind].
  match goal with
  | |- context [pid.derivative ?s ?e] =>
      change (pid.derivative s e)
        with (pid.derivative (pid.set_speed self speed) e)
  end.
  rewrite Ed. cbv beta iota delta [bind].
  cbn [pid.neg_limit pid.pos_limit pid.set_f pid.set_i pid.set_p pid.set_speed
       pid.set_errors pid._d_period pid.errors].
  rewrite Hlo, Hhi. cbn [numpy_fast.clip_opt bind].
  rewrite trim_spec by lia. cbn [bind].
  eauto.
Qed.

(* ===================================================================== *)
(** ** A derivative period below one frame *)
(* ===================================================================== *)

Lemma raises_bind {A B : Type} (m : res A) (k : A -> res B) :
  (forall a, raises (k a) = true) -> raises (bind m k) = true.
Proof. intros H. destruct m as [a | e]; simpl; [apply H | reflexivity]. Qed.

Lemma trim_negative (d_period : Z) (errs : list Q) :
  (d_period < 0)%Z -> pid.trim d_period errs = Raise IndexError.
Proof.
  intros HD. induction errs as [| e rest IH].
  - simpl. destruct (Z.gtb_spec 0 d_period); [reflexivity | lia].
  - cbn [pid.trim].
    destruct (Z.gtb_spec (Z.of_nat (List.length (e :: rest))) d_period); [exact IH |].
    simpl List.length in *. lia.
Qed.

Lemma derivative_zero_period (self : pid.PIDController) (error : Q) :
  pid._d_period self = 0%Z -> raises (pid.derivative self error) = true.
Proof.
  intros HD. unfold pid.derivative. rewrite HD.
  destruct (Z.geb_spec (Z.of_nat (List.length (pid.errors self))) 0); [| lia].
  destruct (Py.index (pid.errors self) (- 0)); reflexivity.
Qed.

(** With a derivative period of zero or less, no call of [update] returns:
    at zero the derivative reads an empty history or divides by zero, below
    zero the trimming loop pops from an empty list. *)
Lemma update_raises_without_period (self : pid.PIDController)
  (setpoint measurement last_output speed feedforward deadzone : Q) :
  (pid._d_period self <= 0)%Z ->
  raises (pid.update self setpoint measurement last_output speed feedforward deadzone)
  = true.
Proof.
  intros HD. unfold pid.update.
  apply raises_bind. intros kp. apply raises_bind. intros ki.
  destruct (Z.eq_dec (pid._d_period self) 0) as [E0 | Hneg].
  - match goal with
    | |- context [pid.derivative ?s ?e] =>
        pose proof (derivative_zero_period s e E0) as Hd;
        destruct (pid.derivative s e)
    end; [discriminate Hd | reflexivity].
  - apply raises_bind. intros d. apply raises_bind. intros fc.
    cbn [pid._d_period pid.set_errors pid.set_i pid.set_f pid.set_p pid.set_speed
         pid.errors].
    rewrite trim_negative by lia. reflexivity.
Qed.

(* ===================================================================== *)
(** ** Sample objects *)
(* ===================================================================== *)

(** A PID object as [__init__] lays it out: gains scheduled over speed,
    limits [-1, 1], 100 Hz, a derivative period of two frames. *)
Definition sample_pid : pid.PIDController :=
  {| pid._k_p := ([0; 10], [1; 2]);
     pid._k_i := ([0], [1 # 2]);
     pid._k_d := ([0], [1]);
     pid.k_f := 1;
     pid.i_decay_factor := 99 # 100;
     pid.pos_limit := Some 1;
     pid.neg_limit := Some (- (1));
     pid.i_unwind_rate := 1 # 100;
     pid.i_rate := 1 # 100;
     pid._d_period := 2;
     pid.speed := None;
     pid.p := 0; pid.i := 0; pid.f := 0; pid.control := 0;
     pid.errors := [] |}.

Lemma sample_pid_well_formed : well_formed sample_pid.
Proof.
  unfold well_formed, table_ok. simpl.
  repeat split; try discriminate; lia.
Qed.

Ltac q_order := unfold Qle, Qlt; simpl; lia.

(** The body of [update] has no path that leaves the integral term alone:
    one call on the sample object with a non-zero error moves [i] off
    zero. *)
Lemma update_always_integrates :
  exists self' c,
    pid.update sample_pid 1 (1 # 2) 0 5 0 0 = Ok (self', c)
    /\ pid.i sample_pid = 0 /\ ~ pid.i self' == 0.
Proof.
  do 2 eexists. split; [vm_compute; reflexivity |].
  split; [reflexivity |]. vm_compute. intro Hc. discriminate Hc.
Qed.

(* ===================================================================== *)
(** ** Output saturation *)
(* ===================================================================== *)

(** C1.  With both limits set and [neg_limit <= 0 <= pos_limit], whatever
    [update] returns lies in [[neg_limit, pos_limit]] and is what it stored
    in [self.control]; and on a well-formed object [update] does return. *)
Theorem C1_update_within_limits :
  forall (self : pid.PIDController)
         (setpoint measurement last_output speed feedforward deadzone lo hi : Q),
    pid.neg_limit self = Some lo ->
    pid.pos_limit self = Some hi ->
    lo <= 0 -> 0 <= hi ->
    (well_formed self ->
       raises (pid.update self setpoint measurement last_output speed
                 feedforward deadzone) = false)
    /\ (forall self' c,
          pid.update self setpoint measurement last_output speed feedforward deadzone
          = Ok (self', c) ->
          lo <= c /\ c <= hi /\ pid.control self' = c).
Proof.
  intros self sp m L v ff dz lo hi Hlo Hhi Hneg Hpos. split.
  - intros Hwf.
    destruct (update_total self sp m L v ff dz Hwf) as (self' & c & ->); eauto.
  - intros self' c H.
    destruct (update_Ok_inv _ _ _ _ _ _ _ _ _ H)
      as (kp & ki & d & fc & errs & lo' & hi' & _ & _ & _ & Elo & Ehi & _ & _ & Hc & Hs).
    rewrite Hlo in Elo. rewrite Hhi in Ehi.
    injection Elo as <-. injection Ehi as <-.
    assert (Hle : lo <= hi) by lra.
    pose proof (clip_range
                  (pid.apply_deadzone (sp - m) dz * kp
                   + (pid.i self + pid.apply_deadzone (sp - m) dz * ki * pid.i_rate self
                      - pid.i_unwind_rate self
                        * (pid.p self + pid.i self + pid.f self - L))
                   + fc + d) lo hi Hle) as [H1 H2].
    rewrite <- Hc in H1, H2. subst self'. auto.
Qed.

Lemma C1_update_within_limits_witness :
  exists self' c,
    pid.update sample_pid 1 (1 # 2) 0 5 0 0 = Ok (self', c)
    /\ - (1) <= c /\ c <= 1 /\ pid.control self' = c.
Proof.
  eexists. eexists. split; [vm_compute; reflexivity |].
  eapply (proj2 (C1_update_within_limits sample_pid 1 (1 # 2) 0 5 0 0 (- (1)) 1
                   eq_refl eq_refl ltac:(q_order) ltac:(q_order))).
  vm_compute. reflexivity.
Defined.

(* ===================================================================== *)
(** ** Deadzone *)
(* ===================================================================== *)

Lemma apply_deadzone_inside (error deadzone : Q) :
  Qabs error <= deadzone -> pid.apply_deadzone error deadzone = 0.
Proof.
  intros H. apply Qabs_Qle_condition in H. destruct H as [H1 H2].
  unfold pid.apply_deadzone.
  case_lt deadzone error; [lra |].
  case_lt error (- deadzone); [lra | reflexivity].
Qed.

Lemma apply_deadzone_outside (error deadzone : Q) :
  0 <= deadzone -> deadzone < Qabs error ->
  Qabs (pid.apply_deadzone error deadzone) == Qabs error - deadzone
  /\ (0 < error -> 0 < pid.apply_deadzone error deadzone)
  /\ (error < 0 -> pid.apply_deadzone error deadzone < 0).
Proof.
  intros Hdz H. unfold pid.apply_deadzone.
  case_lt deadzone error.
  - rewrite (Qabs_pos error) by lra. rewrite (Qabs_pos (error - deadzone)) by lra.
    repeat split; try lra.
  - assert (Hneg : error < - deadzone).
    { revert H. apply Qabs_case; intros; lra. }
    case_lt error (- deadzone); [| lra].
    rewrite (Qabs_neg error) by lra. rewrite (Qabs_neg (error + deadzone)) by lra.
    repeat split; try lra.
Qed.

Lemma apply_deadzone_abs (error deadzone : Q) :
  0 <= deadzone -> Qabs (pid.apply_deadzone error deadzone) <= Qabs error.
Proof.
  intros Hdz.
  destruct (Qlt_le_dec deadzone (Qabs error)) as [H | H].
  - destruct (apply_deadzone_outside error deadzone Hdz H) as (-> & _). lra.
  - rewrite (apply_deadzone_inside error deadzone H). apply Qabs_nonneg.
Qed.

(** C10.  For a deadzone [>= 0]: when [|setpoint - measurement| <= deadzone]
    the error is [0] and [update] stores [p == 0], whichever the sign of the
    raw error; when [|setpoint - measurement| > deadzone] the error keeps
    the sign of the raw error and its magnitude is the raw magnitude less
    the deadzone.  In both cases [update] stores [p = error * k_p], and it
    returns on a well-formed object whose limits are set. *)
Theorem C10_deadzone :
  forall (setpoint measurement deadzone : Q),
    0 <= deadzone ->
    let raw := setpoint - measurement in
    let error := pid.apply_deadzone raw deadzone in
    (Qabs raw <= deadzone -> error = 0)
    /\ (deadzone < Qabs raw ->
        Qabs error == Qabs raw - deadzone
        /\ (0 < raw -> 0 < error) /\ (raw < 0 -> error < 0))
    /\ (forall (self self' : pid.PIDController) (last_output speed feedforward c : Q),
          pid.update self setpoint measurement last_output speed feedforward deadzone
          = Ok (self', c) ->
          (exists kp,
             numpy_fast.interp speed (fst (pid._k_p self)) (snd (pid._k_p self)) = Ok kp
             /\ pid.p self' = error * kp)
          /\ (Qabs raw <= deadzone -> pid.p self' == 0))
    /\ (forall (self : pid.PIDController) (last_output speed feedforward lo hi : Q),
          well_formed self ->
          pid.neg_limit self = Some lo -> pid.pos_limit self = Some hi ->
          raises (pid.update self setpoint measurement last_output speed
                    feedforward deadzone) = false).
Proof.
  intros sp m dz Hdz raw error. split; [| split; [| split]].
  - apply apply_deadzone_inside.
  - apply apply_deadzone_outside; assumption.
  - intros self self' L v ff c H.
    destruct (update_Ok_inv _ _ _ _ _ _ _ _ _ H)
      as (kp & ki & d & fc & errs & lo' & hi' & Hkp & _ & _ & _ & _ & _ & _ & _ & Hs).
    assert (Hp : pid.p self' = error * kp) by (subst self'; reflexivity).
    split.
    + exists kp. auto.
    + intros Hin. rewrite Hp. unfold error.
      rewrite (apply_deadzone_inside raw dz Hin). lra.
  - intros self L v ff lo hi Hwf Hlo Hhi.
    destruct (update_total self sp m L v ff dz Hwf) as (self' & c & ->); eauto.
Qed.

Lemma C10_deadzone_witness :
  pid.apply_deadzone ((1 # 2) - 1) (1 # 2) = 0
  /\ exists self' c,
       pid.update sample_pid (1 # 2) 1 0 5 0 (1 # 2) = Ok (self', c)
       /\ pid.p self' == 0.
Proof.
  pose proof (C10_deadzone (1 # 2) 1 (1 # 2) ltac:(q_order)) as (H1 & _ & H3 & _).
  split.
  - apply H1. vm_compute. discriminate.
  - eexists. eexists. split; [vm_compute; reflexivity |].
    eapply (proj2 (H3 sample_pid _ 0 5 0 _ ltac:(vm_compute; reflexivity))).
    vm_compute. discriminate.
Defined.

(* ===================================================================== *)
(** ** Sequences of ticks *)
(* ===================================================================== *)

(** The arguments of one call of [update]. *)
Record tick : Type := {
  t_setpoint : Q;
  t_measurement : Q;
  t_last_output : Q;
  t_speed : Q;
  t_feedforward : Q;
  t_deadzone : Q
}.

(** The error [update] computes on line 61 for these arguments. *)
Definition tick_error (t : tick) : Q :=
  pid.apply_deadzone (t_setpoint t - t_measurement t) (t_deadzone t).

Definition update_tick (self : pid.PIDController) (t : tick)
  : res (pid.PIDController * Q) :=
  pid.update self (t_setpoint t) (t_measurement t) (t_last_output t) (t_speed t)
    (t_feedforward t) (t_deadzone t).

(** [update] called once per tick, in order; the object after the last
    call. *)
Fixpoint run (self : pid.PIDController) (ts : list tick) : res pid.PIDController :=
  match ts with
  | [] => Ok self
  | t :: ts' => '(self', _) <- update_tick self t ;; run self' ts'
  end.

(** Two objects with the same tuning: everything [update] only reads. *)
Definition same_tuning (a b : pid.PIDController) : Prop :=
  pid._k_p a = pid._k_p b /\ pid._k_i a = pid._k_i b /\ pid._k_d a = pid._k_d b
  /\ pid.k_f a = pid.k_f b /\ pid.i_decay_factor a = pid.i_decay_factor b
  /\ pid.pos_limit a = pid.pos_limit b /\ pid.neg_limit a = pid.neg_limit b
  /\ pid.i_unwind_rate a = pid.i_unwind_rate b /\ pid.i_rate a = pid.i_rate b
  /\ pid._d_period a = pid._d_period b.

Lemma same_tuning_refl (a : pid.PIDController) : same_tuning a a.
Proof. unfold same_tuning. repeat split. Qed.

Lemma same_tuning_trans (a b c : pid.PIDController) :
  same_tuning a b -> same_tuning b c -> same_tuning a c.
Proof.
  unfold same_tuning.
  intros (A1 & A2 & A3 & A4 & A5 & A6 & A7 & A8 & A9 & A10)
         (B1 & B2 & B3 & B4 & B5 & B6 & B7 & B8 & B9 & B10).
  repeat split; congruence.
Qed.

Lemma same_tuning_well_formed (a b : pid.PIDController) :
  same_tuning a b -> well_formed a -> well_formed b.
Proof.
  unfold same_tuning, well_formed.
  intros (A1 & A2 & A3 & _ & _ & _ & _ & _ & _ & A10).
  now rewrite A1, A2, A3, A10.
Qed.

(** One call of [update] keeps the tuning and records the error of the tick
    at the end of a history cut to the last [_d_period] entries. *)
Lemma update_tick_history (self self' : pid.PIDController) (t : tick) (c : Q) :
  well_formed self ->
  update_tick self t = Ok (self', c) ->
  same_tuning self self'
  /\ pid.speed self' = Some (t_speed t)
  /\ pid.errors self'
     = lastn (Z.to_nat (pid._d_period self)) (pid.errors self ++ [tick_error t]).
Proof.
  intros Hwf H. unfold update_tick in H.
  destruct (update_Ok_inv _ _ _ _ _ _ _ _ _ H)
    as (kp & ki & d & fc & errs & lo & hi & _ & _ & _ & _ & _ & _ & Htrim & _ & Hs).
  destruct Hwf as (_ & _ & _ & HD).
  rewrite trim_spec in Htrim by lia. injection Htrim as <-.
  subst self'. split; [| split]; try reflexivity.
  unfold same_tuning. cbn. repeat split.
Qed.

Lemma lastn_app_lastn {A : Type} (k : nat) (l r : list A) :
  lastn k (lastn k l ++ r) = lastn k (l ++ r).
Proof.
  unfold lastn.
  rewrite length_app, length_skipn, length_app.
  replace (skipn (List.length l - k) l ++ r)
    with (skipn (List.length l - k) (l ++ r)).
  - rewrite skipn_skipn. f_equal. lia.
  - rewrite skipn_app.
    replace (List.length l - k - List.length l)%nat with 0%nat by lia.
    reflexivity.
Qed.

Lemma lastn_all {A : Type} (k : nat) (l : list A) :
  (List.length l <= k)%nat -> lastn k l = l.
Proof.
  intros H. unfold lastn.
  replace (List.length l - k)%nat with 0%nat by lia. reflexivity.
Qed.

(** After any number of ticks, the history is the last [_d_period] errors,
    oldest first (the history at the start counted in, when it is no longer
    than the period). *)
Lemma run_history (ts : list tick) :
  forall (self self' : pid.PIDController),
    well_formed self ->
    (Z.of_nat (List.length (pid.errors self)) <= pid._d_period self)%Z ->
    run self ts = Ok self' ->
    same_tuning self self'
    /\ pid.errors self'
       = lastn (Z.to_nat (pid._d_period self)) (pid.errors self ++ map tick_error ts).
Proof.
  induction ts as [| t ts IH]; intros self self' Hwf Hlen H; simpl in H.
  - injection H as <-. split; [apply same_tuning_refl |].
    simpl. rewrite app_nil_r. symmetry. apply lastn_all. lia.
  - bind_inv H. destruct a as [s1 c].
    destruct (update_tick_history self s1 t c Hwf Ha) as (Ht & _ & He).
    assert (HD : pid._d_period s1 = pid._d_period self)
      by (symmetry; apply Ht).
    assert (Hwf1 : well_formed s1) by (eapply same_tuning_well_formed; eauto).
    assert (Hlen1 : (Z.of_nat (List.length (pid.errors s1)) <= pid._d_period s1)%Z).
    { rewrite He, lastn_length, HD. destruct Hwf as (_ & _ & _ & ?). lia. }
    destruct (IH s1 self' Hwf1 Hlen1 H) as (Ht' & He').
    split; [eapply same_tuning_trans; eauto |].
    rewrite He', HD, He, lastn_app_lastn, <- app_assoc. reflexivity.
Qed.

(** The derivative term ignores what [update] has stored in [p], [i] and
    [f] by the time it is computed. *)
Lemma derivative_after_stores (self : pid.PIDController) (a b c error : Q) :
  pid.derivative (pid.set_f (pid.set_i (pid.set_p self a) b) c) error
  = pid.derivative self error.
Proof. reflexivity. Qed.

(* ===================================================================== *)
(** ** Fixed-lag derivative *)
(* ===================================================================== *)

(** C9.  Take a well-formed object with both limits set whose history is
    empty (as [reset] leaves it) and call [update] on it [n] times.  The
    next call of [update], with error [error] at speed [v], returns, and the
    command it returns and stores is the clamp of [p + i + f + d], [i]
    being the integral term before its decay, where the derivative term
    [d], the one the helper [derivative] yields on the object at that
    speed, is [0] as long as [n] is below [D = _d_period]; from then on it
    is [k_d * (error - e_old) / D], where [e_old] is the error of the call
    made exactly [D] calls earlier and [k_d] the gain scheduled at [v]. *)
Theorem C9_derivative_fixed_lag :
  forall (self self_n : pid.PIDController) (ts : list tick) (t : tick) (lo hi : Q),
    well_formed self ->
    pid.errors self = [] ->
    pid.neg_limit self = Some lo -> pid.pos_limit self = Some hi ->
    run self ts = Ok self_n ->
    let D := pid._d_period self in
    let n := List.length ts in
    let error := tick_error t in
    let v := t_speed t in
    exists self' c kp ki kd d,
      update_tick self_n t = Ok (self', c)
      /\ List.length (pid.errors self_n) = Nat.min (Z.to_nat D) n
      /\ numpy_fast.interp v (fst (pid._k_p self)) (snd (pid._k_p self)) = Ok kp
      /\ numpy_fast.interp v (fst (pid._k_i self)) (snd (pid._k_i self)) = Ok ki
      /\ numpy_fast.interp v (fst (pid._k_d self)) (snd (pid._k_d self)) = Ok kd
      /\ pid.derivative (pid.set_speed self_n v) error = Ok d
      /\ pid.p self' = error * kp
      /\ c = numpy_fast.clip
               (pid.p self'
                + (pid.i self_n + error * ki * pid.i_rate self
                   - pid.i_unwind_rate self
                     * (pid.p self_n + pid.i self_n + pid.f self_n - t_last_output t))
                + pid.f self' + d)
               lo hi
      /\ pid.control self' = c
      /\ ((Z.of_nat n < D)%Z -> d = 0)
      /\ ((D <= Z.of_nat n)%Z ->
          exists e_old,
            nth_error (map tick_error ts) (n - Z.to_nat D) = Some e_old
            /\ d == kd * (error - e_old) / inject_Z D).
Proof.
  intros self self_n ts t lo hi Hwf Hempty Hlo Hhi Hrun D n error v.
  assert (Hlen0 : (Z.of_nat (List.length (pid.errors self)) <= pid._d_period self)%Z).
  { rewrite Hempty. simpl. destruct Hwf as (_ & _ & _ & ?). lia. }
  destruct (run_history ts self self_n Hwf Hlen0 Hrun) as (Ht & He).
  rewrite Hempty in He. simpl in He. fold D in He.
  pose proof Ht as (T1 & T2 & T3 & _ & _ & T6 & T7 & T8 & T9 & T10).
  assert (Hwf_n : well_formed self_n) by (eapply same_tuning_well_formed; eauto).
  assert (Hwfv : well_formed (pid.set_speed self_n v)).
  { apply (same_tuning_well_formed self_n); [unfold same_tuning; cbn; repeat split |].
    exact Hwf_n. }
  assert (Hlen : List.length (pid.errors self_n) = Nat.min (Z.to_nat D) n).
  { rewrite He, lastn_length, length_map. reflexivity. }
  destruct (update_total self_n (t_setpoint t) (t_measurement t) (t_last_output t)
              (t_speed t) (t_feedforward t) (t_deadzone t) Hwf_n)
    as (self' & c & Hup).
  { exists lo. congruence. }
  { exists hi. congruence. }
  destruct (update_Ok_inv _ _ _ _ _ _ _ _ _ Hup)
    as (kp & ki & d & fc & errs & lo' & hi' & Hkp & Hki & Hd & Hlo' & Hhi' & Hfc & _
        & Hc & Hs).
  assert (lo' = lo) by congruence. assert (hi' = hi) by congruence. subst lo' hi'.
  change (pid.apply_deadzone (t_setpoint t - t_measurement t) (t_deadzone t))
    with error in Hd, Hc, Hs.
  change (t_speed t) with v in Hkp, Hki, Hd, Hs.
  destruct (derivative_spec (pid.set_speed self_n v) v error Hwfv eq_refl) as [H1 H2].
  cbn [pid._d_period pid.errors pid._k_d pid.set_speed] in H1, H2.
  rewrite <- T10 in H1, H2. fold D in H1, H2.
  assert (Hkd : exists kd,
             numpy_fast.interp v (fst (pid._k_d self)) (snd (pid._k_d self)) = Ok kd).
  { apply gain_total. apply Hwf. }
  destruct Hkd as (kd & Hkd).
  exists self', c, kp, ki, kd, d.
  split; [exact Hup |]. split; [exact Hlen |].
  split; [rewrite T1; exact Hkp |]. split; [rewrite T2; exact Hki |].
  split; [exact Hkd |]. split; [exact Hd |].
  assert (Hp : pid.p self' = error * kp) by (rewrite Hs; reflexivity).
  assert (Hf : pid.f self' = fc) by (rewrite Hs; reflexivity).
  split; [exact Hp |].
  split; [rewrite Hp, Hf, T8, T9; exact Hc |].
  split; [rewrite Hs; reflexivity |].
  split.
  - intros Hn. rewrite H1 in Hd by lia. injection Hd as <-. reflexivity.
  - intros Hn. destruct H2 as (e_old & kd' & Hold & Hk' & Hd'); [lia |].
    rewrite <- T3 in Hk'. assert (kd' = kd) by congruence. subst kd'.
    exists e_old. split.
    + rewrite He in Hold. unfold lastn in Hold.
      rewrite nth_error_skipn, length_skipn, length_map in Hold.
      fold n in Hold. rewrite <- Hold. f_equal. lia.
    + rewrite Hd' in Hd. injection Hd as <-. unfold Qdiv. ring.
Qed.

(** Three ticks at speed 5 with errors 1/10, 2/10, 3/10. *)
Definition sample_ticks : list tick :=
  map (fun sp => {| t_setpoint := sp; t_measurement := 0; t_last_output := 0;
                    t_speed := 5; t_feedforward := 0; t_deadzone := 0 |})
      [1 # 10; 2 # 10; 3 # 10].

(** The tick after them, with error 4/10. *)
Definition next_tick : tick :=
  {| t_setpoint := 4 # 10; t_measurement := 0; t_last_output := 0;
     t_speed := 5; t_feedforward := 0; t_deadzone := 0 |}.

Ltac sample_wf :=
  unfold well_formed, table_ok; simpl; repeat split; try discriminate; lia.

Lemma C9_derivative_fixed_lag_witness :
  exists self_n self' c d,
    run sample_pid sample_ticks = Ok self_n
    /\ update_tick self_n next_tick = Ok (self', c)
    /\ d == 1 * ((4 # 10) - (2 # 10)) / 2
    /\ c = numpy_fast.clip
             (pid.p self'
              + (pid.i self_n + (4 # 10) * (1 # 2) * (1 # 100)
                 - (1 # 100) * (pid.p self_n + pid.i self_n + pid.f self_n - 0))
              + pid.f self' + d)
             (- (1)) 1.
Proof.
  assert (Hwf : well_formed sample_pid) by sample_wf.
  destruct (run sample_pid sample_ticks) as [s | e] eqn:Hrun;
    [| vm_compute in Hrun; discriminate Hrun].
  exists s.
  pose proof (C9_derivative_fixed_lag sample_pid s sample_ticks next_tick (- (1)) 1
                Hwf eq_refl eq_refl eq_refl Hrun) as H0.
  cbv zeta in H0.
  destruct H0 as (s' & c & kp & ki & kd & d & Hup & _ & _ & Hki & Hkd & _ & _ & Hc & _
                  & _ & H).
  destruct H as (e_old & Hold & Hq);
    [vm_compute; intro Hx; discriminate Hx |].
  exists s', c, d. split; [reflexivity | split; [exact Hup |]].
  vm_compute in Hold. vm_compute in Hki. vm_compute in Hkd.
  injection Hold as <-. injection Hki as <-. injection Hkd as <-.
  split; [exact Hq | exact Hc].
Defined.

(* ===================================================================== *)
(** ** Lateral controller *)
(* ===================================================================== *)

(** C8.  Below the minimum steer speed, or when not active,
    [LatControlPID.update] returns the command [0], marks the diagnostic
    record inactive and resets the PID core: [p], [i], [f] and [control] are
    [0] and the error history is empty. *)
Theorem C8_inactive_resets :
  forall (LatControl : Type) (LatControl_reset : LatControl -> LatControl)
         (LatControl_check_saturation :
            LatControl -> bool -> car.CarState -> LatControl * bool)
         (MIN_STEER_SPEED : Q) (get_steer_max : car.CarParams -> Q -> Q)
         (degrees : Q -> Q)
         (self : latcontrol_pid.LatControlPID LatControl) (active : bool)
         (CS : car.CarState) (CP : car.CarParams) (CI : latcontrol_pid.CarInterface)
         (VM : latcontrol_pid.VehicleModel) (params : latcontrol_pid.LiveParameters)
         (desired_curvature desired_curvature_rate roll : Q),
    car.vEgo CS < MIN_STEER_SPEED \/ active = false ->
    exists self' angle_steers_des pid_log,
      latcontrol_pid.update LatControl LatControl_reset LatControl_check_saturation
        MIN_STEER_SPEED get_steer_max degrees self active CS CP CI VM params
        desired_curvature desired_curvature_rate roll
      = Ok (self', (0, angle_steers_des, pid_log))
      /\ latcontrol_pid.log_active pid_log = false
      /\ pid.p (latcontrol_pid.pid LatControl self') = 0
      /\ pid.i (latcontrol_pid.pid LatControl self') = 0
      /\ pid.f (latcontrol_pid.pid LatControl self') = 0
      /\ pid.control (latcontrol_pid.pid LatControl self') = 0
      /\ pid.errors (latcontrol_pid.pid LatControl self') = [].
Proof.
  intros LatControl LatControl_reset LatControl_check_saturation MIN_STEER_SPEED
    get_steer_max degrees self active CS CP CI VM params dc dcr roll H.
  assert (Hc : Py.lt (car.vEgo CS) MIN_STEER_SPEED || negb active = true).
  { destruct H as [H | ->].
    - apply lt_true in H. rewrite H. reflexivity.
    - apply orb_true_r. }
  unfold latcontrol_pid.update. rewrite Hc. cbn.
  do 3 eexists. repeat split.
Qed.

(** A lateral controller as [__init__] lays it out around [sample_pid],
    with a base class that keeps no state, and the collaborators of one
    tick at 10 m/s. *)
Definition sample_lat : latcontrol_pid.LatControlPID unit :=
  {| latcontrol_pid.base := tt;
     latcontrol_pid.pid := sample_pid;
     latcontrol_pid.new_kf_tuned := false;
     latcontrol_pid.get_steer_feedforward := fun _ _ => 0;
     latcontrol_pid.output_steer_last := 0;
     latcontrol_pid.ouptut_steer_last := None |}.

Definition sample_CI : latcontrol_pid.CarInterface :=
  {| latcontrol_pid.get_steer_feedforward_function := fun _ _ => 0;
     latcontrol_pid.calc_last_outputs := fun x => x |}.

Definition sample_VM : latcontrol_pid.VehicleModel :=
  {| latcontrol_pid.get_steer_from_curvature := fun curvature _ _ => curvature |}.

Definition sample_params : latcontrol_pid.LiveParameters :=
  {| latcontrol_pid.angleOffsetDeg := 0 |}.

Definition sample_CS : car.CarState :=
  {| car.vEgo := 10; car.steeringAngleDeg := 0; car.steeringRateDeg := 0;
     car.brakePressed := false; car.gasPressed := false; car.standstill := false;
     car.cruiseState := {| car.cruise_standstill := false |} |}.

Definition sample_CP : car.CarParams :=
  {| car.lateralTuning_pid :=
       {| car.lat_kpBP := [0; 10]; car.lat_kpV := [1; 2];
          car.lat_kiBP := [0]; car.lat_kiV := [1 # 2];
          car.lat_kdBP := [0]; car.lat_kdV := [1];
          car.kf := 1; car.newKfTuned := false |};
     car.longitudinalTuning :=
       {| car.kpBP := [0]; car.kpV := [1]; car.kiBP := [0]; car.kiV := [1 # 10];
          car.kdBP := [0]; car.kdV := [0];
          car.deadzoneBP := [0]; car.deadzoneV := [0] |};
     car.vEgoStopping := 1 # 2; car.vEgoStarting := 1 # 2;
     car.startAccel := 1; car.stopAccel := - (2);
     car.stoppingDecelRate := 8 # 10; car.startingAccelRate := 32 # 10;
     car.stoppingControl := true |}.

(** [update] of the lateral controller with the sample collaborators: the
    minimum steer speed is 0.3 m/s, the steering limit is 1, and an angle in
    radians is about 57 times as many degrees. *)
Definition sample_lat_update (self : latcontrol_pid.LatControlPID unit)
  (active : bool) (desired_curvature : Q)
  : res (latcontrol_pid.LatControlPID unit
         * (Q * Q * latcontrol_pid.LateralPIDState)) :=
  latcontrol_pid.update unit (fun b => b) (fun b _ _ => (b, false))
    (3 # 10) (fun _ _ => 1) (fun x => x * 57)
    self active sample_CS sample_CP sample_CI sample_VM sample_params
    desired_curvature 0 0.

Lemma C8_inactive_resets_witness :
  exists self' angle_steers_des pid_log,
    sample_lat_update sample_lat false (- (1 # 114))
    = Ok (self', (0, angle_steers_des, pid_log))
    /\ latcontrol_pid.log_active pid_log = false
    /\ pid.p (latcontrol_pid.pid unit self') = 0
    /\ pid.i (latcontrol_pid.pid unit self') = 0
    /\ pid.f (latcontrol_pid.pid unit self') = 0
    /\ pid.control (latcontrol_pid.pid unit self') = 0
    /\ pid.errors (latcontrol_pid.pid unit self') = [].
Proof.
  exact (C8_inactive_resets unit (fun b => b) (fun b _ _ => (b, false))
           (3 # 10) (fun _ _ => 1) (fun x => x * 57)
           sample_lat false sample_CS sample_CP sample_CI sample_VM sample_params
           (- (1 # 114)) 0 0 (or_intror eq_refl)).
Defined.

(** No call of [update] touches [output_steer_last]: the attribute read on
    line 49 keeps the value [__init__] gave it, and the command goes into
    [ouptut_steer_last]. *)
Lemma lat_update_keeps_output_steer_last :
  forall (LatControl : Type) (LatControl_reset : LatControl -> LatControl)
         (LatControl_check_saturation :
            LatControl -> bool -> car.CarState -> LatControl * bool)
         (MIN_STEER_SPEED : Q) (get_steer_max : car.CarParams -> Q -> Q)
         (degrees : Q -> Q)
         (self self' : latcontrol_pid.LatControlPID LatControl) (active : bool)
         (CS : car.CarState) (CP : car.CarParams) (CI : latcontrol_pid.CarInterface)
         (VM : latcontrol_pid.VehicleModel) (params : latcontrol_pid.LiveParameters)
         (desired_curvature desired_curvature_rate roll : Q)
         (output_steer angle_steers_des : Q) (pid_log : latcontrol_pid.LateralPIDState),
    latcontrol_pid.update LatControl LatControl_reset LatControl_check_saturation
      MIN_STEER_SPEED get_steer_max degrees self active CS CP CI VM params
      desired_curvature desired_curvature_rate roll
    = Ok (self', (output_steer, angle_steers_des, pid_log)) ->
    latcontrol_pid.output_steer_last LatControl self'
    = latcontrol_pid.output_steer_last LatControl self
    /\ latcontrol_pid.ouptut_steer_last LatControl self' = Some output_steer.
Proof.
  intros LatControl LatControl_reset LatControl_check_saturation MIN_STEER_SPEED
    get_steer_max degrees self self' active CS CP CI VM params dc dcr roll
    out angle pid_log H.
  unfold latcontrol_pid.update in H.
  bind_inv H. destruct a as [[s1 out1] log1].
  injection H as <- <- _ _.
  cbn [latcontrol_pid.set_ouptut_steer_last latcontrol_pid.output_steer_last
       latcontrol_pid.ouptut_steer_last].
  split; [| reflexivity].
  destruct (Py.lt (car.vEgo CS) MIN_STEER_SPEED || negb active).
  - injection Ha as <- _ _. reflexivity.
  - bind_inv Ha. destruct a as [c0 out0].
    destruct (LatControl_check_saturation _ _ _) as [b sat].
    injection Ha as <- _ _. reflexivity.
Qed.

(** C4 (what the code does).  One active tick from the initial object
    commands the steering output [1], and stores it under the name
    [ouptut_steer_last]; the attribute [output_steer_last] that the next
    tick reads is still the initial [0], so the next tick feeds
    [calc_last_outputs(0)] into the anti-windup bleed and not the output
    that was applied. *)
Theorem C4_last_output_is_stale :
  exists self1 angle_steers_des pid_log,
    sample_lat_update sample_lat true (- (1 # 114))
    = Ok (self1, (1, angle_steers_des, pid_log))
    /\ latcontrol_pid.ouptut_steer_last unit self1 = Some 1
    /\ latcontrol_pid.output_steer_last unit self1 = 0
    /\ latcontrol_pid.last_output_fed unit self1 sample_CI = 0
    /\ latcontrol_pid.last_output_fed unit self1 sample_CI
       <> latcontrol_pid.calc_last_outputs sample_CI 1.
Proof.
  do 3 eexists. split; [vm_compute; reflexivity |].
  repeat split. vm_compute. intro Hc. discriminate Hc.
Qed.

(* ===================================================================== *)
(** ** Range of an interpolated value *)
(* ===================================================================== *)

Lemma segment_range (xv xl xh fl fh m M : Q) :
  xl < xv -> xv <= xh -> m <= fl <= M -> m <= fh <= M ->
  m <= (xv - xl) * (fh - fl) / (xh - xl) + fl <= M.
Proof.
  intros H1 H2 [Hl1 Hl2] [Hh1 Hh2].
  assert (Hden : 0 < xh - xl) by lra.
  assert (E : (xv - xl) * (fh - fl) / (xh - xl) + fl
              == ((xv - xl) * fh + (xh - xv) * fl) / (xh - xl))
    by (field; lra).
  rewrite E. split.
  - apply Qle_shift_div_l; [assumption |]. nra.
  - apply Qle_shift_div_r; [assumption |]. nra.
Qed.

(** An interpolated value lies between the least and the greatest value of
    the table. *)
Lemma interp_range (xv : Q) (xp fp : list Q) (m M r : Q) :
  table_ok (xp, fp) ->
  (forall x, In x fp -> m <= x <= M) ->
  numpy_fast.interp xv xp fp = Ok r ->
  m <= r <= M.
Proof.
  intros Hok Hfp Hr.
  destruct (interp_total xv xp fp Hok) as (r' & Hr' & Hcase).
  rewrite Hr in Hr'. injection Hr' as <-.
  destruct Hcase as [Hin | (xl & xh & fl & fh & Hfl & Hfh & H1 & H2 & ->)].
  - now apply Hfp.
  - apply segment_range; auto.
Qed.

(* ===================================================================== *)
(** ** Longitudinal feedforward *)
(* ===================================================================== *)

(** The boost factor of line 95 lies between 1 and 1.2. *)
Lemma boost_factor (v : Q) :
  exists k, numpy_fast.interp v [0; 3] [12 # 10; 1] = Ok k /\ 1 <= k <= 12 # 10.
Proof.
  assert (Hok : table_ok ([0; 3], [12 # 10; 1]))
    by (unfold table_ok; simpl; split; [discriminate | lia]).
  destruct (interp_total v _ _ Hok) as (k & Hk & _).
  exists k. split; [assumption |].
  apply (interp_range v [0; 3] [12 # 10; 1]); try assumption.
  intros x [<- | [<- | []]]; split; q_order.
Qed.

Lemma feedforward_spec (CS : car.CarState) (a_target : Q) :
  exists k,
    1 <= k <= 12 # 10
    /\ longcontrol.feedforward CS a_target
       = Ok (numpy_fast.clip (if Py.gt a_target 0 then a_target * k else a_target)
               longcontrol.ACCEL_MIN_ISO longcontrol.ACCEL_MAX_ISO).
Proof.
  destruct (boost_factor (car.vEgo CS)) as (k & Hk & Hrange).
  exists k. split; [assumption |].
  unfold longcontrol.feedforward. rewrite Hk.
  destruct (Py.gt a_target 0); reflexivity.
Qed.

Lemma a_target_at_total (CONTROL_N : nat) (T_IDXS : list Q)
  (long_plan : longcontrol.LongitudinalPlan) (delay : Q) :
  List.length (longcontrol.speeds long_plan) = CONTROL_N ->
  T_IDXS <> [] -> (1 <= CONTROL_N)%nat ->
  longcontrol.accels long_plan <> [] -> ~ delay == 0 ->
  exists v s0 a0,
    numpy_fast.interp delay (firstn CONTROL_N T_IDXS) (longcontrol.speeds long_plan)
    = Ok v
    /\ nth_error (longcontrol.speeds long_plan) 0 = Some s0
    /\ nth_error (longcontrol.accels long_plan) 0 = Some a0
    /\ longcontrol.a_target_at CONTROL_N T_IDXS long_plan delay
       = Ok (2 * (v - s0) / delay - a0).
Proof.
  intros Hlen HT HN Hacc Hdelay.
  assert (Hok : table_ok (firstn CONTROL_N T_IDXS, longcontrol.speeds long_plan)).
  { unfold table_ok. simpl. split.
    - destruct T_IDXS; [congruence |]. destruct CONTROL_N; [lia | discriminate].
    - rewrite length_firstn. lia. }
  destruct (interp_total delay _ _ Hok) as (v & Hv & _).
  destruct (nth_error_exists (longcontrol.speeds long_plan) 0) as (s0 & Hs0); [lia |].
  destruct (nth_error_exists (longcontrol.accels long_plan) 0) as (a0 & Ha0).
  { destruct (longcontrol.accels long_plan); [congruence | simpl; lia]. }
  exists v, s0, a0. repeat (split; [assumption |]).
  unfold longcontrol.a_target_at. rewrite Hv. cbv beta iota delta [bind].
  pose proof (index_of_nat _ 0 _ Hs0) as Hi.
  change (Py.index (longcontrol.speeds long_plan) 0 = Ok s0) in Hi. rewrite Hi.
  pose proof (index_of_nat _ 0 _ Ha0) as Hj.
  change (Py.index (longcontrol.accels long_plan) 0 = Ok a0) in Hj.
  cbv beta iota delta [bind]. unfold Py.div.
  destruct (Qeq_bool delay 0) eqn:E0.
  - apply Qeq_bool_iff in E0. contradiction.
  - rewrite Hj. reflexivity.
Qed.

(** What it means that a tick of [update] passes [a_ff] to the PID core as
    its feedforward: whenever the state machine answers the tracking state,
    the gas is not pressed and the deadzone table yields [deadzone], the
    tick is the call of line 123, on the PID core with its limits set to
    [accel_limits], with the setpoint [v_target], the measurement and speed
    [CS.vEgo], that deadzone and the keyword [feedforward] bound to [a_ff],
    followed by a continuation that is the same whatever the method does. *)
Definition feedforward_passed (DT_CTRL : Q) (CONTROL_N : nat) (T_IDXS : list Q)
  (ntune_scc_get : string -> Q) (trans : longcontrol.trans_function)
  (self : longcontrol.LongControl) (active : bool) (CS : car.CarState)
  (CP : car.CarParams) (long_plan : longcontrol.LongitudinalPlan)
  (accel_limits : Q * Q) (radarState : option car.RadarState)
  (v_target v_target_future a_ff : Q) : Prop :=
  forall deadzone : Q,
    trans CP active (longcontrol.long_control_state self) (car.vEgo CS)
      v_target_future v_target (longcontrol.last_output_accel self)
      (car.brakePressed CS) (car.cruise_standstill (car.cruiseState CS)) radarState
    = Ok (longcontrol.LongCtrlState.value longcontrol.LongCtrlState.pid) ->
    car.gasPressed CS = false ->
    numpy_fast.interp (car.vEgo CS)
      (car.deadzoneBP (car.longitudinalTuning CP))
      (car.deadzoneV (car.longitudinalTuning CP)) = Ok deadzone ->
    let prevent_overshoot :=
      negb (car.stoppingControl CP) && Py.lt (car.vEgo CS) (15 # 10)
      && Py.lt v_target_future (7 # 10) && Py.lt v_target_future v_target in
    exists k : pid.PIDController * Q -> res (longcontrol.LongControl * Q),
      forall call : longcontrol.pid_method,
        longcontrol.update_with DT_CTRL CONTROL_N T_IDXS ntune_scc_get trans call
          self active CS CP long_plan accel_limits radarState
        = bind
            (call
               (pid.set_pos_limit
                  (pid.set_neg_limit (longcontrol.pid self)
                     (Some (fst accel_limits)))
                  (Some (snd accel_limits)))
               [ Py.VFloat v_target; Py.VFloat (car.vEgo CS) ]
               [ ("speed", Py.VFloat (car.vEgo CS));
                 ("deadzone", Py.VFloat deadzone);
                 ("feedforward", Py.VFloat a_ff);
                 ("freeze_integrator", Py.VBool prevent_overshoot) ]%string)
            k.

(** [update] from the targets on: what is left of a tick once the
    preprocessing of lines 75-98 has returned. *)
Lemma update_with_targets (DT_CTRL : Q) (CONTROL_N : nat) (T_IDXS : list Q)
  (ntune_scc_get : string -> Q) (trans : longcontrol.trans_function)
  (self : longcontrol.LongControl) (active : bool) (CS : car.CarState)
  (CP : car.CarParams) (long_plan : longcontrol.LongitudinalPlan)
  (accel_limits : Q * Q) (radarState : option car.RadarState)
  (v_target v_target_future a_target a_ff : Q) :
  longcontrol.plan_targets CONTROL_N T_IDXS ntune_scc_get long_plan
  = Ok (v_target, v_target_future, a_target) ->
  longcontrol.feedforward CS a_target = Ok a_ff ->
  feedforward_passed DT_CTRL CONTROL_N T_IDXS ntune_scc_get trans self active CS CP
    long_plan accel_limits radarState v_target v_target_future a_ff.
Proof.
  intros Hplan Hff deadzone Htrans Hgas Hdz prevent_overshoot.
  exists (fun r : pid.PIDController * Q =>
            let '(c, output_accel) := r in
            let output_accel :=
              if prevent_overshoot then Py.min output_accel 0 else output_accel in
            Ok (longcontrol.set_last_output_accel
                  (longcontrol.set_pid
                     (longcontrol.set_v_pid
                        (longcontrol.set_state
                           (longcontrol.set_limits self accel_limits)
                           (longcontrol.LongCtrlState.value
                              longcontrol.LongCtrlState.pid))
                        v_target)
                     c)
                  output_accel,
                numpy_fast.clip output_accel (fst accel_limits) (snd accel_limits))).
  intros call.
  unfold longcontrol.update_with. rewrite Hplan. cbv beta iota delta [bind].
  rewrite Hff.
  cbn [longcontrol.set_limits longcontrol.last_output_accel
       longcontrol.long_control_state].
  rewrite Htrans, Hgas.
  cbn [longcontrol.set_state longcontrol.long_control_state].
  change (Py.eqv (longcontrol.LongCtrlState.value longcontrol.LongCtrlState.pid)
            (longcontrol.LongCtrlState.value longcontrol.LongCtrlState.off))
    with false.
  change (Py.eqv (longcontrol.LongCtrlState.value longcontrol.LongCtrlState.pid)
            (longcontrol.LongCtrlState.value longcontrol.LongCtrlState.pid))
    with true.
  cbv beta iota delta [orb].
  unfold longcontrol.track_with.
  cbn [longcontrol.set_v_pid longcontrol.v_pid longcontrol.pid].
  rewrite Hdz. cbv beta iota delta [bind].
  fold prevent_overshoot.
  destruct (call _ _ _) as [[c output_accel] | e]; reflexivity.
Qed.

(** A plan whose number of speeds is not [CONTROL_N] leaves the lists
    alone. *)
Lemma plan_targets_default (CONTROL_N : nat) (T_IDXS : list Q)
  (ntune_scc_get : string -> Q) (long_plan : longcontrol.LongitudinalPlan) :
  List.length (longcontrol.speeds long_plan) <> CONTROL_N ->
  longcontrol.plan_targets CONTROL_N T_IDXS ntune_scc_get long_plan = Ok (0, 0, 0).
Proof.
  intros Hlen. unfold longcontrol.plan_targets.
  apply Nat.eqb_neq in Hlen. now rewrite Hlen.
Qed.

(** The start of both finite-difference estimates on a plan with
    [CONTROL_N] speeds: the interpolation and [speeds[0]] are there, the
    division and [accels[0]] are still to come. *)
Lemma a_target_at_start (CONTROL_N : nat) (T_IDXS : list Q)
  (long_plan : longcontrol.LongitudinalPlan) (delay : Q) :
  List.length (longcontrol.speeds long_plan) = CONTROL_N ->
  T_IDXS <> [] -> (1 <= CONTROL_N)%nat ->
  exists v s0,
    longcontrol.a_target_at CONTROL_N T_IDXS long_plan delay
    = (q <- Py.div (2 * (v - s0)) delay ;;
       a0 <- Py.index (longcontrol.accels long_plan) 0 ;;
       Ok (q - a0)).
Proof.
  intros Hlen HT HN.
  assert (Hok : table_ok (firstn CONTROL_N T_IDXS, longcontrol.speeds long_plan)).
  { unfold table_ok. simpl. split.
    - destruct T_IDXS; [congruence |]. destruct CONTROL_N; [lia | discriminate].
    - rewrite length_firstn. lia. }
  destruct (interp_total delay _ _ Hok) as (v & Hv & _).
  destruct (nth_error_exists (longcontrol.speeds long_plan) 0) as (s0 & Hs0); [lia |].
  exists v, s0. unfold longcontrol.a_target_at. rewrite Hv.
  cbv beta iota delta [bind].
  pose proof (index_of_nat _ 0 _ Hs0) as Hi.
  change (Py.index (longcontrol.speeds long_plan) 0 = Ok s0) in Hi. rewrite Hi.
  reflexivity.
Qed.

(** When the preprocessing raises, so does the tick, whatever the callees
    are. *)
Lemma update_with_plan_raises (DT_CTRL : Q) (CONTROL_N : nat) (T_IDXS : list Q)
  (ntune_scc_get : string -> Q) (trans : longcontrol.trans_function)
  (call : longcontrol.pid_method)
  (self : longcontrol.LongControl) (active : bool) (CS : car.CarState)
  (CP : car.CarParams) (long_plan : longcontrol.LongitudinalPlan)
  (accel_limits : Q * Q) (radarState : option car.RadarState) (e : exn) :
  longcontrol.plan_targets CONTROL_N T_IDXS ntune_scc_get long_plan = Raise e ->
  longcontrol.update_with DT_CTRL CONTROL_N T_IDXS ntune_scc_get trans call
    self active CS CP long_plan accel_limits radarState = Raise e.
Proof. intros H. unfold longcontrol.update_with. rewrite H. reflexivity. Qed.

(** The preprocessing on a plan with [CONTROL_N] speeds that lacks an
    acceleration or has a delay bound of zero. *)
Lemma plan_targets_raises (CONTROL_N : nat) (T_IDXS : list Q)
  (ntune_scc_get : string -> Q) (long_plan : longcontrol.LongitudinalPlan) :
  List.length (longcontrol.speeds long_plan) = CONTROL_N ->
  (1 <= CONTROL_N)%nat -> T_IDXS <> [] ->
  let lower := ntune_scc_get "longitudinalActuatorDelayLowerBound"%string in
  let upper := ntune_scc_get "longitudinalActuatorDelayUpperBound"%string in
  let result := longcontrol.plan_targets CONTROL_N T_IDXS ntune_scc_get long_plan in
  (lower == 0 -> result = Raise ZeroDivisionError)
  /\ (~ lower == 0 -> longcontrol.accels long_plan = [] -> result = Raise IndexError)
  /\ (~ lower == 0 -> longcontrol.accels long_plan <> [] -> upper == 0 ->
      result = Raise ZeroDivisionError).
Proof.
  intros Hlen HN HT lower upper result.
  unfold result, longcontrol.plan_targets. rewrite Hlen, Nat.eqb_refl. cbv zeta.
  fold lower upper.
  split; [| split].
  - intros H0. destruct (a_target_at_start CONTROL_N T_IDXS long_plan lower Hlen HT HN)
      as (v & s0 & ->).
    unfold Py.div. apply Qeq_bool_iff in H0. rewrite H0. reflexivity.
  - intros H0 Hacc.
    destruct (a_target_at_start CONTROL_N T_IDXS long_plan lower Hlen HT HN)
      as (v & s0 & ->).
    unfold Py.div. destruct (Qeq_bool lower 0) eqn:E;
      [apply Qeq_bool_iff in E; contradiction |].
    rewrite Hacc. reflexivity.
  - intros H0 Hacc Hu.
    destruct (a_target_at_total CONTROL_N T_IDXS long_plan lower Hlen HT HN Hacc H0)
      as (v1 & s1 & a1 & _ & _ & _ & ->).
    cbv beta iota delta [bind].
    destruct (a_target_at_start CONTROL_N T_IDXS long_plan upper Hlen HT HN)
      as (v & s0 & ->).
    unfold Py.div. apply Qeq_bool_iff in Hu. rewrite Hu. reflexivity.
Qed.

(** C6 (as the code has it).  Take a plan with exactly [CONTROL_N >= 1]
    speeds and a time grid that is not empty.  When the plan has an
    acceleration and both delay bounds are non-zero, the preprocessing
    returns, the acceleration target is Python's [min] of the two
    finite-difference estimates, hence the smaller of them, and what a
    tracking tick of [update] passes to the PID core as [feedforward] is
    that target, times a factor between 1 and 1.2 when it is positive,
    clamped: it lies in [[-3.5, 2.0]].  When a delay bound is zero or the
    plan has no acceleration, [update] raises [ZeroDivisionError] or
    [IndexError] instead, whatever its callees do.  For a plan of any other
    length the two speed targets and the acceleration target are [0], and
    [0] is what the tracking tick passes as [feedforward].  Whatever the
    target, the feedforward lies in [[-3.5, 2.0]]. *)
Theorem C6_feedforward :
  forall (DT_CTRL : Q) (CONTROL_N : nat) (T_IDXS : list Q)
         (ntune_scc_get : string -> Q) (trans : longcontrol.trans_function)
         (self : longcontrol.LongControl) (active : bool) (CS : car.CarState)
         (CP : car.CarParams) (long_plan : longcontrol.LongitudinalPlan)
         (accel_limits : Q * Q) (radarState : option car.RadarState),
    let lower := ntune_scc_get "longitudinalActuatorDelayLowerBound"%string in
    let upper := ntune_scc_get "longitudinalActuatorDelayUpperBound"%string in
    let tick call :=
      longcontrol.update_with DT_CTRL CONTROL_N T_IDXS ntune_scc_get trans call
        self active CS CP long_plan accel_limits radarState in
    let passed :=
      feedforward_passed DT_CTRL CONTROL_N T_IDXS ntune_scc_get trans self active
        CS CP long_plan accel_limits radarState in
    (List.length (longcontrol.speeds long_plan) = CONTROL_N ->
     (1 <= CONTROL_N)%nat -> T_IDXS <> [] ->
       (longcontrol.accels long_plan <> [] -> ~ lower == 0 -> ~ upper == 0 ->
          exists a_lower a_upper v_target v_target_future k a_ff,
            longcontrol.a_target_at CONTROL_N T_IDXS long_plan lower = Ok a_lower
            /\ longcontrol.a_target_at CONTROL_N T_IDXS long_plan upper = Ok a_upper
            /\ longcontrol.plan_targets CONTROL_N T_IDXS ntune_scc_get long_plan
               = Ok (v_target, v_target_future, Py.min a_lower a_upper)
            /\ Py.min a_lower a_upper <= a_lower
            /\ Py.min a_lower a_upper <= a_upper
            /\ (Py.min a_lower a_upper = a_lower \/ Py.min a_lower a_upper = a_upper)
            /\ numpy_fast.interp (car.vEgo CS) [0; 3] [12 # 10; 1] = Ok k
            /\ 1 <= k <= 12 # 10
            /\ a_ff = numpy_fast.clip
                        (if Py.gt (Py.min a_lower a_upper) 0
                         then Py.min a_lower a_upper * k
                         else Py.min a_lower a_upper)
                        longcontrol.ACCEL_MIN_ISO longcontrol.ACCEL_MAX_ISO
            /\ - (35 # 10) <= a_ff /\ a_ff <= 2
            /\ passed v_target v_target_future a_ff)
       /\ (lower == 0 -> forall call, tick call = Raise ZeroDivisionError)
       /\ (~ lower == 0 -> longcontrol.accels long_plan = [] ->
           forall call, tick call = Raise IndexError)
       /\ (~ lower == 0 -> longcontrol.accels long_plan <> [] -> upper == 0 ->
           forall call, tick call = Raise ZeroDivisionError))
    /\ (List.length (longcontrol.speeds long_plan) <> CONTROL_N ->
        longcontrol.plan_targets CONTROL_N T_IDXS ntune_scc_get long_plan
        = Ok (0, 0, 0)
        /\ longcontrol.feedforward CS 0 = Ok 0
        /\ passed 0 0 0)
    /\ (forall a_target,
          exists k a_ff,
            numpy_fast.interp (car.vEgo CS) [0; 3] [12 # 10; 1] = Ok k
            /\ 1 <= k <= 12 # 10
            /\ longcontrol.feedforward CS a_target = Ok a_ff
            /\ a_ff = numpy_fast.clip
                        (if Py.gt a_target 0 then a_target * k else a_target)
                        longcontrol.ACCEL_MIN_ISO longcontrol.ACCEL_MAX_ISO
            /\ - (35 # 10) <= a_ff /\ a_ff <= 2).
Proof.
  intros DT_CTRL CONTROL_N T_IDXS ntune_scc_get trans self active CS CP long_plan
    accel_limits radarState lower upper tick passed.
  assert (Hrange : forall a_target,
             exists k a_ff,
               numpy_fast.interp (car.vEgo CS) [0; 3] [12 # 10; 1] = Ok k
               /\ 1 <= k <= 12 # 10
               /\ longcontrol.feedforward CS a_target = Ok a_ff
               /\ a_ff = numpy_fast.clip
                           (if Py.gt a_target 0 then a_target * k else a_target)
                           longcontrol.ACCEL_MIN_ISO longcontrol.ACCEL_MAX_ISO
               /\ - (35 # 10) <= a_ff /\ a_ff <= 2).
  { intros a. destruct (boost_factor (car.vEgo CS)) as (k & Hi & Hk).
    exists k, (numpy_fast.clip (if Py.gt a 0 then a * k else a)
                 longcontrol.ACCEL_MIN_ISO longcontrol.ACCEL_MAX_ISO).
    split; [exact Hi |]. split; [exact Hk |].
    split; [unfold longcontrol.feedforward; rewrite Hi;
            destruct (Py.gt a 0); reflexivity |].
    split; [reflexivity |].
    apply (clip_range _ longcontrol.ACCEL_MIN_ISO longcontrol.ACCEL_MAX_ISO).
    q_order. }
  split; [| split; [| exact Hrange]].
  - intros Hlen HN HT.
    destruct (plan_targets_raises CONTROL_N T_IDXS ntune_scc_get long_plan Hlen HN HT)
      as (R1 & R2 & R3).
    fold lower upper in R1, R2, R3.
    split; [| split; [| split]].
    + intros Hacc Hl Hu.
      destruct (a_target_at_total CONTROL_N T_IDXS long_plan lower Hlen HT HN Hacc Hl)
        as (v1 & s0 & a0 & _ & Hs0 & _ & Hal).
      destruct (a_target_at_total CONTROL_N T_IDXS long_plan upper Hlen HT HN Hacc Hu)
        as (v2 & s0' & a0' & _ & _ & _ & Hau).
      destruct (index_from_end (longcontrol.speeds long_plan) 1) as (sl & _ & Hj);
        [lia |].
      change (Py.index (longcontrol.speeds long_plan) (-1) = Ok sl) in Hj.
      pose proof (index_of_nat _ 0 _ Hs0) as Hi.
      change (Py.index (longcontrol.speeds long_plan) 0 = Ok s0) in Hi.
      set (al := 2 * (v1 - s0) / lower - a0) in *.
      set (au := 2 * (v2 - s0') / upper - a0') in *.
      assert (Hplan : longcontrol.plan_targets CONTROL_N T_IDXS ntune_scc_get long_plan
                      = Ok (s0, sl, Py.min al au)).
      { unfold longcontrol.plan_targets. rewrite Hlen, Nat.eqb_refl. cbv zeta.
        fold lower upper. rewrite Hal, Hau. cbv beta iota delta [bind].
        rewrite Hi, Hj. reflexivity. }
      destruct (Hrange (Py.min al au)) as (k & a_ff & Hik & Hk & Hff & Heq & Hlo & Hhi).
      exists al, au, s0, sl, k, a_ff.
      split; [exact Hal |]. split; [exact Hau |]. split; [exact Hplan |].
      assert (Hmin : Py.min al au <= al /\ Py.min al au <= au
                     /\ (Py.min al au = al \/ Py.min al au = au)).
      { destruct (min_cases al au) as [[-> Hlt] | [-> Hle]]; repeat split; auto; lra. }
      destruct Hmin as (M1 & M2 & M3).
      split; [exact M1 |]. split; [exact M2 |]. split; [exact M3 |].
      split; [exact Hik |]. split; [exact Hk |]. split; [exact Heq |].
      split; [exact Hlo |]. split; [exact Hhi |].
      unfold passed. eapply update_with_targets; eassumption.
    + intros H0 call. unfold tick. apply update_with_plan_raises. now apply R1.
    + intros H0 Hacc call. unfold tick. apply update_with_plan_raises. now apply R2.
    + intros H0 Hacc Hu call. unfold tick. apply update_with_plan_raises.
      now apply R3.
  - intros Hlen.
    pose proof (plan_targets_default CONTROL_N T_IDXS ntune_scc_get long_plan Hlen)
      as Hplan.
    split; [exact Hplan |]. split; [reflexivity |].
    unfold passed. eapply update_with_targets; [exact Hplan | reflexivity].
Qed.

(** A three-point plan on the time grid 0, 0.5, 1 s whose estimate at the
    lower delay (0.5 s) is 3 and whose estimate at the upper delay (1 s)
    is 1. *)
Definition sample_plan : longcontrol.LongitudinalPlan :=
  {| longcontrol.speeds := [0; 3 # 4; 1 # 2];
     longcontrol.accels := [0; 0; 0] |}.

Definition sample_T_IDXS : list Q := [0; 1 # 2; 1].

Definition sample_ntune (key : string) : Q :=
  if String.eqb key "longitudinalActuatorDelayLowerBound" then 1 # 2 else 1.

(** A longitudinal controller around [sample_pid], as [__init__] lays it
    out. *)
Definition sample_long : longcontrol.LongControl :=
  {| longcontrol.long_control_state :=
       longcontrol.LongCtrlState.value longcontrol.LongCtrlState.off;
     longcontrol.pid := sample_pid;
     longcontrol.v_pid := 0;
     longcontrol.last_output_accel := 0 |}.

(** A state machine that answers the tracking state. *)
Definition tracking_trans : longcontrol.trans_function :=
  fun _ _ _ _ _ _ _ _ _ _ =>
    Ok (longcontrol.LongCtrlState.value longcontrol.LongCtrlState.pid).

Lemma C6_feedforward_witness :
  exists a_lower a_upper v_target v_target_future a_ff,
    longcontrol.plan_targets 3 sample_T_IDXS sample_ntune sample_plan
    = Ok (v_target, v_target_future, Py.min a_lower a_upper)
    /\ a_lower == 3 /\ a_upper == 1 /\ Py.min a_lower a_upper == 1
    /\ a_ff == 1
    /\ exists k,
         forall call : longcontrol.pid_method,
           longcontrol.update_with (1 # 100) 3 sample_T_IDXS sample_ntune
             tracking_trans call sample_long true sample_CS sample_CP sample_plan
             (- (1), 1) None
           = bind
               (call
                  (pid.set_pos_limit (pid.set_neg_limit sample_pid (Some (- (1))))
                     (Some 1))
                  [ Py.VFloat v_target; Py.VFloat 10 ]
                  [ ("speed", Py.VFloat 10); ("deadzone", Py.VFloat 0);
                    ("feedforward", Py.VFloat a_ff);
                    ("freeze_integrator", Py.VBool false) ]%string)
               k.
Proof.
  pose proof (C6_feedforward (1 # 100) 3 sample_T_IDXS sample_ntune tracking_trans
                sample_long true sample_CS sample_CP sample_plan (- (1), 1) None)
    as H0.
  cbv zeta in H0. destruct H0 as (H1 & _).
  destruct H1 as (H1 & _); [reflexivity | lia | discriminate |].
  destruct H1 as (al & au & vt & vtf & k & a_ff & Hal & Hau & Hplan & _ & _ & _ & Hik
                  & _ & Heq & _ & _ & Hpass).
  - discriminate.
  - vm_compute. intro Hc. discriminate Hc.
  - vm_compute. intro Hc. discriminate Hc.
  - exists al, au, vt, vtf, a_ff.
    vm_compute in Hal. injection Hal as Hal.
    vm_compute in Hau. injection Hau as Hau.
    vm_compute in Hik. injection Hik as Hik.
    split; [exact Hplan |].
    assert (Eal : al == 3) by (rewrite <- Hal; vm_compute; reflexivity).
    assert (Eau : au == 1) by (rewrite <- Hau; vm_compute; reflexivity).
    assert (Emin : Py.min al au == 1).
    { destruct (min_cases al au) as [[-> Hlt] | [-> Hle]]; lra. }
    split; [exact Eal |]. split; [exact Eau |]. split; [exact Emin |].
    split; [| exact (Hpass 0 eq_refl eq_refl eq_refl)].
    rewrite Heq.
    assert (Hg : Py.gt (Py.min al au) 0 = true) by (apply gt_true; lra).
    rewrite Hg. rewrite <- Hik.
    rewrite clip_inside;
      [| unfold longcontrol.ACCEL_MIN_ISO; lra | unfold longcontrol.ACCEL_MAX_ISO; lra].
    lra.
Defined.

(** [sample_plan] without its accelerations: three speeds, as [CONTROL_N]
    asks for, and nothing else. *)
Definition accel_less_plan : longcontrol.LongitudinalPlan :=
  {| longcontrol.speeds := [0; 3 # 4; 1 # 2]; longcontrol.accels := [] |}.

(** C6 (counterexample).  A plan with exactly [CONTROL_N = 3] speeds and no
    acceleration.  The preprocessing neither takes the minimum of two
    estimates nor defaults to zero: it raises [IndexError] on
    [long_plan.accels[0]], and so does the tick of [update], as it runs and
    whatever its callees were. *)
Theorem C6_plan_without_accels_raises :
  List.length (longcontrol.speeds accel_less_plan) = 3%nat
  /\ longcontrol.plan_targets 3 sample_T_IDXS sample_ntune accel_less_plan
     = Raise IndexError
  /\ longcontrol.update (1 # 100) 3 sample_T_IDXS sample_ntune sample_long true
       sample_CS sample_CP accel_less_plan (- (1), 1) None
     = Raise IndexError
  /\ (forall (trans : longcontrol.trans_function) (call : longcontrol.pid_method),
        longcontrol.update_with (1 # 100) 3 sample_T_IDXS sample_ntune trans call
          sample_long true sample_CS sample_CP accel_less_plan (- (1), 1) None
        = Raise IndexError).
Proof.
  assert (Hplan : longcontrol.plan_targets 3 sample_T_IDXS sample_ntune accel_less_plan
                  = Raise IndexError) by reflexivity.
  split; [reflexivity |]. split; [exact Hplan |].
  split; [| intros trans call]; now apply update_with_plan_raises.
Qed.


(* ===================================================================== *)
(** ** The integral term over time *)
(* ===================================================================== *)

(** The object after the first [n] ticks of an unending sequence. *)
Fixpoint run_upto (self : pid.PIDController) (ts : nat -> tick) (n : nat)
  : res pid.PIDController :=
  match n with
  | O => Ok self
  | S k =>
      s <- run_upto self ts k ;;
      '(s', _) <- update_tick s (ts k) ;;
      Ok s'
  end.

(** The integral term stored after [n] ticks. *)
Definition i_seq (self : pid.PIDController) (ts : nat -> tick) (n : nat) : Q :=
  match run_upto self ts n with
  | Ok s => pid.i s
  | Raise _ => 0
  end.

Definition converges (u : nat -> Q) : Prop :=
  exists l, forall eps, 0 < eps ->
    exists N, forall n, (N <= n)%nat -> Qabs (u n - l) < eps.

Definition bounded (u : nat -> Q) : Prop :=
  exists B, forall n, Qabs (u n) <= B.

(** The rates as [__init__] sets them for [rate >= 1] and a positive decay
    time: both integrator rates are [1 / rate], the decay factor is in
    [[0, 1]]. *)
Definition rates_ok (self : pid.PIDController) : Prop :=
  (0 < pid.i_unwind_rate self /\ pid.i_unwind_rate self <= 1)
  /\ pid.i_rate self == pid.i_unwind_rate self
  /\ (0 <= pid.i_decay_factor self /\ pid.i_decay_factor self <= 1).

Definition limits_ok (self : pid.PIDController) : Prop :=
  exists lo hi,
    pid.neg_limit self = Some lo /\ pid.pos_limit self = Some hi /\ lo <= hi.

(** The applied output is the same at every tick. *)
Definition held_fixed (ts : nat -> tick) (L : Q) : Prop :=
  forall n, t_last_output (ts n) = L.

(** Raw error and feedforward stay within [E]; deadzones are not negative. *)
Definition bounded_inputs (ts : nat -> tick) (E : Q) : Prop :=
  forall n,
    Qabs (t_setpoint (ts n) - t_measurement (ts n)) <= E
    /\ Qabs (t_feedforward (ts n)) <= E
    /\ 0 <= t_deadzone (ts n).

Definition sum_abs (l : list Q) : Q := fold_right (fun x a => Qabs x + a) 0 l.

Lemma sum_abs_nonneg (l : list Q) : 0 <= sum_abs l.
Proof.
  induction l as [| x l IH]; simpl; [lra |].
  pose proof (Qabs_nonneg x). lra.
Qed.

Lemma sum_abs_bound (l : list Q) (x : Q) : In x l -> - sum_abs l <= x <= sum_abs l.
Proof.
  induction l as [| y l IH]; simpl; [tauto |].
  pose proof (sum_abs_nonneg l). pose proof (Qabs_nonneg y).
  intros [-> | Hin].
  - pose proof (Qle_Qabs x). pose proof (Qle_Qabs (- x)) as H2.
    rewrite Qabs_opp in H2. lra.
  - destruct (IH Hin). lra.
Qed.

Lemma abs_bounds (x B : Q) : Qabs x <= B <-> - B <= x /\ x <= B.
Proof. apply Qabs_Qle_condition. Qed.

(** A scheduled gain is bounded by the values of its table. *)
Lemma gain_bound (v : Q) (t : list Q * list Q) (k : Q) :
  table_ok t -> numpy_fast.interp v (fst t) (snd t) = Ok k ->
  Qabs k <= sum_abs (snd t).
Proof.
  intros Hok Hk. apply abs_bounds.
  apply (interp_range v (fst t) (snd t)); try assumption.
  apply sum_abs_bound.
Qed.

Lemma abs_mult_bound (a b A B : Q) :
  Qabs a <= A -> Qabs b <= B -> Qabs (a * b) <= A * B.
Proof.
  intros Ha Hb. rewrite Qabs_Qmult.
  apply Qmult_le_compat_nonneg; split; try assumption; apply Qabs_nonneg.
Qed.

(** One step of the integrator stays within [B] once [B] dominates what
    pushes it. *)
Lemma integral_step_bound (decay u r i x p f L B Xb P F Lb : Q) :
  0 <= decay <= 1 -> 0 <= u <= 1 -> r == u ->
  Qabs i <= B -> Qabs x <= Xb -> Qabs p <= P -> Qabs f <= F -> Qabs L <= Lb ->
  Xb + P + F + Lb <= B ->
  Qabs (decay * (i + x * r - u * (p + i + f - L))) <= B.
Proof.
  intros [Hd0 Hd1] [Hu0 Hu1] Hr Hi Hx Hp Hf HL HB.
  apply abs_bounds in Hi, Hx, Hp, Hf, HL.
  destruct Hi as [Hi1 Hi2], Hx as [Hx1 Hx2], Hp as [Hp1 Hp2],
    Hf as [Hf1 Hf2], HL as [HL1 HL2].
  set (w := i + x * r - u * (p + i + f - L)).
  assert (Ew : w == (1 - u) * i + u * (x - p - f + L)).
  { unfold w. rewrite Hr. ring. }
  assert (H1 : (1 - u) * i <= (1 - u) * B) by nra.
  assert (H2 : (1 - u) * - B <= (1 - u) * i) by nra.
  assert (H3 : u * (x - p - f + L) <= u * B) by nra.
  assert (H4 : u * - B <= u * (x - p - f + L)) by nra.
  assert (Hw : - B <= w /\ w <= B) by (rewrite Ew; split; lra).
  destruct Hw as [Hw1 Hw2].
  assert (HB0 : 0 <= B) by lra.
  apply abs_bounds. split; nra.
Qed.

Lemma same_tuning_sym (a b : pid.PIDController) : same_tuning a b -> same_tuning b a.
Proof.
  unfold same_tuning.
  intros (A1 & A2 & A3 & A4 & A5 & A6 & A7 & A8 & A9 & A10).
  repeat split; congruence.
Qed.

(** What one tick does to [p], [i] and [f], with the gains of the tick
    named. *)
Lemma update_tick_terms (self self' : pid.PIDController) (t : tick) (c : Q) :
  update_tick self t = Ok (self', c) ->
  exists kp ki lo hi,
    numpy_fast.interp (t_speed t) (fst (pid._k_p self)) (snd (pid._k_p self)) = Ok kp
    /\ numpy_fast.interp (t_speed t) (fst (pid._k_i self)) (snd (pid._k_i self)) = Ok ki
    /\ pid.neg_limit self = Some lo /\ pid.pos_limit self = Some hi
    /\ same_tuning self self'
    /\ pid.p self' = tick_error t * kp
    /\ pid.f self' = numpy_fast.clip (t_feedforward t * pid.k_f self) lo hi
    /\ pid.i self'
       = pid.i_decay_factor self
         * (pid.i self + tick_error t * ki * pid.i_rate self
            - pid.i_unwind_rate self
              * (pid.p self + pid.i self + pid.f self - t_last_output t)).
Proof.
  intros H. unfold update_tick in H.
  destruct (update_Ok_inv _ _ _ _ _ _ _ _ _ H)
    as (kp & ki & d & fc & errs & lo & hi & Hkp & Hki & _ & Hlo & Hhi & Hfc & _ & _ & Hs).
  exists kp, ki, lo, hi. subst self' fc.
  repeat (split; [assumption |]).
  split; [unfold same_tuning; cbn; repeat split |].
  repeat split.
Qed.

Section Bounded.

Variable self : pid.PIDController.
Variable ts : nat -> tick.
Variables E Lb lo hi : Q.

Hypothesis Hwf : well_formed self.
Hypothesis Hlo : pid.neg_limit self = Some lo.
Hypothesis Hhi : pid.pos_limit self = Some hi.
Hypothesis Hle : lo <= hi.
Hypothesis Hrates : rates_ok self.
Hypothesis Hin : bounded_inputs ts E.
Hypothesis HL : forall n, Qabs (t_last_output (ts n)) <= Lb.

(** Bounds on the stored [p] and [f], and the bound on [i] they give. *)
Let P : Q := Qabs (pid.p self) + E * sum_abs (snd (pid._k_p self)).
Let F : Q := Qabs (pid.f self) + (Qabs lo + Qabs hi).
Let B : Q := Qabs (pid.i self) + (E * sum_abs (snd (pid._k_i self)) + P + F + Lb).

Lemma E_nonneg : 0 <= E.
Proof.
  destruct (Hin 0%nat) as (H & _). pose proof (Qabs_nonneg
    (t_setpoint (ts 0%nat) - t_measurement (ts 0%nat))). lra.
Qed.

Lemma tick_error_bound (n : nat) : Qabs (tick_error (ts n)) <= E.
Proof.
  destruct (Hin n) as (H & _ & Hdz). unfold tick_error.
  pose proof (apply_deadzone_abs (t_setpoint (ts n) - t_measurement (ts n))
                (t_deadzone (ts n)) Hdz). lra.
Qed.

(** Every tick returns, keeps the tuning, and keeps [p], [f] and [i] within
    their bounds. *)
Lemma run_upto_invariant (n : nat) :
  exists s,
    run_upto self ts n = Ok s
    /\ same_tuning self s
    /\ Qabs (pid.p s) <= P /\ Qabs (pid.f s) <= F /\ Qabs (pid.i s) <= B.
Proof.
  pose proof E_nonneg as HE.
  pose proof (sum_abs_nonneg (snd (pid._k_p self))) as HKp.
  pose proof (sum_abs_nonneg (snd (pid._k_i self))) as HKi.
  assert (HEKp : 0 <= E * sum_abs (snd (pid._k_p self))) by nra.
  assert (HEKi : 0 <= E * sum_abs (snd (pid._k_i self))) by nra.
  assert (HLb : 0 <= Lb).
  { pose proof (HL 0%nat). pose proof (Qabs_nonneg (t_last_output (ts 0%nat))). lra. }
  pose proof (Qabs_nonneg (pid.p self)) as Hp0.
  pose proof (Qabs_nonneg (pid.f self)) as Hf0.
  pose proof (Qabs_nonneg (pid.i self)) as Hi0.
  pose proof (Qabs_nonneg lo) as Hlo0.
  pose proof (Qabs_nonneg hi) as Hhi0.
  induction n as [| n IH].
  - exists self. split; [reflexivity |]. split; [apply same_tuning_refl |].
    unfold B, P, F. repeat split; lra.
  - destruct IH as (s & Hrun & Ht & Hp & Hf & Hi).
    assert (Hwfs : well_formed s) by (eapply same_tuning_well_formed; eauto).
    pose proof Ht as (T1 & T2 & T3 & T4 & T5 & T6 & T7 & T8 & T9 & T10).
    destruct (update_total s (t_setpoint (ts n)) (t_measurement (ts n))
                (t_last_output (ts n)) (t_speed (ts n)) (t_feedforward (ts n))
                (t_deadzone (ts n)) Hwfs) as (s' & c & Hup).
    { exists lo. congruence. }
    { exists hi. congruence. }
    fold (update_tick s (ts n)) in Hup.
    destruct (update_tick_terms s s' (ts n) c Hup)
      as (kp & ki & lo' & hi' & Hkp & Hki & Hlo' & Hhi' & Ht' & Ep & Ef & Ei).
    assert (lo' = lo) by congruence. assert (hi' = hi) by congruence. subst lo' hi'.
    exists s'. split; [simpl; rewrite Hrun; simpl; rewrite Hup; reflexivity |].
    split; [eapply same_tuning_trans; eauto |].
    pose proof (tick_error_bound n) as He.
    assert (Hkpb : Qabs kp <= sum_abs (snd (pid._k_p self))).
    { rewrite T1. apply (gain_bound (t_speed (ts n))); [apply Hwfs | assumption]. }
    assert (Hkib : Qabs ki <= sum_abs (snd (pid._k_i self))).
    { rewrite T2. apply (gain_bound (t_speed (ts n))); [apply Hwfs | assumption]. }
    pose proof (abs_mult_bound _ _ _ _ He Hkpb) as Hpb.
    pose proof (abs_mult_bound _ _ _ _ He Hkib) as Hxb.
    split; [| split].
    + rewrite Ep. unfold P. lra.
    + rewrite Ef. unfold F. pose proof (clip_abs (t_feedforward (ts n) * pid.k_f s)
                                         lo hi Hle). lra.
    + rewrite Ei.
      destruct Hrates as ((Hu0 & Hu1) & Hr & Hd).
      apply (integral_step_bound _ _ _ _ _ _ _ _ B
               (E * sum_abs (snd (pid._k_i self))) P F Lb).
      * rewrite <- T5. exact Hd.
      * rewrite <- T8. split; lra.
      * rewrite <- T8, <- T9. exact Hr.
      * exact Hi.
      * exact Hxb.
      * exact Hp.
      * exact Hf.
      * apply HL.
      * unfold B, P, F in *. lra.
Qed.

End Bounded.

(* ===================================================================== *)
(** ** Contractions converge *)
(* ===================================================================== *)

Definition Qn (k : nat) : Q := inject_Z (Z.of_nat k).

Lemma Qn_succ (k : nat) : Qn (S k) == Qn k + 1.
Proof. unfold Qn. rewrite Nat2Z.inj_succ, <- Z.add_1_r, inject_Z_plus. reflexivity. Qed.

Lemma Qn_nonneg (k : nat) : 0 <= Qn k.
Proof. unfold Qn. change 0 with (inject_Z 0). rewrite <- Zle_Qle. lia. Qed.

Lemma Qn_le (j k : nat) : (j <= k)%nat -> Qn j <= Qn k.
Proof. intros H. unfold Qn. rewrite <- Zle_Qle. lia. Qed.

(** Past some index, [Qn k] times a positive step exceeds any bound. *)
Lemma archimedean (M d : Q) :
  0 < d -> exists N, forall k, (N <= k)%nat -> M <= Qn k * d.
Proof.
  intros Hd. exists (Z.to_nat (Qceiling (M / d))). intros k Hk.
  assert (H1 : M / d <= Qn k).
  { eapply Qle_trans; [apply Qle_ceiling |].
    unfold Qn. rewrite <- Zle_Qle. lia. }
  assert (E : M == M / d * d) by (field; lra).
  rewrite E. apply Qmult_le_compat_r; lra.
Qed.

(** A sequence of distances that shrinks by a factor [a < 1] at every step
    goes below any positive [eps]. *)
Lemma shrinking_vanishes (y : nat -> Q) (a : Q) :
  0 <= a -> a < 1 ->
  (forall k, 0 <= y k) ->
  (forall k, y (S k) <= a * y k) ->
  forall eps, 0 < eps -> exists N, forall k, (N <= k)%nat -> y k < eps.
Proof.
  intros Ha0 Ha1 Hy Hstep eps Heps.
  set (c := 1 - a). assert (Hc : 0 < c) by (unfold c; lra).
  set (M := y 0%nat).
  assert (Inv : forall k, y k <= M /\ y k * (1 + Qn k * c) <= M).
  { induction k as [| k [IH1 IH2]].
    - unfold M. split; [lra |]. change (Qn 0) with 0. lra.
    - pose proof (Hy k) as Hk. pose proof (Hy (S k)) as HSk.
      pose proof (Hstep k) as Hs. pose proof (Qn_nonneg k) as Hn.
      assert (Hak : a * y k <= y k) by nra.
      split; [lra |].
      rewrite Qn_succ.
      assert (H1 : 0 <= 1 + (Qn k + 1) * c) by nra.
      assert (H2 : y (S k) * (1 + (Qn k + 1) * c)
                   <= a * y k * (1 + (Qn k + 1) * c)) by nra.
      assert (H3 : a * y k * (1 + (Qn k + 1) * c)
                   == a * (y k * (1 + Qn k * c) + c * y k)) by ring.
      assert (H4 : a * (y k * (1 + Qn k * c) + c * y k) <= a * (M + c * M)).
      { assert (Hc1 : c * y k <= c * M) by nra.
        assert (Hc2 : y k * (1 + Qn k * c) + c * y k <= M + c * M) by lra.
        rewrite !(Qmult_comm a). apply Qmult_le_compat_r; assumption. }
      assert (H5 : a * (M + c * M) == M - c * c * M) by (unfold c; ring).
      assert (HM : 0 <= M) by lra.
      assert (H6 : 0 <= c * c * M) by nra.
      lra. }
  destruct (archimedean M (eps * c)) as (N & HN); [nra |].
  exists N. intros k Hk.
  destruct (Inv k) as [_ H2]. pose proof (HN k Hk) as H3.
  pose proof (Qn_nonneg k) as Hn. pose proof (Hy k) as Hyk.
  assert (H4 : 0 < 1 + Qn k * c) by nra.
  assert (H5 : y k * (1 + Qn k * c) < eps * (1 + Qn k * c)) by nra.
  apply (Qmult_lt_r _ _ _ H4). exact H5.
Qed.

(** A sequence that, from its second term on, moves towards [l] by a factor
    [a < 1] at every step converges to [l]. *)
Lemma contraction_converges (x : nat -> Q) (l a : Q) :
  0 <= a -> a < 1 ->
  (forall n, (1 <= n)%nat -> x (S n) - l == a * (x n - l)) ->
  converges x.
Proof.
  intros Ha0 Ha1 Hstep. exists l. intros eps Heps.
  destruct (shrinking_vanishes (fun k => Qabs (x (S k) - l)) a Ha0 Ha1) with (eps := eps)
    as (N & HN); try assumption.
  - intros k. apply Qabs_nonneg.
  - intros k. cbv beta. rewrite (Hstep (S k)) by lia.
    rewrite Qabs_Qmult, (Qabs_pos a) by assumption. lra.
  - exists (S N). intros [| n] Hn; [lia |]. apply (HN n). lia.
Qed.

(* ===================================================================== *)
(** ** Constant inputs: the integral term converges *)
(* ===================================================================== *)

Section Constant.

Variable self : pid.PIDController.
Variable ts : nat -> tick.
Variable t : tick.
Variables E lo hi : Q.

Hypothesis Hwf : well_formed self.
Hypothesis Hlo : pid.neg_limit self = Some lo.
Hypothesis Hhi : pid.pos_limit self = Some hi.
Hypothesis Hle : lo <= hi.
Hypothesis Hrates : rates_ok self.
Hypothesis Hin : bounded_inputs ts E.
Hypothesis Hconst : forall n, ts n = t.

Lemma run_upto_returns (n : nat) :
  exists s, run_upto self ts n = Ok s /\ same_tuning self s.
Proof.
  destruct (run_upto_invariant self ts E (Qabs (t_last_output t)) lo hi
              Hwf Hlo Hhi Hle Hrates Hin) with (n := n)
    as (s & Hrun & Ht & _).
  - intros k. rewrite Hconst. lra.
  - eauto.
Qed.

(** From the second tick on, the stored [p] and [f] are those of the
    constant tick. *)
Lemma run_upto_constant_terms (kp : Q) (n : nat) (s : pid.PIDController) :
  numpy_fast.interp (t_speed t) (fst (pid._k_p self)) (snd (pid._k_p self)) = Ok kp ->
  run_upto self ts (S n) = Ok s ->
  pid.p s = tick_error t * kp
  /\ pid.f s = numpy_fast.clip (t_feedforward t * pid.k_f self) lo hi.
Proof.
  intros Hkp Hrun. simpl in Hrun.
  destruct (run_upto_returns n) as (s0 & Hrun0 & Ht0).
  rewrite Hrun0 in Hrun. simpl in Hrun.
  bind_inv Hrun. destruct a as [s' c]. injection Hrun as <-.
  destruct (update_tick_terms s0 s' (ts n) c Ha)
    as (kp' & ki' & lo' & hi' & Hkp' & _ & Hlo' & Hhi' & _ & Ep & Ef & _).
  pose proof Ht0 as (T1 & T2 & T3 & T4 & T5 & T6 & T7 & T8 & T9 & T10).
  rewrite Hconst in *. rewrite <- T1, Hkp in Hkp'. injection Hkp' as <-.
  assert (lo' = lo) by congruence. assert (hi' = hi) by congruence. subst lo' hi'.
  rewrite <- T4 in Ef. auto.
Qed.

Lemma constant_contraction :
  exists l a,
    0 <= a /\ a < 1
    /\ forall n, (1 <= n)%nat ->
         i_seq self ts (S n) - l == a * (i_seq self ts n - l).
Proof.
  pose proof Hwf as (Hkpok & Hkiok & _).
  destruct (gain_total (t_speed t) _ Hkpok) as (kp & Hkp).
  destruct (gain_total (t_speed t) _ Hkiok) as (ki & Hki).
  destruct Hrates as ((Hu0 & Hu1) & Hr & (Hd0 & Hd1)).
  set (u := pid.i_unwind_rate self) in *.
  set (dc := pid.i_decay_factor self) in *.
  set (fs := numpy_fast.clip (t_feedforward t * pid.k_f self) lo hi).
  set (a := dc * (1 - u)).
  set (b := dc * u * (tick_error t * ki - tick_error t * kp - fs + t_last_output t)).
  assert (Ha0 : 0 <= a) by (unfold a; nra).
  assert (Ha1 : a < 1) by (unfold a; nra).
  set (l := b / (1 - a)).
  assert (El : (1 - a) * l == b) by (unfold l; field; lra).
  exists l, a. split; [assumption | split; [assumption |]].
  intros [| n] Hn; [lia |].
  destruct (run_upto_returns (S n)) as (s & Hrun & Ht).
  destruct (run_upto_returns (S (S n))) as (s' & Hrun' & _).
  destruct (run_upto_constant_terms kp n s Hkp Hrun) as (Ep & Ef).
  unfold i_seq. rewrite Hrun', Hrun.
  change (run_upto self ts (S (S n)))
    with (s <- run_upto self ts (S n) ;;
          '(s', _) <- update_tick s (ts (S n)) ;; Ok s') in Hrun'.
  rewrite Hrun in Hrun'. cbv beta iota delta [bind] in Hrun'.
  destruct (update_tick s (ts (S n))) as [[s2 c] | e] eqn:Hup; [| discriminate].
  injection Hrun' as <-.
  destruct (update_tick_terms s s2 (ts (S n)) c Hup)
    as (kp' & ki' & lo' & hi' & _ & Hki' & _ & _ & _ & _ & _ & Ei).
  pose proof Ht as (T1 & T2 & T3 & T4 & T5 & T6 & T7 & T8 & T9 & T10).
  rewrite Hconst in *. rewrite <- T2, Hki in Hki'. injection Hki' as <-.
  rewrite Ei, Ep, Ef, <- T5, <- T8, <- T9. fold u dc fs.
  assert (E1 : dc * (pid.i s + tick_error t * ki * pid.i_rate self
                     - u * (tick_error t * kp + pid.i s + fs - t_last_output t))
               == a * pid.i s + b).
  { unfold a, b. rewrite Hr. fold u. ring. }
  rewrite E1. rewrite <- El. ring.
Qed.

Lemma constant_converges : converges (i_seq self ts).
Proof.
  destruct constant_contraction as (l & a & Ha0 & Ha1 & Hstep).
  apply (contraction_converges _ l a); assumption.
Qed.

End Constant.

(* ===================================================================== *)
(** ** Anti-windup under sustained saturation *)
(* ===================================================================== *)

(** A PID object at 1 Hz with integral gain 100 and a decay factor of one
    half, as [__init__] lays it out; the applied output is held at -10
    while the setpoint alternates between 1 and 2, so that the unclamped
    command stays far above what is applied. *)
Definition saturated_pid : pid.PIDController :=
  {| pid._k_p := ([0], [0]);
     pid._k_i := ([0], [100]);
     pid._k_d := ([0], [0]);
     pid.k_f := 1;
     pid.i_decay_factor := 1 # 2;
     pid.pos_limit := Some 1;
     pid.neg_limit := Some (- (1));
     pid.i_unwind_rate := 1;
     pid.i_rate := 1;
     pid._d_period := 1;
     pid.speed := None;
     pid.p := 0; pid.i := 0; pid.f := 0; pid.control := 0;
     pid.errors := [] |}.

Definition alternating_ticks (n : nat) : tick :=
  {| t_setpoint := if Nat.even n then 1 else 2;
     t_measurement := 0;
     t_last_output := - (10);
     t_speed := 0;
     t_feedforward := 0;
     t_deadzone := 0 |}.

Lemma saturated_pid_well_formed : well_formed saturated_pid.
Proof.
  unfold well_formed, table_ok. simpl. repeat split; try discriminate; lia.
Qed.

Lemma alternating_error (n : nat) :
  tick_error (alternating_ticks n) == if Nat.even n then 1 else 2.
Proof.
  unfold tick_error, alternating_ticks. cbn [t_setpoint t_measurement t_deadzone].
  destruct (Nat.even n); vm_compute; reflexivity.
Qed.

(** Every tick of the run returns; after tick [k] the integral term is 45
    when the setpoint was 1 and 95 when it was 2. *)
Lemma alternating_run (n : nat) :
  exists s,
    run_upto saturated_pid alternating_ticks n = Ok s
    /\ same_tuning saturated_pid s
    /\ pid.p s == 0 /\ pid.f s == 0
    /\ (forall k, n = S k -> pid.i s == if Nat.even k then 45 else 95).
Proof.
  induction n as [| n IH].
  - exists saturated_pid. split; [reflexivity |].
    split; [apply same_tuning_refl |].
    split; [reflexivity | split; [reflexivity |]].
    intros k Hk. discriminate Hk.
  - destruct IH as (s & Hrun & Ht & Hp & Hf & _).
    assert (Hwfs : well_formed s)
      by (eapply same_tuning_well_formed; [exact Ht | apply saturated_pid_well_formed]).
    pose proof Ht as (T1 & T2 & T3 & T4 & T5 & T6 & T7 & T8 & T9 & T10).
    destruct (update_total s (t_setpoint (alternating_ticks n))
                (t_measurement (alternating_ticks n))
                (t_last_output (alternating_ticks n)) (t_speed (alternating_ticks n))
                (t_feedforward (alternating_ticks n))
                (t_deadzone (alternating_ticks n)) Hwfs) as (s' & c & Hup).
    { exists (- (1)). rewrite <- T7. reflexivity. }
    { exists 1. rewrite <- T6. reflexivity. }
    fold (update_tick s (alternating_ticks n)) in Hup.
    destruct (update_tick_terms s s' (alternating_ticks n) c Hup)
      as (kp & ki & lo & hi & Hkp & Hki & Hlo & Hhi & Ht' & Ep & Ef & Ei).
    rewrite <- T1 in Hkp. vm_compute in Hkp. injection Hkp as <-.
    rewrite <- T2 in Hki. vm_compute in Hki. injection Hki as <-.
    rewrite <- T7 in Hlo. injection Hlo as <-.
    rewrite <- T6 in Hhi. injection Hhi as <-.
    exists s'. split; [simpl; rewrite Hrun; simpl; rewrite Hup; reflexivity |].
    split; [eapply same_tuning_trans; eauto |].
    split; [rewrite Ep; ring |].
    split; [rewrite Ef, <- T4; vm_compute; reflexivity |].
    intros k Hk. injection Hk as <-.
    rewrite Ei, <- T5, <- T8, <- T9.
    cbn [pid.i_decay_factor pid.i_unwind_rate pid.i_rate saturated_pid
         t_last_output alternating_ticks].
    rewrite (alternating_error n), Hp, Hf.
    destruct (Nat.even n); ring.
Qed.

Lemma alternating_i_seq (k : nat) :
  i_seq saturated_pid alternating_ticks (S k) == if Nat.even k then 45 else 95.
Proof.
  destruct (alternating_run (S k)) as (s & Hrun & _ & _ & _ & Hi).
  unfold i_seq. rewrite Hrun. apply Hi. reflexivity.
Qed.

(** Throughout the run the command is saturated: every tick returns the
    upper limit 1, while the applied output is held at -10. *)
Lemma alternating_command_saturated (n : nat) (s : pid.PIDController) :
  run_upto saturated_pid alternating_ticks (S n) = Ok s -> pid.control s = 1.
Proof.
  intros Hrun. simpl in Hrun.
  destruct (alternating_run n) as (s0 & Hrun0 & Ht & Hp & Hf & _).
  rewrite Hrun0 in Hrun. simpl in Hrun.
  bind_inv Hrun. destruct a as [s' c]. injection Hrun as <-.
  unfold update_tick in Ha.
  destruct (update_Ok_inv _ _ _ _ _ _ _ _ _ Ha)
    as (kp & ki & d & fc & errs & lo & hi & Hkp & Hki & Hd & Hlo & Hhi & Hfc & _ & Hc & Hs).
  pose proof Ht as (T1 & T2 & T3 & T4 & T5 & T6 & T7 & T8 & T9 & T10).
  assert (Hwf0 : well_formed (pid.set_speed s0 (t_speed (alternating_ticks n)))).
  { apply (same_tuning_well_formed saturated_pid);
      [| apply saturated_pid_well_formed].
    eapply same_tuning_trans; [exact Ht |]. unfold same_tuning. cbn. repeat split. }
  assert (Hd0 : d == 0).
  { destruct (derivative_spec _ (t_speed (alternating_ticks n))
                (pid.apply_deadzone
                   (t_setpoint (alternating_ticks n) - t_measurement (alternating_ticks n))
                   (t_deadzone (alternating_ticks n))) Hwf0 eq_refl) as [H1 H2].
    destruct (Z.lt_ge_cases
                (Z.of_nat (List.length
                   (pid.errors (pid.set_speed s0 (t_speed (alternating_ticks n))))))
                (pid._d_period (pid.set_speed s0 (t_speed (alternating_ticks n)))))
      as [Hlt | Hge].
    - rewrite (H1 Hlt) in Hd. injection Hd as <-. reflexivity.
    - destruct (H2 Hge) as (e_old & kd & _ & Hkd & Hd').
      rewrite Hd' in Hd. injection Hd as <-.
      cbn [pid._k_d pid.set_speed] in Hkd. rewrite <- T3 in Hkd.
      vm_compute in Hkd. injection Hkd as <-. ring. }
  rewrite <- T1 in Hkp. vm_compute in Hkp. injection Hkp as <-.
  rewrite <- T2 in Hki. vm_compute in Hki. injection Hki as <-.
  rewrite <- T7 in Hlo. injection Hlo as <-.
  rewrite <- T6 in Hhi. injection Hhi as <-.
  rewrite <- T4 in Hfc. vm_compute in Hfc. subst fc.
  assert (Hcs : pid.control s' = c) by (subst s'; reflexivity).
  rewrite Hcs, Hc. apply clip_above; [q_order |].
  rewrite <- T8, <- T9.
  cbn [pid.i_unwind_rate pid.i_rate saturated_pid t_last_output alternating_ticks].
  fold (tick_error (alternating_ticks n)).
  change (pid.apply_deadzone
            (t_setpoint (alternating_ticks n) - t_measurement (alternating_ticks n))
            (t_deadzone (alternating_ticks n)))
    with (tick_error (alternating_ticks n)).
  rewrite (alternating_error n), Hp, Hf, Hd0.
  destruct (Nat.even n); lra.
Qed.

Lemma alternating_not_converges :
  ~ converges (i_seq saturated_pid alternating_ticks).
Proof.
  intros (l & Hl).
  destruct (Hl 25) as (N & HN); [q_order |].
  pose proof (HN (S (2 * N)) ltac:(lia)) as H1.
  pose proof (HN (S (S (2 * N))) ltac:(lia)) as H2.
  rewrite alternating_i_seq in H1, H2.
  rewrite Nat.even_succ, Nat.odd_even in H2.
  rewrite Nat.even_even in H1.
  apply Qabs_Qlt_condition in H1, H2. lra.
Qed.

(** C7 (counterexample).  The run above meets everything the claim asks
    for: the object is well formed with its limits set, the rates are those
    of [rate = 1], the applied output is held at -10, error and feedforward
    are bounded by 2, every tick returns, and the command is saturated at
    the upper limit 1 throughout.  The integral term is 45 after every even
    tick and 95 after every odd one: it does not converge. *)
Lemma C7_bounded_inputs_do_not_converge :
  well_formed saturated_pid
  /\ limits_ok saturated_pid
  /\ rates_ok saturated_pid
  /\ held_fixed alternating_ticks (- (10))
  /\ bounded_inputs alternating_ticks 2
  /\ (forall n, raises (run_upto saturated_pid alternating_ticks n) = false)
  /\ (forall n s, run_upto saturated_pid alternating_ticks (S n) = Ok s ->
                  pid.control s = 1)
  /\ (forall k, i_seq saturated_pid alternating_ticks (S k)
                == if Nat.even k then 45 else 95)
  /\ ~ converges (i_seq saturated_pid alternating_ticks).
Proof.
  split; [apply saturated_pid_well_formed |].
  split; [exists (- (1)), 1; repeat split; q_order |].
  split; [unfold rates_ok; simpl; repeat split; q_order |].
  split; [intros n; reflexivity |].
  split.
  { intros n. unfold alternating_ticks. cbn [t_setpoint t_measurement t_feedforward
                                               t_deadzone].
    destruct (Nat.even n); repeat split; vm_compute; intro Hc; discriminate Hc. }
  split.
  { intros n. destruct (alternating_run n) as (s & -> & _). reflexivity. }
  split; [exact alternating_command_saturated |].
  split; [apply alternating_i_seq | apply alternating_not_converges].
Qed.

(** C7 (as amended).  With the applied output held fixed and error and
    feedforward bounded, on a well-formed object with ordered limits and
    the rates of [rate >= 1]: every tick returns and the integral term
    stays bounded over all ticks; when the inputs of all ticks are the same,
    it converges. *)
Theorem C7_integral_bounded :
  forall (self : pid.PIDController) (ts : nat -> tick) (E L lo hi : Q),
    well_formed self ->
    pid.neg_limit self = Some lo -> pid.pos_limit self = Some hi -> lo <= hi ->
    rates_ok self ->
    held_fixed ts L ->
    bounded_inputs ts E ->
    (forall n, raises (run_upto self ts n) = false)
    /\ bounded (i_seq self ts)
    /\ ((exists t, forall n, ts n = t) -> converges (i_seq self ts)).
Proof.
  intros self ts E L lo hi Hwf Hlo Hhi Hle Hrates HL Hin.
  assert (HLb : forall n, Qabs (t_last_output (ts n)) <= Qabs L)
    by (intros n; rewrite (HL n); lra).
  pose proof (run_upto_invariant self ts E (Qabs L) lo hi
                Hwf Hlo Hhi Hle Hrates Hin HLb) as Hinv.
  split; [| split].
  - intros n. destruct (Hinv n) as (s & -> & _). reflexivity.
  - eexists. intros n. destruct (Hinv n) as (s & Hrun & _ & _ & _ & Hi).
    unfold i_seq. rewrite Hrun. exact Hi.
  - intros (t & Hconst).
    exact (constant_converges self ts t E lo hi Hwf Hlo Hhi Hle Hrates Hin Hconst).
Qed.

(** Sustained saturation with constant inputs: the applied output is held
    at -1 while setpoint 1 is asked for at 5 m/s. *)
Definition constant_ticks (n : nat) : tick :=
  {| t_setpoint := 1; t_measurement := 0; t_last_output := - (1);
     t_speed := 5; t_feedforward := 0; t_deadzone := 0 |}.

Lemma C7_integral_bounded_witness :
  bounded (i_seq sample_pid constant_ticks)
  /\ converges (i_seq sample_pid constant_ticks).
Proof.
  assert (Hwf : well_formed sample_pid) by sample_wf.
  assert (Hr : rates_ok sample_pid)
    by (unfold rates_ok; simpl; repeat split; q_order).
  assert (Hin : bounded_inputs constant_ticks 1)
    by (intros n; simpl; repeat split; vm_compute; intro Hc; discriminate Hc).
  destruct (C7_integral_bounded sample_pid constant_ticks 1 (- (1)) (- (1)) 1
              Hwf eq_refl eq_refl ltac:(q_order) Hr (fun n => eq_refl) Hin)
    as (_ & Hb & Hc).
  split; [exact Hb |].
  apply Hc. exists (constant_ticks 0). intros n. reflexivity.
Defined.


(* ===================================================================== *)
(** ** The PID core: what a call keeps, what [reset] forgets *)
(* ===================================================================== *)

(** A call of [update] that returns was made with a derivative period of at
    least one frame. *)
Lemma update_Ok_period (self self' : pid.PIDController)
  (setpoint measurement last_output speed feedforward deadzone c : Q) :
  pid.update self setpoint measurement last_output speed feedforward deadzone
  = Ok (self', c) ->
  (1 <= pid._d_period self)%Z.
Proof.
  intros H.
  destruct (Z.le_gt_cases (pid._d_period self) 0) as [Hle | Hgt]; [| lia].
  pose proof (update_raises_without_period self setpoint measurement last_output
                speed feedforward deadzone Hle) as Hr.
  rewrite H in Hr. discriminate Hr.
Qed.

(** What a returning call of [update] leaves untouched. *)
Lemma update_frame :
  forall (self self' : pid.PIDController)
         (setpoint measurement last_output speed feedforward deadzone c : Q),
    pid.update self setpoint measurement last_output speed feedforward deadzone
    = Ok (self', c) ->
    same_tuning self self' /\ pid.speed self' = Some speed.
Proof.
  intros self self' sp m L v ff dz c H.
  destruct (update_Ok_inv _ _ _ _ _ _ _ _ _ H)
    as (kp & ki & d & fc & errs & lo & hi & _ & _ & _ & _ & _ & _ & _ & _ & Hs).
  subst self'. split; [| reflexivity].
  unfold same_tuning. cbn. repeat split.
Qed.

(** X1.  [update] writes [speed], [p], [i], [f], [control] and [errors] and
    nothing else: gains, feedforward gain, decay factor, limits, rates and
    derivative period are those of before the call, and [speed] is the speed
    of the call. *)
Theorem update_keeps_tuning :
  forall (self self' : pid.PIDController)
         (setpoint measurement last_output speed feedforward deadzone c : Q),
    pid.update self setpoint measurement last_output speed feedforward deadzone
    = Ok (self', c) ->
    same_tuning self self' /\ pid.speed self' = Some speed.
Proof. exact update_frame. Qed.

Lemma update_keeps_tuning_witness :
  exists self' c,
    pid.update sample_pid 1 (1 # 2) 0 5 0 0 = Ok (self', c)
    /\ same_tuning sample_pid self' /\ pid.speed self' = Some 5.
Proof.
  destruct (pid.update sample_pid 1 (1 # 2) 0 5 0 0) as [[s c] | e] eqn:H;
    [| vm_compute in H; discriminate H].
  exists s, c. split; [reflexivity |].
  exact (update_keeps_tuning sample_pid s 1 (1 # 2) 0 5 0 0 c H).
Defined.

(** The history after a returning call of [update]. *)
Lemma update_history :
  forall (self self' : pid.PIDController)
         (setpoint measurement last_output speed feedforward deadzone c : Q),
    pid.update self setpoint measurement last_output speed feedforward deadzone
    = Ok (self', c) ->
    let D := Z.to_nat (pid._d_period self) in
    let error := pid.apply_deadzone (setpoint - measurement) deadzone in
    pid.errors self' = lastn D (pid.errors self ++ [error])
    /\ List.length (pid.errors self') = Nat.min D (S (List.length (pid.errors self)))
    /\ (List.length (pid.errors self') <= D)%nat
    /\ last (pid.errors self') 0 = error.
Proof.
  intros self self' sp m L v ff dz c H D error.
  pose proof (update_Ok_period _ _ _ _ _ _ _ _ _ H) as HD.
  destruct (update_Ok_inv _ _ _ _ _ _ _ _ _ H)
    as (kp & ki & d & fc & errs & lo & hi & _ & _ & _ & _ & _ & _ & Htrim & _ & Hs).
  rewrite trim_spec in Htrim by lia. injection Htrim as <-.
  assert (He : pid.errors self' = lastn D (pid.errors self ++ [error]))
    by (subst self'; reflexivity).
  assert (Hlen : List.length (pid.errors self')
                 = Nat.min D (S (List.length (pid.errors self)))).
  { rewrite He, lastn_length, length_app. simpl. f_equal. lia. }
  split; [exact He | split; [exact Hlen | split; [lia |]]].
  rewrite He. unfold lastn. rewrite length_app. simpl List.length.
  assert (HDn : (1 <= D)%nat) by (unfold D; lia).
  remember (List.length (pid.errors self) + 1 - D)%nat as k eqn:Hk.
  assert (Hkl : (k <= List.length (pid.errors self))%nat) by lia.
  rewrite skipn_app.
  replace (k - List.length (pid.errors self))%nat with 0%nat by lia.
  simpl skipn. apply last_last.
Qed.

(** X2.  After a call of [update] that returns, the error history is the old
    history with the error of the call appended, cut to its last [_d_period]
    entries: it never holds more than [_d_period] errors, and it holds one
    more than before until it is full. *)
Theorem update_history_bounded :
  forall (self self' : pid.PIDController)
         (setpoint measurement last_output speed feedforward deadzone c : Q),
    pid.update self setpoint measurement last_output speed feedforward deadzone
    = Ok (self', c) ->
    let D := Z.to_nat (pid._d_period self) in
    let error := pid.apply_deadzone (setpoint - measurement) deadzone in
    pid.errors self' = lastn D (pid.errors self ++ [error])
    /\ List.length (pid.errors self') = Nat.min D (S (List.length (pid.errors self)))
    /\ (List.length (pid.errors self') <= D)%nat
    /\ last (pid.errors self') 0 = error.
Proof. exact update_history. Qed.

Lemma update_history_bounded_witness :
  exists self' c,
    pid.update sample_pid 1 (1 # 2) 0 5 0 0 = Ok (self', c)
    /\ List.length (pid.errors self') = 1%nat
    /\ (List.length (pid.errors self') <= 2)%nat
    /\ last (pid.errors self') 0 = pid.apply_deadzone (1 - (1 # 2)) 0.
Proof.
  destruct (pid.update sample_pid 1 (1 # 2) 0 5 0 0) as [[s c] | e] eqn:H;
    [| vm_compute in H; discriminate H].
  exists s, c. split; [reflexivity |].
  pose proof (update_history_bounded sample_pid s 1 (1 # 2) 0 5 0 0 c H) as H0.
  cbv zeta in H0. destruct H0 as (_ & Hlen & Hle & Hlast).
  split; [exact Hlen | split; [exact Hle | exact Hlast]].
Defined.

(** X3.  [reset] forgets everything but the tuning: after [reset], two objects
    with the same tuning answer the same call with the same command and end up
    equal, whatever they had stored before. *)
Theorem reset_forgets_state :
  forall (a b : pid.PIDController)
         (setpoint measurement last_output speed feedforward deadzone : Q),
    same_tuning a b ->
    pid.update (pid.reset a) setpoint measurement last_output speed feedforward deadzone
    = pid.update (pid.reset b) setpoint measurement last_output speed feedforward
        deadzone.
Proof.
  intros a b sp m L v ff dz H.
  destruct a, b. unfold same_tuning in H. cbn in H.
  destruct H as (-> & -> & -> & -> & -> & -> & -> & -> & -> & ->).
  reflexivity.
Qed.

(** [sample_pid] after three ticks: same tuning, other contents. *)
Definition used_pid : pid.PIDController :=
  {| pid._k_p := ([0; 10], [1; 2]);
     pid._k_i := ([0], [1 # 2]);
     pid._k_d := ([0], [1]);
     pid.k_f := 1;
     pid.i_decay_factor := 99 # 100;
     pid.pos_limit := Some 1;
     pid.neg_limit := Some (- (1));
     pid.i_unwind_rate := 1 # 100;
     pid.i_rate := 1 # 100;
     pid._d_period := 2;
     pid.speed := Some 5;
     pid.p := 45 # 100; pid.i := 1 # 7; pid.f := 1 # 3; pid.control := 1;
     pid.errors := [2 # 10; 3 # 10] |}.

Lemma reset_forgets_state_witness :
  pid.update (pid.reset used_pid) 1 (1 # 2) 0 5 0 0
  = pid.update (pid.reset sample_pid) 1 (1 # 2) 0 5 0 0.
Proof.
  apply (reset_forgets_state used_pid sample_pid).
  unfold same_tuning. simpl. repeat split.
Defined.

(** The terms of the first call after [reset]. *)
Lemma first_update_terms :
  forall (self self' : pid.PIDController)
         (setpoint measurement last_output speed feedforward deadzone c : Q),
    pid.update (pid.reset self) setpoint measurement last_output speed feedforward
      deadzone = Ok (self', c) ->
    let error := pid.apply_deadzone (setpoint - measurement) deadzone in
    exists kp ki lo hi,
      numpy_fast.interp speed (fst (pid._k_p self)) (snd (pid._k_p self)) = Ok kp
      /\ numpy_fast.interp speed (fst (pid._k_i self)) (snd (pid._k_i self)) = Ok ki
      /\ pid.neg_limit self = Some lo /\ pid.pos_limit self = Some hi
      /\ pid.p self' = error * kp
      /\ pid.f self' = numpy_fast.clip (feedforward * pid.k_f self) lo hi
      /\ pid.i self'
         == pid.i_decay_factor self
            * (error * ki * pid.i_rate self + pid.i_unwind_rate self * last_output)
      /\ c = numpy_fast.clip
               (error * kp
                + (0 + error * ki * pid.i_rate self
                   - pid.i_unwind_rate self * (0 + 0 + 0 - last_output))
                + pid.f self' + 0) lo hi
      /\ pid.errors self' = [error].
Proof.
  intros self self' sp m L v ff dz c H error.
  pose proof (update_Ok_period _ _ _ _ _ _ _ _ _ H) as HD.
  destruct (update_history _ _ _ _ _ _ _ _ _ H) as (He & _).
  destruct (update_Ok_inv _ _ _ _ _ _ _ _ _ H)
    as (kp & ki & d & fc & errs & lo & hi & Hkp & Hki & Hd & Hlo & Hhi & Hfc & _ & Hc & Hs).
  cbn [pid.reset pid.set_errors pid.set_control pid.set_f pid.set_i pid.set_p
       pid._k_p pid._k_i pid.neg_limit pid.pos_limit pid.k_f pid.i_rate
       pid.i_unwind_rate pid.p pid.i pid.f pid.i_decay_factor pid.errors
       pid._d_period]
    in Hkp, Hki, Hlo, Hhi, Hfc, Hc, Hs, He, HD.
  assert (Hd0 : d = 0).
  { unfold pid.derivative in Hd. cbn in Hd.
    destruct (Z.geb_spec 0 (pid._d_period self)); [lia |].
    injection Hd as <-. reflexivity. }
  subst d fc.
  exists kp, ki, lo, hi.
  split; [exact Hkp | split; [exact Hki | split; [exact Hlo | split; [exact Hhi |]]]].
  assert (Hf : pid.f self' = numpy_fast.clip (ff * pid.k_f self) lo hi)
    by (rewrite Hs; reflexivity).
  split; [rewrite Hs; reflexivity |].
  split; [exact Hf |].
  assert (Hi : pid.i self'
               = pid.i_decay_factor self
                 * (0 + error * ki * pid.i_rate self
                    - pid.i_unwind_rate self * (0 + 0 + 0 - L)))
    by (rewrite Hs; reflexivity).
  split; [rewrite Hi; ring |].
  split; [rewrite Hf; exact Hc |].
  rewrite He. apply lastn_all. simpl. lia.
Qed.

(** X4.  The first call after [reset] depends on its own arguments only: the
    derivative term is zero, [p] is the error times [k_p], the integral term
    is the decayed sum of the error's contribution and of the bleed towards
    the applied output, and the history holds the one error. *)
Theorem first_update_after_reset :
  forall (self self' : pid.PIDController)
         (setpoint measurement last_output speed feedforward deadzone c : Q),
    pid.update (pid.reset self) setpoint measurement last_output speed feedforward
      deadzone = Ok (self', c) ->
    let error := pid.apply_deadzone (setpoint - measurement) deadzone in
    exists kp ki lo hi,
      numpy_fast.interp speed (fst (pid._k_p self)) (snd (pid._k_p self)) = Ok kp
      /\ numpy_fast.interp speed (fst (pid._k_i self)) (snd (pid._k_i self)) = Ok ki
      /\ pid.neg_limit self = Some lo /\ pid.pos_limit self = Some hi
      /\ pid.p self' = error * kp
      /\ pid.f self' = numpy_fast.clip (feedforward * pid.k_f self) lo hi
      /\ pid.i self'
         == pid.i_decay_factor self
            * (error * ki * pid.i_rate self + pid.i_unwind_rate self * last_output)
      /\ c = numpy_fast.clip
               (error * kp
                + (0 + error * ki * pid.i_rate self
                   - pid.i_unwind_rate self * (0 + 0 + 0 - last_output))
                + pid.f self' + 0) lo hi
      /\ pid.errors self' = [error].
Proof. exact first_update_terms. Qed.

Lemma first_update_after_reset_witness :
  exists self' c,
    pid.update (pid.reset used_pid) 1 (1 # 2) (1 # 4) 5 0 0 = Ok (self', c)
    /\ pid.i self' == (99 # 100) * ((1 # 2) * (1 # 2) * (1 # 100) + (1 # 100) * (1 # 4))
    /\ pid.errors self' = [pid.apply_deadzone (1 - (1 # 2)) 0].
Proof.
  destruct (pid.update (pid.reset used_pid) 1 (1 # 2) (1 # 4) 5 0 0)
    as [[s c] | e] eqn:H; [| vm_compute in H; discriminate H].
  exists s, c. split; [reflexivity |].
  pose proof (first_update_after_reset used_pid s 1 (1 # 2) (1 # 4) 5 0 0 c H) as H0.
  cbv zeta in H0.
  destruct H0 as (kp & ki & lo & hi & _ & Hki & _ & _ & _ & _ & Hi & _ & He).
  vm_compute in Hki. injection Hki as <-.
  split; [| exact He].
  rewrite Hi. vm_compute. reflexivity.
Defined.

(** X5.  A limit left at [None] makes every call of [update] raise; when the
    gain tables are usable and the derivative period is at least one frame the
    exception is a [TypeError], that of ordering a float against [None]. *)
Theorem update_raises_without_limits :
  forall (self : pid.PIDController)
         (setpoint measurement last_output speed feedforward deadzone : Q),
    pid.neg_limit self = None \/ pid.pos_limit self = None ->
    raises (pid.update self setpoint measurement last_output speed feedforward
              deadzone) = true
    /\ (well_formed self ->
        exists msg,
          pid.update self setpoint measurement last_output speed feedforward deadzone
          = Raise (TypeError msg)).
Proof.
  intros self sp m L v ff dz Hnone.
  assert (Hclip : forall x,
             numpy_fast.clip_opt x (pid.neg_limit self) (pid.pos_limit self)
             = Raise (TypeError "'<' not supported between 'float' and 'NoneType'")).
  { intros x. unfold numpy_fast.clip_opt.
    destruct Hnone as [-> | ->]; [reflexivity |].
    destruct (pid.neg_limit self); reflexivity. }
  split.
  - unfold pid.update.
    apply raises_bind. intros kp. apply raises_bind. intros ki.
    apply raises_bind. intros d.
    cbn [pid.neg_limit pid.pos_limit pid.set_f pid.set_i pid.set_p pid.set_speed pid.f].
    rewrite Hclip. reflexivity.
  - intros Hwf. pose proof Hwf as (Hkp & Hki & _).
    destruct (gain_total v _ Hkp) as (kp & Ekp).
    destruct (gain_total v _ Hki) as (ki & Eki).
    destruct (derivative_total (pid.set_speed self v) v
                (pid.apply_deadzone (sp - m) dz)) as (d & Ed);
      [exact Hwf | reflexivity |].
    unfold pid.update.
    unfold pid.k_p at 1. cbn [pid.get_speed pid.set_speed pid.speed pid._k_p bind].
    rewrite Ekp. cbv beta iota delta [bind].
    unfold pid.k_i at 1.
    cbn [pid.get_speed pid.set_speed pid.set_p pid.speed pid._k_i bind].
    rewrite Eki. cbv beta iota delta [bind].
    match goal with
    | |- context [pid.derivative ?s ?e] =>
        change (pid.derivative s e)
          with (pid.derivative (pid.set_speed self v) e)
    end.
    rewrite Ed. cbv beta iota delta [bind].
    cbn [pid.neg_limit pid.pos_limit pid.set_f pid.set_i pid.set_p pid.set_speed pid.f].
    rewrite Hclip. eexists. reflexivity.
Qed.

(** A PID object built with the default limits ([None], [None]), as
    [LongControl.__init__] asks for. *)
Definition unlimited_pid : pid.PIDController :=
  pid.set_pos_limit (pid.set_neg_limit sample_pid None) None.

Lemma update_raises_without_limits_witness :
  exists msg, pid.update unlimited_pid 1 (1 # 2) 0 5 0 0 = Raise (TypeError msg).
Proof.
  apply (update_raises_without_limits unlimited_pid 1 (1 # 2) 0 5 0 0
           (or_introl eq_refl)).
  unfold well_formed, table_ok. simpl. repeat split; try discriminate; lia.
Defined.

(** A PID object whose derivative period rounds to zero frames. *)
Definition periodless_pid : pid.PIDController :=
  {| pid._k_p := ([0], [1]);
     pid._k_i := ([0], [1]);
     pid._k_d := ([0], [1]);
     pid.k_f := 1;
     pid.i_decay_factor := 99 # 100;
     pid.pos_limit := Some 1;
     pid.neg_limit := Some (- (1));
     pid.i_unwind_rate := 1 # 100;
     pid.i_rate := 1 # 100;
     pid._d_period := 0;
     pid.speed := None;
     pid.p := 0; pid.i := 0; pid.f := 0; pid.control := 0;
     pid.errors := [] |}.

(** X6.  A derivative period of zero frames or less makes every call of
    [update] raise: at zero the derivative reads an empty history or divides
    by zero; below zero, at the latest, the trimming loop pops from an empty
    list. *)
Theorem update_needs_period :
  forall (self : pid.PIDController)
         (setpoint measurement last_output speed feedforward deadzone : Q),
    (pid._d_period self <= 0)%Z ->
    raises (pid.update self setpoint measurement last_output speed feedforward
              deadzone) = true.
Proof. exact update_raises_without_period. Qed.

Lemma update_needs_period_witness :
  raises (pid.update periodless_pid 1 (1 # 2) 0 5 0 0) = true.
Proof.
  apply (update_needs_period periodless_pid 1 (1 # 2) 0 5 0 0).
  simpl. lia.
Defined.

(* ===================================================================== *)
(** ** The PID core: rest, and the direction of the anti-windup bleed *)
(* ===================================================================== *)

Lemma clip_exact (x lo hi : Q) :
  lo <= x -> x <= hi -> numpy_fast.clip x lo hi == x.
Proof.
  intros H1 H2. unfold numpy_fast.clip.
  destruct (min_cases hi x) as [[-> H3] | [-> H3]].
  - destruct (max_cases lo x) as [[-> H4] | [-> H4]]; lra.
  - destruct (max_cases lo hi) as [[-> H4] | [-> H4]]; lra.
Qed.

Lemma clip_monotone (x y lo hi : Q) :
  x <= y -> numpy_fast.clip x lo hi <= numpy_fast.clip y lo hi.
Proof.
  intros H. unfold numpy_fast.clip.
  destruct (min_cases hi x) as [[-> H1] | [-> H1]];
    destruct (min_cases hi y) as [[-> H2] | [-> H2]];
    repeat match goal with
           | |- context [Py.max ?a ?b] =>
               let E := fresh "E" in
               destruct (max_cases a b) as [[E ?] | [E ?]]; rewrite E
           end; lra.
Qed.

Lemma clip_equal (x y lo hi : Q) :
  x == y -> numpy_fast.clip x lo hi == numpy_fast.clip y lo hi.
Proof.
  intros H. apply Qle_antisym; apply clip_monotone; lra.
Qed.

Lemma In_skipn {A : Type} (k : nat) (l : list A) (x : A) :
  In x (skipn k l) -> In x l.
Proof.
  revert l. induction k as [| k IH]; intros [| a l] H; simpl in *; auto.
Qed.

Lemma index_In {A : Type} (l : list A) (i : Z) (x : A) :
  Py.index l i = Ok x -> In x l.
Proof.
  unfold Py.index. cbv zeta.
  destruct (_ || _); [discriminate |].
  destruct (nth_error l _) eqn:E; [| discriminate].
  intros H. injection H as <-. eapply nth_error_In, E.
Qed.

(** An object is at rest when its three terms and its command are zero and
    its history holds zeros only; a tick is quiet when the error is inside
    the deadzone and both the feedforward and the applied output are zero. *)
Definition at_rest (self : pid.PIDController) : Prop :=
  pid.p self == 0 /\ pid.i self == 0 /\ pid.f self == 0 /\ pid.control self == 0
  /\ Forall (fun e => e == 0) (pid.errors self).

Definition quiet (t : tick) : Prop :=
  Qabs (t_setpoint t - t_measurement t) <= t_deadzone t
  /\ t_feedforward t == 0 /\ t_last_output t == 0.

Lemma quiet_tick_keeps_rest (self self' : pid.PIDController) (t : tick) (c lo hi : Q) :
  at_rest self ->
  pid.neg_limit self = Some lo -> pid.pos_limit self = Some hi ->
  lo <= 0 -> 0 <= hi ->
  quiet t ->
  update_tick self t = Ok (self', c) ->
  at_rest self' /\ c == 0.
Proof.
  intros (Hp & Hi & Hf & _ & Herr) Hlo Hhi Hneg Hpos (Hq & Hff & HL) H.
  unfold update_tick in H.
  pose proof (update_Ok_period _ _ _ _ _ _ _ _ _ H) as HD.
  destruct (update_history _ _ _ _ _ _ _ _ _ H) as (He & _).
  destruct (update_Ok_inv _ _ _ _ _ _ _ _ _ H)
    as (kp & ki & d & fc & errs & lo' & hi' & _ & _ & Hd & Hlo' & Hhi' & Hfc & _ & Hc & Hs).
  rewrite Hlo in Hlo'. injection Hlo' as <-.
  rewrite Hhi in Hhi'. injection Hhi' as <-.
  rewrite (apply_deadzone_inside _ _ Hq) in *.
  assert (Hd0 : d == 0).
  { unfold pid.derivative in Hd.
    destruct (_ >=? _)%Z; [| injection Hd as <-; reflexivity].
    bind_inv Hd. rename a into e_old, Ha into Hold.
    bind_inv Hd. rename a into q, Ha into Hq'.
    bind_inv Hd. rename a into kd. injection Hd as <-.
    unfold Py.div in Hq'. destruct (Qeq_bool _ 0); [discriminate |].
    injection Hq' as <-.
    apply index_In in Hold. cbn [pid.errors pid.set_speed] in Hold.
    rewrite Forall_forall in Herr. rewrite (Herr _ Hold).
    unfold Qdiv. ring. }
  assert (Hfc0 : fc == 0).
  { rewrite Hfc.
    rewrite (clip_equal (t_feedforward t * pid.k_f self) 0 lo hi)
      by (rewrite Hff; ring).
    apply clip_exact; assumption. }
  assert (Hi' : pid.i_decay_factor self
                * (pid.i self + 0 * ki * pid.i_rate self
                   - pid.i_unwind_rate self
                     * (pid.p self + pid.i self + pid.f self - t_last_output t))
                == 0)
    by (rewrite Hp, Hi, Hf, HL; ring).
  assert (Hc0 : c == 0).
  { rewrite Hc.
    rewrite (clip_equal _ 0 lo hi); [apply clip_exact; assumption |].
    rewrite Hp, Hi, Hf, HL, Hfc0, Hd0. ring. }
  split; [| exact Hc0].
  subst self'. unfold at_rest. cbn [pid.p pid.i pid.f pid.control pid.errors].
  split; [ring | split; [exact Hi' | split; [exact Hfc0 | split; [exact Hc0 |]]]].
  change errs with (pid.errors
                      {| pid._k_p := pid._k_p self; pid._k_i := pid._k_i self;
                         pid._k_d := pid._k_d self; pid.k_f := pid.k_f self;
                         pid.i_decay_factor := pid.i_decay_factor self;
                         pid.pos_limit := pid.pos_limit self;
                         pid.neg_limit := pid.neg_limit self;
                         pid.i_unwind_rate := pid.i_unwind_rate self;
                         pid.i_rate := pid.i_rate self;
                         pid._d_period := pid._d_period self;
                         pid.speed := Some (t_speed t);
                         pid.p := 0 * kp;
                         pid.i := pid.i_decay_factor self
                                  * (pid.i self + 0 * ki * pid.i_rate self
                                     - pid.i_unwind_rate self
                                       * (pid.p self + pid.i self + pid.f self
                                          - t_last_output t));
                         pid.f := fc; pid.control := c; pid.errors := errs |}).
  rewrite He. apply Forall_forall. intros x Hx.
  unfold lastn in Hx. apply In_skipn in Hx. apply in_app_or in Hx.
  destruct Hx as [Hx | [<- | []]]; [| reflexivity].
  rewrite Forall_forall in Herr. now apply Herr.
Qed.

(** X7.  Rest is kept: from an object at rest, with limits that bracket zero,
    any number of quiet ticks leaves the object at rest, so the controller
    commands nothing on its own. *)
Theorem rest_is_kept :
  forall (ts : list tick) (self self' : pid.PIDController) (lo hi : Q),
    at_rest self ->
    pid.neg_limit self = Some lo -> pid.pos_limit self = Some hi ->
    lo <= 0 -> 0 <= hi ->
    Forall quiet ts ->
    run self ts = Ok self' ->
    at_rest self'.
Proof.
  induction ts as [| t ts IH]; intros self self' lo hi Hrest Hlo Hhi Hneg Hpos Hq H;
    simpl in H.
  - injection H as <-. exact Hrest.
  - bind_inv H. destruct a as [s1 c].
    inversion Hq as [| t' ts' Hqt Hqts]; subst.
    destruct (quiet_tick_keeps_rest self s1 t c lo hi Hrest Hlo Hhi Hneg Hpos Hqt Ha)
      as (Hrest1 & _).
    destruct (update_frame _ _ _ _ _ _ _ _ _ Ha)
      as ((_ & _ & _ & _ & _ & T6 & T7 & _) & _).
    apply (IH s1 self' lo hi); try assumption; congruence.
Qed.

(** Two quiet ticks: measurement on the setpoint, and an error of 0.05
    inside a deadzone of 0.1. *)
Definition quiet_ticks : list tick :=
  [ {| t_setpoint := 1; t_measurement := 1; t_last_output := 0;
       t_speed := 5; t_feedforward := 0; t_deadzone := 0 |};
    {| t_setpoint := 1; t_measurement := 95 # 100; t_last_output := 0;
       t_speed := 7; t_feedforward := 0; t_deadzone := 1 # 10 |} ].

Lemma rest_is_kept_witness :
  exists self', run (pid.reset used_pid) quiet_ticks = Ok self' /\ at_rest self'.
Proof.
  assert (Hrest : at_rest (pid.reset used_pid)).
  { unfold at_rest. simpl. repeat split; try reflexivity. constructor. }
  assert (Hq : Forall quiet quiet_ticks).
  { unfold quiet_ticks, quiet.
    repeat constructor; simpl; try reflexivity; vm_compute; intro Hc; discriminate Hc. }
  destruct (run (pid.reset used_pid) quiet_ticks) as [s | e] eqn:Hrun;
    [| vm_compute in Hrun; discriminate Hrun].
  exists s. split; [reflexivity |].
  exact (rest_is_kept quiet_ticks (pid.reset used_pid) s (- (1)) 1 Hrest
           eq_refl eq_refl ltac:(q_order) ltac:(q_order) Hq Hrun).
Defined.

(** X8.  The anti-windup bleed pulls towards the applied output: with a
    non-negative unwind rate and decay factor, the same call made with a
    larger applied output ends with a larger (or equal) integral term and
    returns a larger (or equal) command; [p], [f] and the history do not
    depend on the applied output. *)
Theorem update_monotone_in_last_output :
  forall (self s1 s2 : pid.PIDController)
         (setpoint measurement speed feedforward deadzone L1 L2 c1 c2 : Q),
    0 <= pid.i_unwind_rate self -> 0 <= pid.i_decay_factor self ->
    L1 <= L2 ->
    pid.update self setpoint measurement L1 speed feedforward deadzone = Ok (s1, c1) ->
    pid.update self setpoint measurement L2 speed feedforward deadzone = Ok (s2, c2) ->
    pid.i s1 <= pid.i s2 /\ c1 <= c2
    /\ pid.p s1 = pid.p s2 /\ pid.f s1 = pid.f s2 /\ pid.errors s1 = pid.errors s2.
Proof.
  intros self s1 s2 sp m v ff dz L1 L2 c1 c2 Hu Hd HL H1 H2.
  destruct (update_Ok_inv _ _ _ _ _ _ _ _ _ H1)
    as (kp & ki & d & fc & errs & lo & hi
        & Hkp & Hki & Hder & Hlo & Hhi & Hfc & Htrim & Hc1 & Hs1).
  destruct (update_Ok_inv _ _ _ _ _ _ _ _ _ H2)
    as (kp' & ki' & d' & fc' & errs' & lo' & hi'
        & Hkp' & Hki' & Hder' & Hlo' & Hhi' & Hfc' & Htrim' & Hc2 & Hs2).
  assert (kp' = kp) by congruence. assert (ki' = ki) by congruence.
  assert (d' = d) by congruence. assert (lo' = lo) by congruence.
  assert (hi' = hi) by congruence. assert (errs' = errs) by congruence.
  subst kp' ki' d' lo' hi' errs'. subst fc fc'.
  set (e := pid.apply_deadzone (sp - m) dz) in *.
  set (u := pid.i_unwind_rate self) in *.
  set (dc := pid.i_decay_factor self) in *.
  assert (HuL : u * L1 <= u * L2) by nra.
  assert (Hi1 : pid.i s1 = dc * (pid.i self + e * ki * pid.i_rate self
                                 - u * (pid.p self + pid.i self + pid.f self - L1)))
    by (rewrite Hs1; reflexivity).
  assert (Hi2 : pid.i s2 = dc * (pid.i self + e * ki * pid.i_rate self
                                 - u * (pid.p self + pid.i self + pid.f self - L2)))
    by (rewrite Hs2; reflexivity).
  split; [rewrite Hi1, Hi2; nra |].
  split; [rewrite Hc1, Hc2; apply clip_monotone; nra |].
  rewrite Hs1, Hs2. repeat split; reflexivity.
Qed.

Lemma update_monotone_in_last_output_witness :
  exists s1 s2 c1 c2,
    pid.update used_pid 1 (1 # 2) (- (1)) 5 0 0 = Ok (s1, c1)
    /\ pid.update used_pid 1 (1 # 2) 1 5 0 0 = Ok (s2, c2)
    /\ pid.i s1 <= pid.i s2 /\ c1 <= c2.
Proof.
  destruct (pid.update used_pid 1 (1 # 2) (- (1)) 5 0 0) as [[s1 c1] | e] eqn:H1;
    [| vm_compute in H1; discriminate H1].
  destruct (pid.update used_pid 1 (1 # 2) 1 5 0 0) as [[s2 c2] | e] eqn:H2;
    [| vm_compute in H2; discriminate H2].
  exists s1, s2, c1, c2. split; [reflexivity | split; [reflexivity |]].
  destruct (update_monotone_in_last_output used_pid s1 s2 1 (1 # 2) 5 0 0 (- (1)) 1
              c1 c2 ltac:(q_order) ltac:(q_order) ltac:(q_order) H1 H2)
    as (Hi & Hc & _).
  split; assumption.
Defined.

Lemma clip_positive (x lo hi : Q) : 0 < x -> 0 < hi -> 0 < numpy_fast.clip x lo hi.
Proof.
  intros Hx Hhi. unfold numpy_fast.clip.
  destruct (min_cases hi x) as [[-> H1] | [-> H1]].
  - destruct (max_cases lo x) as [[-> H2] | [-> H2]]; lra.
  - destruct (max_cases lo hi) as [[-> H2] | [-> H2]]; lra.
Qed.

Lemma clip_negative (x lo hi : Q) : x < 0 -> lo < 0 -> numpy_fast.clip x lo hi < 0.
Proof.
  intros Hx Hlo. unfold numpy_fast.clip.
  destruct (min_cases hi x) as [[-> H1] | [-> H1]].
  - destruct (max_cases lo x) as [[-> H2] | [-> H2]]; lra.
  - destruct (max_cases lo hi) as [[-> H2] | [-> H2]]; lra.
Qed.

(** X9.  On the first call after [reset], with no feedforward and no applied
    output, a positive [k_p], a non-negative [k_i] and integrator rate, and
    limits on both sides of zero, the command has the sign of the error: it is
    positive for a positive error, negative for a negative error and zero for
    no error. *)
Theorem fresh_command_follows_error :
  forall (self self' : pid.PIDController)
         (setpoint measurement speed deadzone c kp ki lo hi : Q),
    pid.update (pid.reset self) setpoint measurement 0 speed 0 deadzone
    = Ok (self', c) ->
    numpy_fast.interp speed (fst (pid._k_p self)) (snd (pid._k_p self)) = Ok kp ->
    numpy_fast.interp speed (fst (pid._k_i self)) (snd (pid._k_i self)) = Ok ki ->
    pid.neg_limit self = Some lo -> pid.pos_limit self = Some hi ->
    0 < kp -> 0 <= ki -> 0 <= pid.i_rate self -> lo < 0 -> 0 < hi ->
    let error := pid.apply_deadzone (setpoint - measurement) deadzone in
    (0 < error -> 0 < c) /\ (error < 0 -> c < 0) /\ (error == 0 -> c == 0).
Proof.
  intros self self' sp m v dz c kp ki lo hi H Hkp Hki Hlo Hhi Hkp0 Hki0 Hr Hneg Hpos
    error.
  pose proof (first_update_terms _ _ _ _ _ _ _ _ _ H) as H0.
  cbv zeta in H0.
  destruct H0 as (kp' & ki' & lo' & hi' & Hkp' & Hki' & Hlo' & Hhi' & _ & Hf & _ & Hc & _).
  assert (kp' = kp) by congruence. assert (ki' = ki) by congruence.
  assert (lo' = lo) by congruence. assert (hi' = hi) by congruence.
  subst kp' ki' lo' hi'. fold error in Hc.
  assert (Hf0 : pid.f self' == 0).
  { rewrite Hf. rewrite (clip_equal (0 * pid.k_f self) 0 lo hi) by ring.
    apply clip_exact; lra. }
  set (r := pid.i_rate self) in *.
  assert (Hg : 0 < kp + ki * r) by nra.
  assert (Hraw : error * kp
                 + (0 + error * ki * r - pid.i_unwind_rate self * (0 + 0 + 0 - 0))
                 + pid.f self' + 0
                 == error * (kp + ki * r))
    by (rewrite Hf0; ring).
  rewrite Hc. split; [| split]; intros He.
  - apply clip_positive; [| assumption]. rewrite Hraw. nra.
  - apply clip_negative; [| assumption]. rewrite Hraw. nra.
  - rewrite (clip_equal _ 0 lo hi); [apply clip_exact; lra |].
    rewrite Hraw, He. ring.
Qed.

Lemma fresh_command_follows_error_witness :
  exists self' c,
    pid.update (pid.reset used_pid) 1 (1 # 2) 0 5 0 0 = Ok (self', c) /\ 0 < c.
Proof.
  destruct (numpy_fast.interp 5 (fst (pid._k_p used_pid)) (snd (pid._k_p used_pid)))
    as [kp | e] eqn:Hkp; [| vm_compute in Hkp; discriminate Hkp].
  destruct (numpy_fast.interp 5 (fst (pid._k_i used_pid)) (snd (pid._k_i used_pid)))
    as [ki | e] eqn:Hki; [| vm_compute in Hki; discriminate Hki].
  assert (Hkp0 : 0 < kp)
    by (vm_compute in Hkp; injection Hkp as <-; vm_compute; reflexivity).
  assert (Hki0 : 0 <= ki)
    by (vm_compute in Hki; injection Hki as <-; vm_compute; intro Hc; discriminate Hc).
  destruct (pid.update (pid.reset used_pid) 1 (1 # 2) 0 5 0 0) as [[s c] | e] eqn:H;
    [| vm_compute in H; discriminate H].
  exists s, c. split; [reflexivity |].
  pose proof (fresh_command_follows_error used_pid s 1 (1 # 2) 5 0 c
                kp ki (- (1)) 1 H Hkp Hki eq_refl eq_refl Hkp0 Hki0
                ltac:(q_order) ltac:(q_order) ltac:(q_order)) as H0.
  cbv zeta in H0. destruct H0 as (Hp & _).
  apply Hp. vm_compute. reflexivity.
Defined.

(* ===================================================================== *)
(** ** The deadzone as a function of the error *)
(* ===================================================================== *)

(** X10.  For a deadzone [>= 0], [apply_deadzone] is odd in the error, never
    larger in magnitude than the error, and the identity when the deadzone is
    zero (the case of the lateral controller). *)
Theorem apply_deadzone_odd :
  forall (error deadzone : Q),
    0 <= deadzone ->
    pid.apply_deadzone (- error) deadzone == - pid.apply_deadzone error deadzone
    /\ Qabs (pid.apply_deadzone error deadzone) <= Qabs error
    /\ (deadzone == 0 -> pid.apply_deadzone error deadzone == error).
Proof.
  intros e dz Hdz. split; [| split].
  - unfold pid.apply_deadzone.
    case_lt dz (- e); case_lt dz e; try lra;
      case_lt (- e) (- dz); try lra; case_lt e (- dz); lra.
  - now apply apply_deadzone_abs.
  - intros H0. unfold pid.apply_deadzone.
    case_lt dz e; [lra |]. case_lt e (- dz); lra.
Qed.

Lemma apply_deadzone_odd_witness :
  pid.apply_deadzone (- (3 # 4)) (1 # 4) == - pid.apply_deadzone (3 # 4) (1 # 4)
  /\ pid.apply_deadzone (3 # 4) 0 == 3 # 4.
Proof.
  destruct (apply_deadzone_odd (3 # 4) (1 # 4) ltac:(q_order)) as (H1 & _).
  destruct (apply_deadzone_odd (3 # 4) 0 ltac:(q_order)) as (_ & _ & H3).
  split; [exact H1 | apply H3; reflexivity].
Defined.

(** X11.  For a deadzone [>= 0], [apply_deadzone] is non-decreasing in the
    error and never stretches a difference of errors: it has no jump at the
    edge of the deadzone. *)
Theorem apply_deadzone_monotone :
  forall (a b deadzone : Q),
    0 <= deadzone ->
    (a <= b -> pid.apply_deadzone a deadzone <= pid.apply_deadzone b deadzone)
    /\ Qabs (pid.apply_deadzone a deadzone - pid.apply_deadzone b deadzone)
       <= Qabs (a - b).
Proof.
  intros a b dz Hdz.
  assert (Hmono : forall x y, x <= y ->
            pid.apply_deadzone x dz <= pid.apply_deadzone y dz
            /\ pid.apply_deadzone y dz - pid.apply_deadzone x dz <= y - x).
  { intros x y Hxy. unfold pid.apply_deadzone.
    case_lt dz x; case_lt dz y; try lra;
      try (case_lt x (- dz)); try (case_lt y (- dz)); lra. }
  split; [intros H; apply Hmono; exact H |].
  destruct (Qlt_le_dec a b) as [Hab | Hba].
  - destruct (Hmono a b ltac:(lra)) as [H1 H2].
    rewrite (Qabs_neg (a - b)) by lra.
    rewrite Qabs_neg by lra. lra.
  - destruct (Hmono b a Hba) as [H1 H2].
    rewrite (Qabs_pos (a - b)) by lra.
    rewrite Qabs_pos by lra. lra.
Qed.

Lemma apply_deadzone_monotone_witness :
  pid.apply_deadzone (1 # 5) (1 # 4) <= pid.apply_deadzone (3 # 4) (1 # 4)
  /\ Qabs (pid.apply_deadzone (1 # 5) (1 # 4) - pid.apply_deadzone (3 # 4) (1 # 4))
     <= Qabs ((1 # 5) - (3 # 4)).
Proof.
  destruct (apply_deadzone_monotone (1 # 5) (3 # 4) (1 # 4) ltac:(q_order))
    as (H1 & H2).
  split; [apply H1; q_order | exact H2].
Defined.

(** X12.  With a negative deadzone nothing is cut out: an error above the
    deadzone is pushed up by its magnitude, any other error is pushed down by
    it, and the result is never zero. *)
Theorem apply_deadzone_negative :
  forall (error deadzone : Q),
    deadzone < 0 ->
    (deadzone < error ->
       pid.apply_deadzone error deadzone = error - deadzone
       /\ 0 < pid.apply_deadzone error deadzone)
    /\ (error <= deadzone ->
        pid.apply_deadzone error deadzone = error + deadzone
        /\ pid.apply_deadzone error deadzone < 0)
    /\ ~ pid.apply_deadzone error deadzone == 0.
Proof.
  intros e dz Hdz. unfold pid.apply_deadzone.
  case_lt dz e.
  - split; [intros _; split; [reflexivity | lra] |].
    split; [intros Hc; lra | lra].
  - case_lt e (- dz); [| lra].
    split; [intros Hc; lra |].
    split; [intros _; split; [reflexivity | lra] | lra].
Qed.

Lemma apply_deadzone_negative_witness :
  pid.apply_deadzone 0 (- (1)) = 0 - - (1) /\ 0 < pid.apply_deadzone 0 (- (1)).
Proof.
  destruct (apply_deadzone_negative 0 (- (1)) ltac:(q_order)) as (H1 & _).
  apply H1. q_order.
Defined.

(* ===================================================================== *)
(** ** Gains given as numbers *)
(* ===================================================================== *)

(** X13.  A gain given as a number is the same at every speed: the one-point
    table [__init__] makes of it is usable and schedules that number. *)
Theorem scalar_gain_is_constant :
  forall (k v : Q),
    table_ok (pid.as_table (pid.Number k))
    /\ numpy_fast.interp v (fst (pid.as_table (pid.Number k)))
         (snd (pid.as_table (pid.Number k))) = Ok k
    /\ (forall self,
          pid._k_p self = pid.as_table (pid.Number k) ->
          pid.k_p (pid.set_speed self v) = Ok k)
    /\ (forall self,
          pid._k_i self = pid.as_table (pid.Number k) ->
          pid.k_i (pid.set_speed self v) = Ok k)
    /\ (forall self,
          pid._k_d self = pid.as_table (pid.Number k) ->
          pid.k_d (pid.set_speed self v) = Ok k).
Proof.
  intros k v.
  assert (H : numpy_fast.interp v (fst (pid.as_table (pid.Number k)))
                (snd (pid.as_table (pid.Number k))) = Ok k).
  { unfold numpy_fast.interp. simpl.
    destruct (Py.gt v 0) eqn:E; simpl; [rewrite E |]; reflexivity. }
  split; [unfold table_ok; simpl; split; [discriminate | lia] |].
  split; [exact H |].
  split; [| split]; intros self Ht.
  - unfold pid.k_p. cbn [pid.get_speed pid.set_speed pid.speed pid._k_p bind].
    rewrite Ht. exact H.
  - unfold pid.k_i. cbn [pid.get_speed pid.set_speed pid.speed pid._k_i bind].
    rewrite Ht. exact H.
  - unfold pid.k_d. cbn [pid.get_speed pid.set_speed pid.speed pid._k_d bind].
    rewrite Ht. exact H.
Qed.

Lemma scalar_gain_is_constant_witness :
  pid.k_i (pid.set_speed sample_pid 33) = Ok (1 # 2)
  /\ pid.k_d (pid.set_speed sample_pid (- (4))) = Ok 1.
Proof.
  split.
  - exact (proj1 (proj2 (proj2 (proj2 (scalar_gain_is_constant (1 # 2) 33))))
             sample_pid eq_refl).
  - exact (proj2 (proj2 (proj2 (proj2 (scalar_gain_is_constant 1 (- (4))))))
             sample_pid eq_refl).
Defined.

(* ===================================================================== *)
(** ** The lateral controller: the active branch *)
(* ===================================================================== *)

Section LatActive.

Variable LatControl : Type.
Variable LatControl_reset : LatControl -> LatControl.
Variable LatControl_check_saturation :
  LatControl -> bool -> car.CarState -> LatControl * bool.
Variable MIN_STEER_SPEED : Q.
Variable get_steer_max : car.CarParams -> Q -> Q.
Variable degrees : Q -> Q.

(** What an active tick that returns has done, step by step. *)
Lemma lat_active_inv (self self' : latcontrol_pid.LatControlPID LatControl)
  (CS : car.CarState) (CP : car.CarParams) (CI : latcontrol_pid.CarInterface)
  (VM : latcontrol_pid.VehicleModel) (params : latcontrol_pid.LiveParameters)
  (desired_curvature desired_curvature_rate roll output_steer angle_steers_des : Q)
  (pid_log : latcontrol_pid.LateralPIDState) :
  MIN_STEER_SPEED <= car.vEgo CS ->
  latcontrol_pid.update LatControl LatControl_reset
    LatControl_check_saturation MIN_STEER_SPEED get_steer_max degrees
    self true CS CP CI VM params desired_curvature desired_curvature_rate roll
  = Ok (self', (output_steer, angle_steers_des, pid_log)) ->
  let steers_max := get_steer_max CP (car.vEgo CS) in
  let no_offset :=
    degrees (latcontrol_pid.get_steer_from_curvature VM (- desired_curvature)
               (car.vEgo CS) roll) in
  exists c,
    pid.update
      (pid.set_neg_limit
         (pid.set_pos_limit (latcontrol_pid.pid LatControl self) (Some steers_max))
         (Some (- steers_max)))
      (no_offset + latcontrol_pid.angleOffsetDeg params) (car.steeringAngleDeg CS)
      (latcontrol_pid.last_output_fed LatControl self CI) (car.vEgo CS)
      (latcontrol_pid.get_steer_feedforward LatControl self no_offset (car.vEgo CS)) 0
    = Ok (c, output_steer)
    /\ latcontrol_pid.pid LatControl self' = c
    /\ angle_steers_des = no_offset + latcontrol_pid.angleOffsetDeg params
    /\ latcontrol_pid.log_active pid_log = true
    /\ latcontrol_pid.log_output pid_log = output_steer
    /\ latcontrol_pid.log_p pid_log = pid.p c
    /\ latcontrol_pid.log_i pid_log = pid.i c
    /\ latcontrol_pid.log_f pid_log = pid.f c
    /\ latcontrol_pid.log_angleError pid_log
       = angle_steers_des - car.steeringAngleDeg CS.
Proof.
  intros Hv H steers_max no_offset.
  unfold latcontrol_pid.update in H.
  apply lt_false in Hv. rewrite Hv in H. cbn [negb orb] in H.
  bind_inv H. destruct a as [[s1 out1] log1].
  injection H as <- <- <- <-.
  bind_inv Ha. destruct a as [c out0].
  rewrite call_update_lat in Ha0.
  destruct (LatControl_check_saturation _ _ _) as [b sat].
  injection Ha as <- <- <-.
  exists c. cbn. repeat split. exact Ha0.
Qed.

(** X14.  An active tick at or above the minimum steer speed sets the limits
    of the PID core to plus and minus the steering limit of the current speed,
    returns the command the core stored, reports the core's terms in the
    diagnostic record marked active, and, for a steering limit [>= 0], keeps
    the command within the limit. *)
Theorem lat_active_command :
  forall (self self' : latcontrol_pid.LatControlPID LatControl)
         (CS : car.CarState) (CP : car.CarParams) (CI : latcontrol_pid.CarInterface)
         (VM : latcontrol_pid.VehicleModel) (params : latcontrol_pid.LiveParameters)
         (desired_curvature desired_curvature_rate roll output_steer angle_steers_des : Q)
         (pid_log : latcontrol_pid.LateralPIDState),
    MIN_STEER_SPEED <= car.vEgo CS ->
    latcontrol_pid.update LatControl LatControl_reset
      LatControl_check_saturation MIN_STEER_SPEED get_steer_max degrees
      self true CS CP CI VM params desired_curvature desired_curvature_rate
      roll = Ok (self', (output_steer, angle_steers_des, pid_log)) ->
    let steers_max := get_steer_max CP (car.vEgo CS) in
    let core := latcontrol_pid.pid LatControl self' in
    pid.pos_limit core = Some steers_max
    /\ pid.neg_limit core = Some (- steers_max)
    /\ pid.speed core = Some (car.vEgo CS)
    /\ pid.control core = output_steer
    /\ latcontrol_pid.log_active pid_log = true
    /\ latcontrol_pid.log_output pid_log = output_steer
    /\ latcontrol_pid.log_p pid_log = pid.p core
    /\ latcontrol_pid.log_i pid_log = pid.i core
    /\ latcontrol_pid.log_f pid_log = pid.f core
    /\ (0 <= steers_max -> - steers_max <= output_steer /\ output_steer <= steers_max).
Proof.
  intros self self' CS CP CI VM params dc dcr roll out angle pid_log Hv H
    steers_max core.
  pose proof (lat_active_inv self self' CS CP CI VM params dc dcr roll out angle
                pid_log Hv H) as H0.
  cbv zeta in H0.
  destruct H0 as (c & Hup & Hc & _ & Hact & Hout & Hp & Hi & Hf & _).
  unfold core. rewrite Hc.
  destruct (update_frame _ _ _ _ _ _ _ _ _ Hup)
    as ((_ & _ & _ & _ & _ & T6 & T7 & _) & Hspeed).
  cbn [pid.pos_limit pid.neg_limit pid.set_neg_limit pid.set_pos_limit] in T6, T7.
  split; [symmetry; exact T6 |]. split; [symmetry; exact T7 |].
  split; [exact Hspeed |].
  assert (Hctl : pid.control c = out).
  { destruct (update_Ok_inv _ _ _ _ _ _ _ _ _ Hup)
      as (kp & ki & d & fc & errs & lo & hi & _ & _ & _ & _ & _ & _ & _ & _ & Hs).
    rewrite Hs. reflexivity. }
  split; [exact Hctl |].
  repeat (split; [assumption |]).
  intros Hsm.
  destruct (update_Ok_inv _ _ _ _ _ _ _ _ _ Hup)
    as (kp & ki & d & fc & errs & lo & hi & _ & _ & _ & Hlo & Hhi & _ & _ & Hcl & _).
  cbn [pid.pos_limit pid.neg_limit pid.set_neg_limit pid.set_pos_limit] in Hlo, Hhi.
  injection Hlo as <-. injection Hhi as <-.
  rewrite Hcl. unfold steers_max in *. apply clip_range. lra.
Qed.

(** X15.  An inactive tick erases the memory of the PID core: take two
    controllers with the same tuning, the same feedforward function and the
    same [output_steer_last], give each an inactive tick of its own, then the
    same active tick to both.  They return the same command and the same
    desired angle, and their PID cores end up equal. *)
Theorem lat_inactive_then_active :
  forall (a a1 a2 b b1 b2 : latcontrol_pid.LatControlPID LatControl)
         (active_a active_b : bool) (CS_a CS_b CS : car.CarState)
         (CP : car.CarParams) (CI : latcontrol_pid.CarInterface)
         (VM : latcontrol_pid.VehicleModel) (params : latcontrol_pid.LiveParameters)
         (curv_a rate_a roll_a curv_b rate_b roll_b : Q)
         (desired_curvature desired_curvature_rate roll : Q)
         (ra rb : Q * Q * latcontrol_pid.LateralPIDState)
         (out_a angle_a out_b angle_b : Q)
         (log_a log_b : latcontrol_pid.LateralPIDState),
    same_tuning (latcontrol_pid.pid LatControl a) (latcontrol_pid.pid LatControl b) ->
    latcontrol_pid.get_steer_feedforward LatControl a
    = latcontrol_pid.get_steer_feedforward LatControl b ->
    latcontrol_pid.output_steer_last LatControl a
    = latcontrol_pid.output_steer_last LatControl b ->
    car.vEgo CS_a < MIN_STEER_SPEED \/ active_a = false ->
    car.vEgo CS_b < MIN_STEER_SPEED \/ active_b = false ->
    MIN_STEER_SPEED <= car.vEgo CS ->
    latcontrol_pid.update LatControl LatControl_reset
      LatControl_check_saturation MIN_STEER_SPEED get_steer_max degrees
      a active_a CS_a CP CI VM params curv_a rate_a roll_a = Ok (a1, ra) ->
    latcontrol_pid.update LatControl LatControl_reset
      LatControl_check_saturation MIN_STEER_SPEED get_steer_max degrees
      b active_b CS_b CP CI VM params curv_b rate_b roll_b = Ok (b1, rb) ->
    latcontrol_pid.update LatControl LatControl_reset
      LatControl_check_saturation MIN_STEER_SPEED get_steer_max degrees
      a1 true CS CP CI VM params desired_curvature desired_curvature_rate roll
    = Ok (a2, (out_a, angle_a, log_a)) ->
    latcontrol_pid.update LatControl LatControl_reset
      LatControl_check_saturation MIN_STEER_SPEED get_steer_max degrees
      b1 true CS CP CI VM params desired_curvature desired_curvature_rate roll
    = Ok (b2, (out_b, angle_b, log_b)) ->
    out_a = out_b /\ angle_a = angle_b
    /\ latcontrol_pid.pid LatControl a2 = latcontrol_pid.pid LatControl b2.
Proof.
  intros a a1 a2 b b1 b2 act_a act_b CS_a CS_b CS CP CI VM params
    ca ra' rla cb rb' rlb dc dcr roll ra rb out_a angle_a out_b angle_b log_a log_b
    Ht Hff Hlast Hia Hib Hv Ha1 Hb1 Ha2 Hb2.
  assert (Hinactive : forall s s1 act CS0 c r rl res,
             car.vEgo CS0 < MIN_STEER_SPEED \/ act = false ->
             latcontrol_pid.update LatControl LatControl_reset
               LatControl_check_saturation MIN_STEER_SPEED get_steer_max degrees
               s act CS0 CP CI VM params c r rl = Ok (s1, res) ->
             latcontrol_pid.pid LatControl s1
             = pid.reset (latcontrol_pid.pid LatControl s)
             /\ latcontrol_pid.get_steer_feedforward LatControl s1
                = latcontrol_pid.get_steer_feedforward LatControl s
             /\ latcontrol_pid.output_steer_last LatControl s1
                = latcontrol_pid.output_steer_last LatControl s).
  { intros s s1 act CS0 c r rl res Hin H.
    assert (Hc : Py.lt (car.vEgo CS0) MIN_STEER_SPEED || negb act = true).
    { destruct Hin as [Hin | ->].
      - apply lt_true in Hin. rewrite Hin. reflexivity.
      - apply orb_true_r. }
    unfold latcontrol_pid.update in H. rewrite Hc in H.
    cbn in H. injection H as <- _. cbn. repeat split. }
  destruct (Hinactive _ _ _ _ _ _ _ _ Hia Ha1) as (Pa & Fa & La).
  destruct (Hinactive _ _ _ _ _ _ _ _ Hib Hb1) as (Pb & Fb & Lb).
  pose proof (lat_active_inv a1 a2 CS CP CI VM params dc dcr roll out_a angle_a log_a
                Hv Ha2) as Ia.
  pose proof (lat_active_inv b1 b2 CS CP CI VM params dc dcr roll out_b angle_b log_b
                Hv Hb2) as Ib.
  cbv zeta in Ia, Ib.
  destruct Ia as (c_a & Hup_a & Hc_a & Hang_a & _).
  destruct Ib as (c_b & Hup_b & Hc_b & Hang_b & _).
  unfold latcontrol_pid.last_output_fed in Hup_a, Hup_b.
  rewrite Pa, Fa, La in Hup_a. rewrite Pb, Fb, Lb, <- Hff, <- Hlast in Hup_b.
  assert (E : forall x y sp m L v ff dz,
             pid.update
               (pid.set_neg_limit
                  (pid.set_pos_limit
                     (pid.reset (latcontrol_pid.pid LatControl a)) x) y)
               sp m L v ff dz
             = pid.update
                 (pid.set_neg_limit
                    (pid.set_pos_limit
                       (pid.reset (latcontrol_pid.pid LatControl b)) x) y)
                 sp m L v ff dz).
  { intros x y sp m L v ff dz.
    destruct (latcontrol_pid.pid LatControl a), (latcontrol_pid.pid LatControl b).
    unfold same_tuning in Ht. cbn in Ht.
    destruct Ht as (-> & -> & -> & -> & -> & _ & _ & -> & -> & ->).
    reflexivity. }
  rewrite E in Hup_a. rewrite Hup_a in Hup_b. injection Hup_b as <- <-.
  split; [reflexivity |]. split; [congruence | congruence].
Qed.

End LatActive.

Lemma lat_active_command_witness :
  exists self' output_steer angle_steers_des pid_log,
    sample_lat_update sample_lat true (- (1 # 114))
    = Ok (self', (output_steer, angle_steers_des, pid_log))
    /\ pid.pos_limit (latcontrol_pid.pid unit self') = Some 1
    /\ latcontrol_pid.log_active pid_log = true
    /\ latcontrol_pid.log_output pid_log = output_steer
    /\ - (1) <= output_steer /\ output_steer <= 1.
Proof.
  assert (Hv : 3 # 10 <= car.vEgo sample_CS) by q_order.
  assert (Hm : 0 <= 1) by q_order.
  unfold sample_lat_update.
  match goal with
  | |- context [latcontrol_pid.update ?a ?b ?c ?d ?e ?f ?g ?h ?i ?j ?k ?l ?m ?n ?o ?p] =>
      destruct (latcontrol_pid.update a b c d e f g h i j k l m n o p)
        as [[s [[out angle] lg]] | e0] eqn:H; [| vm_compute in H; discriminate H]
  end.
  exists s, out, angle, lg. split; [reflexivity |].
  pose proof (lat_active_command unit (fun b => b) (fun b _ _ => (b, false))
                (3 # 10) (fun _ _ => 1) (fun x => x * 57)
                sample_lat s sample_CS sample_CP sample_CI sample_VM sample_params
                (- (1 # 114)) 0 0 out angle lg Hv H) as H0.
  cbv zeta in H0.
  destruct H0 as (Hpos & _ & _ & _ & Hact & Hout & _ & _ & _ & Hrange).
  split; [exact Hpos | split; [exact Hact | split; [exact Hout |]]].
  exact (Hrange Hm).
Defined.

(** A lateral controller around [used_pid], in the middle of a drive. *)
Definition used_lat : latcontrol_pid.LatControlPID unit :=
  {| latcontrol_pid.base := tt;
     latcontrol_pid.pid := used_pid;
     latcontrol_pid.new_kf_tuned := false;
     latcontrol_pid.get_steer_feedforward := fun _ _ => 0;
     latcontrol_pid.output_steer_last := 0;
     latcontrol_pid.ouptut_steer_last := Some (1 # 3) |}.

Definition sample_lat_idle : latcontrol_pid.LatControlPID unit :=
  latcontrol_pid.set_ouptut_steer_last unit
    (latcontrol_pid.reset unit (fun b => b) sample_lat) 0.

Definition used_lat_idle : latcontrol_pid.LatControlPID unit :=
  latcontrol_pid.set_ouptut_steer_last unit
    (latcontrol_pid.reset unit (fun b => b) used_lat) 0.

Lemma lat_inactive_then_active_witness :
  exists ra rb a2 b2 out_a out_b angle_a angle_b log_a log_b,
    sample_lat_update sample_lat false 0 = Ok (sample_lat_idle, ra)
    /\ sample_lat_update used_lat false (1 # 50) = Ok (used_lat_idle, rb)
    /\ sample_lat_update sample_lat_idle true (- (1 # 114))
       = Ok (a2, (out_a, angle_a, log_a))
    /\ sample_lat_update used_lat_idle true (- (1 # 114))
       = Ok (b2, (out_b, angle_b, log_b))
    /\ out_a = out_b
    /\ latcontrol_pid.pid unit a2 = latcontrol_pid.pid unit b2.
Proof.
  unfold sample_lat_update.
  assert (Hv : 3 # 10 <= car.vEgo sample_CS) by q_order.
  assert (Ht : same_tuning (latcontrol_pid.pid unit sample_lat)
                 (latcontrol_pid.pid unit used_lat))
    by (unfold same_tuning; simpl; repeat split).
  assert (Ha1 : exists ra, (latcontrol_pid.update unit (fun b => b) (fun b _ _ => (b, false))
              (3 # 10) (fun _ _ => 1) (fun x => x * 57) sample_lat false sample_CS sample_CP
              sample_CI sample_VM sample_params 0 0 0)
                           = Ok (sample_lat_idle, ra))
    by (eexists; reflexivity).
  assert (Hb1 : exists rb, (latcontrol_pid.update unit (fun b => b) (fun b _ _ => (b, false))
              (3 # 10) (fun _ _ => 1) (fun x => x * 57) used_lat false sample_CS sample_CP
              sample_CI sample_VM sample_params (1 # 50) 0 0)
                           = Ok (used_lat_idle, rb))
    by (eexists; reflexivity).
  destruct Ha1 as (ra & Ha1). destruct Hb1 as (rb & Hb1).
  destruct (latcontrol_pid.update unit (fun b => b) (fun b _ _ => (b, false))
              (3 # 10) (fun _ _ => 1) (fun x => x * 57) sample_lat_idle true sample_CS sample_CP
              sample_CI sample_VM sample_params (- (1 # 114)) 0 0)
    as [[a2 [[oa aa] la]] | e] eqn:Ha2; [| vm_compute in Ha2; discriminate Ha2].
  destruct (latcontrol_pid.update unit (fun b => b) (fun b _ _ => (b, false))
              (3 # 10) (fun _ _ => 1) (fun x => x * 57) used_lat_idle true sample_CS sample_CP
              sample_CI sample_VM sample_params (- (1 # 114)) 0 0)
    as [[b2 [[ob ab] lb]] | e] eqn:Hb2; [| vm_compute in Hb2; discriminate Hb2].
  exists ra, rb, a2, b2, oa, ob, aa, ab, la, lb.
  split; [exact Ha1 |]. split; [exact Hb1 |].
  split; [reflexivity |]. split; [reflexivity |].
  destruct (lat_inactive_then_active unit (fun b => b) (fun b _ _ => (b, false))
              (3 # 10) (fun _ _ => 1) (fun x => x * 57)
              sample_lat sample_lat_idle a2 used_lat used_lat_idle b2 false false
              sample_CS sample_CS sample_CS
              sample_CP sample_CI sample_VM sample_params
              0 0 0 (1 # 50) 0 0 (- (1 # 114)) 0 0 ra rb oa aa ob ab la lb
              Ht eq_refl eq_refl (or_intror eq_refl) (or_intror eq_refl) Hv
              Ha1 Hb1 Ha2 Hb2) as (Ho & _ & Hp).
  split; assumption.
Defined.

(* ===================================================================== *)
(** ** The longitudinal controller: state machine and trajectory *)
(* ===================================================================== *)

(** X16.  Which states the table of lines 30-50 lets follow which.  Not
    active: always Off.  Active: never Off; from Off only Tracking; from
    Tracking never Starting; from Stopping never Tracking. *)
Theorem transition_edges :
  forall (CP : car.CarParams) (active : bool) (s : longcontrol.LongCtrlState.t)
         (v_ego v_target_future v_target output_accel : Q)
         (brake_pressed cruise_standstill : bool) (radarState : option car.RadarState),
    exists s',
      longcontrol.next_state CP active (longcontrol.LongCtrlState.value s) v_ego
        v_target_future v_target output_accel brake_pressed cruise_standstill
        radarState = longcontrol.LongCtrlState.value s'
      /\ (active = false -> s' = longcontrol.LongCtrlState.off)
      /\ (active = true ->
          s' <> longcontrol.LongCtrlState.off
          /\ (s = longcontrol.LongCtrlState.off -> s' = longcontrol.LongCtrlState.pid)
          /\ (s = longcontrol.LongCtrlState.pid ->
              s' <> longcontrol.LongCtrlState.starting)
          /\ (s = longcontrol.LongCtrlState.stopping ->
              s' <> longcontrol.LongCtrlState.pid)).
Proof.
  intros. rewrite next_state_is_table. eexists. split; [reflexivity |].
  destruct active, s; simpl;
    repeat match goal with |- context [if ?b then _ else _] => destruct b end;
    (split; [intros Hc; try discriminate Hc; reflexivity |]);
    intros Hc; try discriminate Hc;
    repeat split; intros; try discriminate; try reflexivity.
Qed.

(** X17.  When the state machine asks to stop and when it refuses to start.
    At 2 m/s or more and at or above [vEgoStopping] it never asks to stop;
    below 2 m/s with the cruise control in standstill, or below [vEgoStopping]
    with the brake pressed, it always does.  It never asks to start while the
    cruise control is in standstill, and when it asks to start the future
    target speed exceeds both [vEgoStarting] and the current target, and a
    tracked lead is faster than [vEgoStarting]. *)
Theorem stopping_starting_conditions :
  forall (CP : car.CarParams) (v_ego v_target_future v_target : Q)
         (brake_pressed cruise_standstill : bool) (radarState : option car.RadarState),
    let stopping :=
      longcontrol.stopping_condition CP v_ego v_target_future v_target brake_pressed
        cruise_standstill in
    let starting :=
      longcontrol.starting_condition CP v_target_future v_target cruise_standstill
        radarState in
    (2 <= v_ego -> car.vEgoStopping CP <= v_ego -> stopping = false)
    /\ (v_ego < 2 -> cruise_standstill = true -> stopping = true)
    /\ (v_ego < car.vEgoStopping CP -> brake_pressed = true -> stopping = true)
    /\ (cruise_standstill = true -> starting = false)
    /\ (starting = true ->
        car.vEgoStarting CP < v_target_future /\ v_target < v_target_future
        /\ cruise_standstill = false
        /\ forall rs lead,
             radarState = Some rs -> car.leadOne rs = Some lead ->
             car.status lead = true -> car.vEgoStarting CP < car.vLead lead).
Proof.
  intros CP v vtf vt brake standstill radar stopping starting.
  unfold stopping, starting, longcontrol.stopping_condition,
    longcontrol.starting_condition, longcontrol.accelerating.
  split; [| split; [| split; [| split]]].
  - intros H1 H2. apply lt_false in H1, H2. rewrite H1, H2. reflexivity.
  - intros H1 ->. apply lt_true in H1. rewrite H1. reflexivity.
  - intros H1 ->. apply lt_true in H1. rewrite H1.
    rewrite orb_true_r. simpl. apply orb_true_r.
  - intros ->. simpl. rewrite !andb_false_r.
    destruct radar as [[[[[] ?] |]] |]; reflexivity.
  - intros H.
    assert (Hbase : Py.gt vtf (car.vEgoStarting CP) && Py.gt vtf vt && negb standstill
                    = true).
    { destruct radar as [[[lead |]] |]; cbn in H; try exact H.
      destruct (car.status lead); [| exact H].
      apply andb_true_iff in H. apply H. }
    apply andb_true_iff in Hbase. destruct Hbase as [Hb Hs].
    apply andb_true_iff in Hb. destruct Hb as [Hg1 Hg2].
    apply gt_true in Hg1, Hg2. apply negb_true_iff in Hs.
    split; [assumption | split; [assumption | split; [assumption |]]].
    intros rs lead -> Hl Hst. simpl in H. rewrite Hl, Hst in H.
    apply andb_true_iff in H. destruct H as [_ H]. now apply gt_true.
Qed.

Lemma stopping_starting_conditions_witness :
  longcontrol.stopping_condition sample_CP 10 0 0 true true = false
  /\ longcontrol.starting_condition sample_CP 5 0 true None = false.
Proof.
  pose proof (stopping_starting_conditions sample_CP 10 0 0 true true None) as H0.
  cbv zeta in H0. destruct H0 as (H1 & _).
  pose proof (stopping_starting_conditions sample_CP 0 5 0 false true None) as H2.
  cbv zeta in H2. destruct H2 as (_ & _ & _ & H4 & _).
  split; [apply H1; q_order | apply H4; reflexivity].
Defined.

(** X18.  [LongControl.update] never returns a command: when the trajectory
    preprocessing raises, that exception leaves the call; otherwise the state
    machine raises [NameError] on [long_control_stat]. *)
Theorem long_update_exception :
  forall (DT_CTRL : Q) (CONTROL_N : nat) (T_IDXS : list Q)
         (ntune_scc_get : string -> Q) (self : longcontrol.LongControl)
         (active : bool) (CS : car.CarState) (CP : car.CarParams)
         (long_plan : longcontrol.LongitudinalPlan) (accel_limits : Q * Q)
         (radarState : option car.RadarState),
    longcontrol.update DT_CTRL CONTROL_N T_IDXS ntune_scc_get self active CS CP
      long_plan accel_limits radarState
    = match longcontrol.plan_targets CONTROL_N T_IDXS ntune_scc_get long_plan with
      | Ok _ => Raise (NameError "long_control_stat")
      | Raise e => Raise e
      end.
Proof.
  intros. unfold longcontrol.update, longcontrol.update_with.
  destruct (longcontrol.plan_targets _ _ _ _) as [[[vt vtf] a] | e]; [| reflexivity].
  cbv beta iota delta [bind].
  destruct (feedforward_spec CS a) as (k & _ & ->).
  now rewrite trans_NameError.
Qed.

(** X19.  A plan with the right number of speeds is not checked any further: a
    delay bound of zero raises [ZeroDivisionError] and an empty list of
    accelerations raises [IndexError]; the targets do not default to zero
    then. *)
Theorem plan_targets_unchecked :
  forall (CONTROL_N : nat) (T_IDXS : list Q) (ntune_scc_get : string -> Q)
         (long_plan : longcontrol.LongitudinalPlan),
    List.length (longcontrol.speeds long_plan) = CONTROL_N ->
    (1 <= CONTROL_N)%nat ->
    T_IDXS <> [] ->
    let lower := ntune_scc_get "longitudinalActuatorDelayLowerBound"%string in
    let upper := ntune_scc_get "longitudinalActuatorDelayUpperBound"%string in
    let result := longcontrol.plan_targets CONTROL_N T_IDXS ntune_scc_get long_plan in
    (lower == 0 -> result = Raise ZeroDivisionError)
    /\ (~ lower == 0 -> longcontrol.accels long_plan = [] ->
        result = Raise IndexError)
    /\ (~ lower == 0 -> longcontrol.accels long_plan <> [] -> upper == 0 ->
        result = Raise ZeroDivisionError).
Proof.
  intros CONTROL_N T_IDXS ntune long_plan Hlen HN HT lower upper result.
  unfold result, longcontrol.plan_targets. rewrite Hlen, Nat.eqb_refl. cbv zeta.
  fold lower upper.
  assert (Hpre : forall delay,
             exists v s0,
               longcontrol.a_target_at CONTROL_N T_IDXS long_plan delay
               = (q <- Py.div (2 * (v - s0)) delay ;;
                  a0 <- Py.index (longcontrol.accels long_plan) 0 ;;
                  Ok (q - a0))).
  { intros delay.
    assert (Hok : table_ok (firstn CONTROL_N T_IDXS, longcontrol.speeds long_plan)).
    { unfold table_ok. simpl. split.
      - destruct T_IDXS; [congruence |]. destruct CONTROL_N; [lia | discriminate].
      - rewrite length_firstn. lia. }
    destruct (interp_total delay _ _ Hok) as (v & Hv & _).
    destruct (nth_error_exists (longcontrol.speeds long_plan) 0) as (s0 & Hs0); [lia |].
    exists v, s0. unfold longcontrol.a_target_at. rewrite Hv.
    cbv beta iota delta [bind].
    pose proof (index_of_nat _ 0 _ Hs0) as Hi.
    change (Py.index (longcontrol.speeds long_plan) 0 = Ok s0) in Hi. rewrite Hi.
    reflexivity. }
  split; [| split].
  - intros H0. destruct (Hpre lower) as (v & s0 & ->).
    unfold Py.div. apply Qeq_bool_iff in H0. rewrite H0. reflexivity.
  - intros H0 Hacc. destruct (Hpre lower) as (v & s0 & ->).
    unfold Py.div. destruct (Qeq_bool lower 0) eqn:E;
      [apply Qeq_bool_iff in E; contradiction |].
    rewrite Hacc. reflexivity.
  - intros H0 Hacc Hu.
    destruct (a_target_at_total CONTROL_N T_IDXS long_plan lower Hlen HT HN Hacc H0)
      as (v1 & s1 & a1 & _ & _ & _ & ->).
    cbv beta iota delta [bind].
    destruct (Hpre upper) as (v & s0 & ->).
    unfold Py.div. apply Qeq_bool_iff in Hu. rewrite Hu. reflexivity.
Qed.

Lemma plan_targets_unchecked_witness :
  longcontrol.plan_targets 3 sample_T_IDXS sample_ntune accel_less_plan
  = Raise IndexError
  /\ longcontrol.plan_targets 3 sample_T_IDXS (fun _ => 0) sample_plan
     = Raise ZeroDivisionError.
Proof.
  assert (HT : sample_T_IDXS <> []) by discriminate.
  pose proof (plan_targets_unchecked 3 sample_T_IDXS sample_ntune accel_less_plan
                eq_refl ltac:(lia) HT) as H1.
  pose proof (plan_targets_unchecked 3 sample_T_IDXS (fun _ => 0) sample_plan
                eq_refl ltac:(lia) HT) as H2.
  cbv zeta in H1, H2.
  destruct H1 as (_ & H1 & _). destruct H2 as (H2 & _).
  split.
  - apply H1; [vm_compute; intro Hc; discriminate Hc | reflexivity].
  - apply H2. reflexivity.
Defined.

(* ===================================================================== *)
(** ** The longitudinal feedforward: sign and boost *)
(* ===================================================================== *)

Lemma clip_upper (x lo hi : Q) : lo <= x -> numpy_fast.clip x lo hi <= x.
Proof.
  intros H. unfold numpy_fast.clip.
  destruct (min_cases hi x) as [[-> H1] | [-> H1]].
  - destruct (max_cases lo x) as [[-> H2] | [-> H2]]; lra.
  - destruct (max_cases lo hi) as [[-> H2] | [-> H2]]; lra.
Qed.

Lemma clip_lower (x lo hi : Q) : x <= hi -> x <= numpy_fast.clip x lo hi.
Proof.
  intros H. unfold numpy_fast.clip.
  destruct (min_cases hi x) as [[-> H1] | [-> H1]].
  - destruct (max_cases lo x) as [[-> H2] | [-> H2]]; lra.
  - destruct (max_cases lo hi) as [[-> H2] | [-> H2]]; lra.
Qed.

(** X20.  The feedforward keeps the sign of the acceleration target.  A
    positive target is never reduced below itself (up to the ISO maximum of 2)
    and never raised above 1.2 times itself; a negative target is never
    boosted, only raised to the ISO minimum of -3.5 when it is below. *)
Theorem feedforward_keeps_sign :
  forall (CS : car.CarState) (a_target : Q),
    exists a_ff,
      longcontrol.feedforward CS a_target = Ok a_ff
      /\ (0 < a_target ->
          0 < a_ff /\ a_ff <= (12 # 10) * a_target /\ (a_target <= 2 -> a_target <= a_ff))
      /\ (a_target < 0 ->
          a_ff < 0 /\ a_target <= a_ff /\ (- (35 # 10) <= a_target -> a_ff == a_target))
      /\ (a_target == 0 -> a_ff == 0).
Proof.
  intros CS a. destruct (feedforward_spec CS a) as (k & (Hk1 & Hk2) & Hff).
  eexists. split; [exact Hff |].
  assert (Hmin : longcontrol.ACCEL_MIN_ISO == - (35 # 10)) by reflexivity.
  assert (Hmax : longcontrol.ACCEL_MAX_ISO == 2) by reflexivity.
  split; [| split].
  - intros Ha. apply gt_true in Ha as Hg. rewrite Hg.
    assert (Hx : 0 < a * k) by nra.
    split; [apply clip_positive; [assumption | rewrite Hmax; lra] |].
    split.
    + eapply Qle_trans; [apply clip_upper; rewrite Hmin; lra | nra].
    + intros H2. eapply Qle_trans;
        [apply (clip_lower a longcontrol.ACCEL_MIN_ISO longcontrol.ACCEL_MAX_ISO);
         rewrite Hmax; assumption
        | apply clip_monotone; nra].
  - intros Ha. assert (Hg : Py.gt a 0 = false) by (apply gt_false; lra).
    rewrite Hg.
    split; [apply clip_negative; [assumption | rewrite Hmin; lra] |].
    split; [apply clip_lower; rewrite Hmax; lra |].
    intros H. apply clip_exact; [rewrite Hmin; assumption | rewrite Hmax; lra].
  - intros Ha. assert (Hg : Py.gt a 0 = false) by (apply gt_false; lra).
    rewrite Hg. rewrite clip_exact; [assumption | rewrite Hmin; lra | rewrite Hmax; lra].
Qed.

(** The boost factor over speed: 1.2 at standstill or in reverse, falling
    by one fifteenth per m/s up to 3 m/s, and 1 above. *)
Lemma boost_profile (v : Q) :
  exists k,
    numpy_fast.interp v [0; 3] [12 # 10; 1] = Ok k
    /\ (v <= 0 -> k = 12 # 10)
    /\ (0 < v -> v <= 3 -> k == (12 # 10) - v / 15)
    /\ (3 < v -> k = 1).
Proof.
  unfold numpy_fast.interp. simpl.
  destruct (lt_cases 0 v) as [[E0 H0] | [E0 H0]]; unfold Py.gt; rewrite E0.
  - destruct (lt_cases 3 v) as [[E3 H3] | [E3 H3]]; rewrite E3; simpl.
    + unfold Py.gt. rewrite E3. simpl.
      eexists. split; [reflexivity |].
      split; [intros; lra | split; [intros; lra | reflexivity]].
    + eexists. split; [reflexivity |].
      split; [intros; lra | split; [| intros; lra]].
      intros _ _. field.
  - simpl. eexists. split; [reflexivity |].
    split; [reflexivity | split; intros; lra].
Qed.

(** X21.  Where the boost acts: at and above 3 m/s the feedforward is the
    clamped target itself; at standstill a positive target is multiplied by
    1.2 before the clamp. *)
Theorem feedforward_boost_profile :
  forall (CS : car.CarState) (a_target : Q),
    exists a_ff,
      longcontrol.feedforward CS a_target = Ok a_ff
      /\ (3 <= car.vEgo CS ->
          a_ff == numpy_fast.clip a_target longcontrol.ACCEL_MIN_ISO
                    longcontrol.ACCEL_MAX_ISO)
      /\ (car.vEgo CS <= 0 -> 0 < a_target ->
          a_ff == numpy_fast.clip ((12 # 10) * a_target) longcontrol.ACCEL_MIN_ISO
                    longcontrol.ACCEL_MAX_ISO)
      /\ (0 < car.vEgo CS -> car.vEgo CS <= 3 -> 0 < a_target ->
          a_ff == numpy_fast.clip (((12 # 10) - car.vEgo CS / 15) * a_target)
                    longcontrol.ACCEL_MIN_ISO longcontrol.ACCEL_MAX_ISO).
Proof.
  intros CS a. destruct (boost_profile (car.vEgo CS)) as (k & Hk & Hlow & Hmid & Hhigh).
  unfold longcontrol.feedforward. rewrite Hk.
  destruct (lt_cases 0 a) as [[E H] | [E H]]; unfold Py.gt; rewrite E;
    cbv beta iota delta [bind]; eexists; (split; [reflexivity |]).
  - split; [| split].
    + intros Hv. apply clip_equal.
      destruct (Qlt_le_dec 3 (car.vEgo CS)) as [H3 | H3].
      * rewrite (Hhigh H3). ring.
      * rewrite Hmid by lra.
        assert (Ev : car.vEgo CS == 3) by lra. rewrite Ev. field.
    + intros Hv _. apply clip_equal. rewrite (Hlow Hv). ring.
    + intros H0 H3 _. apply clip_equal. rewrite (Hmid H0 H3). ring.
  - split; [reflexivity | split; intros; lra].
Qed.

Lemma feedforward_boost_profile_witness :
  exists a_ff,
    longcontrol.feedforward sample_CS 1 = Ok a_ff
    /\ a_ff == numpy_fast.clip 1 longcontrol.ACCEL_MIN_ISO longcontrol.ACCEL_MAX_ISO.
Proof.
  destruct (feedforward_boost_profile sample_CS 1) as (a_ff & Hff & Hhigh & _).
  exists a_ff. split; [exact Hff |]. apply Hhigh. q_order.
Defined.

Lemma feedforward_keeps_sign_witness :
  exists a_ff,
    longcontrol.feedforward sample_CS (- (5)) = Ok a_ff /\ a_ff < 0 /\ - (5) <= a_ff.
Proof.
  destruct (feedforward_keeps_sign sample_CS (- (5))) as (a_ff & Hff & _ & Hneg & _).
  exists a_ff. split; [exact Hff |].
  destruct Hneg as (H1 & H2 & _); [q_order |]. split; assumption.
Defined.

(* ===================================================================== *)
(** ** Calls of [update]: what the signature refuses *)
(* ===================================================================== *)

Lemma bind_keywords_unknown (sig : Py.signature) (kw : list (string * Py.value))
  (n : string) (v : Py.value) :
  In (n, v) kw -> Py.assoc n sig = None ->
  forall env, exists msg, Py.bind_keywords sig env kw = Raise (TypeError msg).
Proof.
  intros Hin Hn. induction kw as [| [n0 v0] kw IH]; [destruct Hin |].
  intros env. simpl.
  destruct (Py.assoc n0 sig) eqn:E0; [| eauto].
  destruct (Py.assoc n0 env); [eauto |].
  destruct Hin as [Heq | Hin].
  - injection Heq as -> ->. congruence.
  - apply IH. exact Hin.
Qed.

(** X22.  A keyword that is not a parameter of [update] makes the call raise
    [TypeError] before the body runs, whatever else is passed and wherever the
    keyword stands. *)
Theorem unknown_keyword_raises :
  forall (self : pid.PIDController) (pos : list Py.value)
         (kw : list (string * Py.value)) (n : string) (v : Py.value),
    In (n, v) kw ->
    Py.assoc n pid.update_signature = None ->
    exists msg, pid.call_update self pos kw = Raise (TypeError msg).
Proof.
  intros self pos kw n v Hin Hn.
  unfold pid.call_update, Py.bind_args.
  destruct (Py.bind_positional pid.update_signature pos) as [env extra].
  destruct (bind_keywords_unknown pid.update_signature kw n v Hin Hn env)
    as (msg & ->).
  exists msg. reflexivity.
Qed.

Lemma unknown_keyword_raises_witness :
  exists msg,
    pid.call_update sample_pid [Py.VFloat 1; Py.VFloat 0; Py.VFloat 0]
      [("speed", Py.VFloat 5); ("freeze_integrator", Py.VBool false)]%string
    = Raise (TypeError msg).
Proof.
  apply (unknown_keyword_raises sample_pid _ _ "freeze_integrator" (Py.VBool false)).
  - simpl. right. left. reflexivity.
  - reflexivity.
Defined.

Lemma bind_keywords_keeps_missing (sig : Py.signature) (n : string)
  (kw : list (string * Py.value)) :
  Py.assoc n kw = None ->
  forall env env',
    Py.assoc n env = None ->
    Py.bind_keywords sig env kw = Ok env' ->
    Py.assoc n env' = None.
Proof.
  induction kw as [| [n0 v0] kw IH]; intros Hkw env env' Henv H; simpl in H.
  - injection H as <-. exact Henv.
  - simpl in Hkw. destruct (String.eqb n n0) eqn:E; [discriminate |].
    destruct (Py.assoc n0 sig); [| discriminate].
    destruct (Py.assoc n0 env); [discriminate |].
    apply (IH Hkw (env ++ [(n0, v0)])%list env'); [| exact H].
    clear - Henv E. induction env as [| [k w] env IHe]; simpl in *.
    + now rewrite E.
    + destruct (String.eqb n k); [discriminate | auto].
Qed.

Lemma bind_keywords_TypeError (sig : Py.signature) (kw : list (string * Py.value))
  (env : list (string * Py.value)) (e : exn) :
  Py.bind_keywords sig env kw = Raise e -> exists msg, e = TypeError msg.
Proof.
  revert env. induction kw as [| [n0 v0] kw IH]; intros env H; cbn [Py.bind_keywords] in H.
  - discriminate H.
  - destruct (Py.assoc n0 sig); [| injection H as <-; eauto].
    destruct (Py.assoc n0 env); [injection H as <-; eauto |].
    eapply IH, H.
Qed.

(** X23.  [last_output] has no default: a call with at most two positional
    arguments and no keyword [last_output] raises [TypeError], whatever its
    other keywords.  So the call of the tracking branch would still fail with
    [freeze_integrator] taken out. *)
Theorem missing_last_output_raises :
  forall (self : pid.PIDController) (pos : list Py.value)
         (kw : list (string * Py.value)),
    (List.length pos <= 2)%nat ->
    Py.assoc "last_output" kw = None ->
    exists msg, pid.call_update self pos kw = Raise (TypeError msg).
Proof.
  intros self pos kw Hlen Hkw.
  unfold pid.call_update, Py.bind_args.
  assert (Hpos : exists env,
             Py.bind_positional pid.update_signature pos = (env, [])
             /\ Py.assoc "last_output" env = None).
  { destruct pos as [| a [| b [| c pos]]]; simpl in Hlen; try lia;
      eexists; split; reflexivity. }
  destruct Hpos as (env & -> & Henv).
  destruct (Py.bind_keywords pid.update_signature env kw) as [env' | e] eqn:Ekw.
  - pose proof (bind_keywords_keeps_missing _ _ _ Hkw _ _ Henv Ekw) as Hmiss.
    cbv beta iota delta [bind]. unfold pid.update_signature.
    cbn [Py.bind_defaults].
    destruct (Py.assoc "setpoint" env'); [| eexists; reflexivity].
    destruct (Py.assoc "measurement" env'); [| eexists; reflexivity].
    rewrite Hmiss. eexists. reflexivity.
  - destruct (bind_keywords_TypeError _ _ _ _ Ekw) as (msg & ->).
    exists msg. reflexivity.
Qed.

Lemma missing_last_output_raises_witness :
  exists msg,
    pid.call_update sample_pid [Py.VFloat 1; Py.VFloat 0]
      [("speed", Py.VFloat 0); ("deadzone", Py.VFloat 0);
       ("feedforward", Py.VFloat 1)]%string
    = Raise (TypeError msg).
Proof.
  apply (missing_last_output_raises sample_pid).
  - simpl. lia.
  - reflexivity.
Defined.
